(** * A shallow embedding of the FAT16 file-system simulator

    The development follows [fat_fs.h] and the file-system half of the
    sources ([init_fs] ... [fs_append]).  The partition file is modelled as a
    map from cluster index to a 1024-byte buffer, the global [g_fat_table] as
    a map from index to a 16-bit value, and every operation as a function on
    an explicit state.  The backing file is taken to be open and the C
    library calls on it to succeed, so [read_cluster] and [write_cluster]
    fail only on an index outside the partition. *)

From Stdlib Require Import String Ascii ZArith List Lia Bool.
Import ListNotations.
Local Open Scope Z_scope.

(** ** Constants of [fat_fs.h] *)

Definition CLUSTER_SIZE : Z := 1024.
Definition CLUSTER_COUNT : Z := 4096.
Definition BOOT_BLOCK_CLUSTER : Z := 0.
Definition FAT_CLUSTER_START : Z := 1.
Definition FAT_CLUSTER_COUNT : Z := 8.
Definition ROOT_DIR_CLUSTER : Z := 9.
Definition DATA_CLUSTER_START : Z := 10.

Definition FAT_ENTRY_FREE : Z := 0x0000.
Definition FAT_ENTRY_BOOT : Z := 0xFFFD.
Definition FAT_ENTRY_RESERVED : Z := 0xFFFE.
Definition FAT_ENTRY_EOF : Z := 0xFFFF.

Definition DIR_ENTRY_SIZE : Z := 32.
Definition DIR_ENTRIES_PER_CLUSTER : Z := 32.
Definition ATTR_ARCHIVE : Z := 0.
Definition ATTR_DIRECTORY : Z := 1.

(** ** Outcomes

    A call either returns, or leaves defined C behaviour (an index outside
    [g_fat_table], a string comparison that runs off a cluster buffer, an
    unterminated path copy), or never leaves one of its loops. *)

Inductive outcome (A : Type) : Type :=
| Done (a : A)
| Undef
| Hang.

Arguments Done {A} a.
Arguments Undef {A}.
Arguments Hang {A}.

Definition bind {A B : Type} (m : outcome A) (k : A -> outcome B) : outcome B :=
  match m with
  | Done a => k a
  | Undef => Undef
  | Hang => Hang
  end.

Notation "'do' x <- m ; k" := (bind m (fun x => k))
  (at level 10, x name, m at level 100, k at level 200).

(** ** Memory: buffers, the FAT mirror and the partition *)

(** Pointwise update of a map indexed by [Z]. *)
Definition upd {A : Type} (f : Z -> A) (i : Z) (v : A) : Z -> A :=
  fun j => if j =? i then v else f j.

(** A cluster-sized byte buffer: offset to byte. *)
Definition buffer : Type := Z -> Z.

(** [uint16_t g_fat_table[CLUSTER_COUNT]]. *)
Definition fat_table : Type := Z -> Z.

Record fs_state : Type := mkState {
  g_fat_table : fat_table;
  partition : Z -> buffer
}.

(** Is [i] an index of [g_fat_table] (and of the partition's clusters)? *)
Definition in_table (i : Z) : bool := (0 <=? i) && (i <? CLUSTER_COUNT).

Definition zero_buffer : buffer := fun _ => 0.

(** [read_cluster]: [Some] buffer, or [None] for the [-1] return. *)
Definition read_cluster (st : fs_state) (cluster_index : Z) : option buffer :=
  if in_table cluster_index then Some (partition st cluster_index) else None.

(** [write_cluster]: the new state, or [None] for the [-1] return. *)
Definition write_cluster (st : fs_state) (cluster_index : Z) (buf : buffer)
  : option fs_state :=
  if in_table cluster_index
  then Some (mkState (g_fat_table st) (upd (partition st) cluster_index buf))
  else None.

(** ** The allocator *)

(** The [for] loop of [find_free_cluster], [n] iterations left from index [i]. *)
Fixpoint find_free_from (fat : fat_table) (n : nat) (i : Z) : Z :=
  match n with
  | O => 0
  | S n' => if fat i =? FAT_ENTRY_FREE then i else find_free_from fat n' (i + 1)
  end.

Definition find_free_cluster (fat : fat_table) : Z :=
  find_free_from fat (Z.to_nat (CLUSTER_COUNT - DATA_CLUSTER_START))
                 DATA_CLUSTER_START.

(** The guard of the [while] loop of [free_cluster_chain]:
    [current != 0 && current < FAT_ENTRY_EOF]. *)
Definition chain_continues (current : Z) : bool :=
  negb (current =? 0) && (current <? FAT_ENTRY_EOF).

(** The loop of [free_cluster_chain].  Each iteration reads
    [g_fat_table[current]], stores [FAT_ENTRY_FREE] there and moves to the
    value read. *)
Fixpoint free_chain_loop (fuel : nat) (fat : fat_table) (current : Z)
  : outcome fat_table :=
  if chain_continues current then
    match fuel with
    | O => Hang
    | S fuel' =>
        if in_table current
        then free_chain_loop fuel' (upd fat current FAT_ENTRY_FREE) (fat current)
        else Undef
    end
  else Done fat.

(** Every iteration but the last one clears a non-free entry of the table,
    so 4096 + 2 iterations always suffice ([free_chain_loop_total]). *)
Definition chain_fuel : nat := 4098.

Definition free_cluster_chain (fat : fat_table) (starting_cluster : Z)
  : outcome fat_table :=
  free_chain_loop chain_fuel fat starting_cluster.

(** ** Directory clusters

    A cluster read as [union data_cluster] is 32 records of 32 bytes:
    [filename] at offset 0 (18 bytes), [attributes] at 18, [reserved] at 19
    (7 bytes), [first_block] at 26 (little-endian 16 bits) and [size] at 28
    (little-endian 32 bits). *)

Record dir_entry_t : Type := mkEntry {
  filename : list Z;
  attributes : Z;
  reserved : list Z;
  first_block : Z;
  size : Z
}.

(** The [n] bytes of [buf] from offset [off]. *)
Definition bytes_at (buf : buffer) (off : Z) (n : nat) : list Z :=
  map (fun k => buf (off + Z.of_nat k)) (seq 0 n).

(** [buf] with the bytes [bs] stored from offset [off] ([memcpy]). *)
Definition poke (buf : buffer) (off : Z) (bs : list Z) : buffer :=
  fun j =>
    if (off <=? j) && (j <? off + Z.of_nat (length bs))
    then nth (Z.to_nat (j - off)) bs 0
    else buf j.

Definition le16 (b0 b1 : Z) : Z := b0 + 256 * b1.
Definition le32 (b0 b1 b2 b3 : Z) : Z :=
  b0 + 256 * b1 + 65536 * b2 + 16777216 * b3.
Definition bytes_le16 (v : Z) : list Z := [v mod 256; (v / 256) mod 256].
Definition bytes_le32 (v : Z) : list Z :=
  [v mod 256; (v / 256) mod 256; (v / 65536) mod 256; (v / 16777216) mod 256].

Definition slot_offset (i : Z) : Z := DIR_ENTRY_SIZE * i.

(** [dir[i]] of a cluster buffer. *)
Definition entry_at (buf : buffer) (i : Z) : dir_entry_t :=
  let o := slot_offset i in
  mkEntry (bytes_at buf o 18)
          (buf (o + 18))
          (bytes_at buf (o + 19) 7)
          (le16 (buf (o + 26)) (buf (o + 27)))
          (le32 (buf (o + 28)) (buf (o + 29)) (buf (o + 30)) (buf (o + 31))).

(** [strncpy(dst, src, 17); dst[17] = 0]: the 18 bytes stored. *)
Definition strncpy17 (src : list Z) : list Z :=
  firstn 17 src ++ repeat 0 (17 - length (firstn 17 src)) ++ [0].

(** [strcmp((char* )&buf[off], token) == 0].  The comparison walks the buffer
    until the first difference or the end of [token]; it is not confined to
    the 18-byte name field.  Leaving the 1024-byte buffer is undefined. *)
Fixpoint strcmp_at (buf : buffer) (off : Z) (token : list Z) : outcome bool :=
  if off <? CLUSTER_SIZE then
    match token with
    | [] => Done (buf off =? 0)
    | t :: token' =>
        if buf off =? t then strcmp_at buf (off + 1) token' else Done false
    end
  else Undef.

(** The slot scan of [find_entry_by_path]: [n] slots left from slot [i]. *)
Fixpoint scan_dir (buf : buffer) (token : list Z) (n : nat) (i : Z)
  : outcome (option Z) :=
  match n with
  | O => Done None
  | S n' =>
      if negb (buf (slot_offset i) =? 0) then
        do eq <- strcmp_at buf (slot_offset i) token;
        if eq then Done (Some i) else scan_dir buf token n' (i + 1)
      else scan_dir buf token n' (i + 1)
  end.

(** ** Paths *)

Definition SLASH : Z := 47.

(** The fields of [s] between separators (empty fields included). *)
Fixpoint split_on (sep : Z) (s : list Z) : list (list Z) :=
  match s with
  | [] => [[]]
  | c :: s' =>
      if c =? sep then [] :: split_on sep s'
      else match split_on sep s' with
           | f :: fs => (c :: f) :: fs
           | [] => [[c]]
           end
  end.

Definition is_nil (l : list Z) : bool :=
  match l with [] => true | _ => false end.

(** The successive results of [strtok(s, "/")], [strtok(NULL, "/")], ... *)
Definition strtok_all (s : list Z) : list (list Z) :=
  filter (fun f => negb (is_nil f)) (split_on SLASH s).

Definition list_eqb (a b : list Z) : bool :=
  if list_eq_dec Z.eq_dec a b then true else false.

(** ** The path resolver *)

Record path_search_result_t : Type := mkResult {
  name : list Z;
  found : bool;
  parent_cluster : Z;
  entry_cluster : Z;
  entry_index : Z;
  entry : dir_entry_t
}.

Definition zero_entry : dir_entry_t :=
  mkEntry (repeat 0 18) 0 (repeat 0 7) 0 0.

(** [memset(result, 0, ...); result->parent_cluster = ROOT_DIR_CLUSTER]. *)
Definition initial_result : path_search_result_t :=
  mkResult (repeat 0 18) false ROOT_DIR_CLUSTER 0 0 zero_entry.

(** The result synthesized for the path ["/"]. *)
Definition root_result : path_search_result_t :=
  mkResult (repeat 0 18) true ROOT_DIR_CLUSTER ROOT_DIR_CLUSTER 0
           (mkEntry (SLASH :: repeat 0 17) ATTR_DIRECTORY (repeat 0 7) 0 0).

(** The [while (token != NULL)] loop of [find_entry_by_path]. *)
Fixpoint resolve_loop (st : fs_state) (tokens : list (list Z))
    (current_cluster : Z) (result : path_search_result_t)
  : outcome (Z * path_search_result_t) :=
  match tokens with
  | [] =>
      Done (0, mkResult (name result) true (parent_cluster result)
                        (entry_cluster result) (entry_index result)
                        (entry result))
  | token :: rest =>
      let result1 :=
        mkResult (strncpy17 token) (found result) (parent_cluster result)
                 (entry_cluster result) (entry_index result) (entry result) in
      match read_cluster st current_cluster with
      | None => Done (-1, result1)
      | Some cluster_buffer =>
          do hit <- scan_dir cluster_buffer token
                             (Z.to_nat DIR_ENTRIES_PER_CLUSTER) 0;
          match hit with
          | Some i =>
              let e := entry_at cluster_buffer i in
              resolve_loop st rest (first_block e)
                (mkResult (name result1) (found result1) current_cluster
                          (first_block e) i e)
          | None =>
              Done (0, mkResult (name result1) false (parent_cluster result1)
                                (entry_cluster result1) (entry_index result1)
                                (entry result1))
          end
      end
  end.

(** [find_entry_by_path]: the return code and the filled result. *)
Definition find_entry_by_path (st : fs_state) (path : list Z)
  : outcome (Z * path_search_result_t) :=
  let path_copy := firstn 511 path in
  if list_eqb path_copy [SLASH] then Done (0, root_result)
  else
    match strtok_all path_copy with
    | [] => Done (0, initial_result)
    | tokens => resolve_loop st tokens ROOT_DIR_CLUSTER initial_result
    end.

(** ** Replies of the operations

    Every operation returns [0] or [-1]; the diagnostic printed on [stderr]
    tells the failures apart. *)

Inductive diag : Type :=
| Quiet
| IOError
| InvalidPath
| NoSuchEntry
| NotADirectory
| NoParentOrNotDir
| DirectoryFull
| NoSpace
| DirectoryNotEmpty
| NotAFile
| NoFileOrNotFile.

Record reply : Type := mkReply {
  code : Z;
  msg : diag;
  after : fs_state
}.

Definition ok (st : fs_state) : outcome reply := Done (mkReply 0 Quiet st).
Definition fail (d : diag) (st : fs_state) : outcome reply :=
  Done (mkReply (-1) d st).

(** ** Persisting and loading the FAT *)

(** Cluster [i] of [(uint8_t* )g_fat_table] (little-endian entries). *)
Definition fat_bytes (fat : fat_table) (i : Z) : buffer :=
  fun off =>
    let e := 512 * i + off / 2 in
    if Z.even off then fat e mod 256 else (fat e / 256) mod 256.

(** The loop [for (i = 0; i < FAT_CLUSTER_COUNT; ++i) write_cluster(...)]. *)
Fixpoint persist_loop (st : fs_state) (n : nat) (i : Z) : option fs_state :=
  match n with
  | O => Some st
  | S n' =>
      match write_cluster st (FAT_CLUSTER_START + i)
                          (fat_bytes (g_fat_table st) i) with
      | None => None
      | Some st' => persist_loop st' n' (i + 1)
      end
  end.

Definition persist_fat (st : fs_state) : option fs_state :=
  persist_loop st (Z.to_nat FAT_CLUSTER_COUNT) 0.

(** The tail shared by the mutating operations: persist, then return 0. *)
Definition persist_and_return (st : fs_state) : outcome reply :=
  match persist_fat st with
  | None => fail IOError st
  | Some st' => ok st'
  end.

(** [fs_load_fat]: the eight FAT clusters are read into the mirror. *)
Definition fs_load_fat (st : fs_state) : reply :=
  mkReply 0 Quiet
    (mkState
       (fun e =>
          if in_table e
          then le16 (partition st (FAT_CLUSTER_START + e / 512) (2 * (e mod 512)))
                    (partition st (FAT_CLUSTER_START + e / 512)
                               (2 * (e mod 512) + 1))
          else g_fat_table st e)
       (partition st)).

(** The mirror prepared by [fs_format]. *)
Definition format_fat : fat_table :=
  fun i =>
    if i =? ROOT_DIR_CLUSTER then FAT_ENTRY_EOF
    else if (FAT_CLUSTER_START <=? i) && (i <? FAT_CLUSTER_START + FAT_CLUSTER_COUNT)
         then FAT_ENTRY_RESERVED
    else if i =? BOOT_BLOCK_CLUSTER then FAT_ENTRY_BOOT
    else FAT_ENTRY_FREE.

(** [fs_format]: the file is truncated (every byte not written reads as 0),
    then the boot block, the FAT and the empty root directory are written. *)
Definition fs_format (st : fs_state) : outcome reply :=
  let st0 := mkState format_fat (fun _ => zero_buffer) in
  match write_cluster st0 BOOT_BLOCK_CLUSTER (fun _ => 0xBB) with
  | None => fail IOError st0
  | Some st1 =>
      let st2 :=
        match write_cluster st1 FAT_CLUSTER_START (fat_bytes (g_fat_table st1) 0) with
        | None => st1
        | Some s => s
        end in
      match persist_fat st2 with
      | None => fail IOError st2
      | Some st3 =>
          match write_cluster st3 ROOT_DIR_CLUSTER zero_buffer with
          | None => fail IOError st3
          | Some st4 => ok st4
          end
      end
  end.

(** ** [fs_mkdir] and [fs_create] *)

(** [find_free_dir_entry]: the index of the first slot whose name starts
    with 0, [-2] when there is none, [-1] when the cluster cannot be read;
    and the cluster read. *)
Fixpoint first_free_slot (buf : buffer) (n : nat) (i : Z) : Z :=
  match n with
  | O => -2
  | S n' => if buf (slot_offset i) =? 0 then i else first_free_slot buf n' (i + 1)
  end.

Definition find_free_dir_entry (st : fs_state) (dir_cluster_index : Z)
  : Z * buffer :=
  match read_cluster st dir_cluster_index with
  | None => (-1, zero_buffer)
  | Some dir_cluster =>
      (first_free_slot dir_cluster (Z.to_nat DIR_ENTRIES_PER_CLUSTER) 0,
       dir_cluster)
  end.

(** [strrchr(s, c)]: the index of the last occurrence. *)
Fixpoint strrchr (s : list Z) (c : Z) : option nat :=
  match s with
  | [] => None
  | x :: s' =>
      match strrchr s' c with
      | Some k => Some (S k)
      | None => if x =? c then Some O else None
      end
  end.

(** Step 1 of [fs_mkdir] and [fs_create]: the parent path and the new name.
    [strncpy(path_copy, path, 511)] leaves [path_copy] unterminated when the
    path has 511 bytes or more. *)
Definition split_path (path : list Z) : outcome (option (list Z * list Z)) :=
  if (511 <=? Z.of_nat (length path)) then Undef
  else
    match strrchr path SLASH with
    | None => Done None
    | Some O => Done (Some ([SLASH], skipn 1 path))
    | Some k => Done (Some (firstn k path, skipn (S k) path))
    end.

(** Steps 5 and 6 of [fs_mkdir] / [fs_create] on the parent's buffer. *)
Definition fill_entry (buf : buffer) (i : Z) (new_name : list Z) (attr : Z)
    (new_cluster_idx : Z) : buffer :=
  let o := slot_offset i in
  poke (poke (poke (poke buf o (strncpy17 new_name))
                   (o + 18) [attr])
             (o + 26) (bytes_le16 new_cluster_idx))
       (o + 28) (bytes_le32 0).

Definition set_fat (st : fs_state) (i v : Z) : fs_state :=
  mkState (upd (g_fat_table st) i v) (partition st).

Definition fs_mkdir (st : fs_state) (path : list Z) : outcome reply :=
  do sp <- split_path path;
  match sp with
  | None => fail InvalidPath st
  | Some (parent_path, new_dir_name) =>
      do r <- find_entry_by_path st parent_path;
      let parent_info := snd r in
      if negb (fst r =? 0) || negb (found parent_info) then fail NoSuchEntry st
      else if negb (attributes (entry parent_info) =? ATTR_DIRECTORY)
      then fail NotADirectory st
      else
        let '(free_entry_index, parent_cluster_data) :=
          find_free_dir_entry st (entry_cluster parent_info) in
        if free_entry_index <? 0 then fail DirectoryFull st
        else
          let new_cluster_idx := find_free_cluster (g_fat_table st) in
          if new_cluster_idx =? 0 then fail NoSpace st
          else
            let parent_cluster_data :=
              fill_entry parent_cluster_data free_entry_index new_dir_name
                         ATTR_DIRECTORY new_cluster_idx in
            let st1 := set_fat st new_cluster_idx FAT_ENTRY_EOF in
            match write_cluster st1 (entry_cluster parent_info)
                                parent_cluster_data with
            | None => fail IOError st1
            | Some st2 =>
                match write_cluster st2 new_cluster_idx zero_buffer with
                | None => fail IOError st2
                | Some st3 => persist_and_return st3
                end
            end
  end.

Definition fs_create (st : fs_state) (path : list Z) : outcome reply :=
  do sp <- split_path path;
  match sp with
  | None => fail InvalidPath st
  | Some (parent_path, new_file_name) =>
      do r <- find_entry_by_path st parent_path;
      let parent_info := snd r in
      if negb (fst r =? 0) || negb (found parent_info)
         || negb (attributes (entry parent_info) =? ATTR_DIRECTORY)
      then fail NoParentOrNotDir st
      else
        let '(free_entry_index, parent_cluster_data) :=
          find_free_dir_entry st (entry_cluster parent_info) in
        if free_entry_index <? 0 then fail DirectoryFull st
        else
          let new_cluster_idx := find_free_cluster (g_fat_table st) in
          if new_cluster_idx =? 0 then fail NoSpace st
          else
            let parent_cluster_data :=
              fill_entry parent_cluster_data free_entry_index new_file_name
                         ATTR_ARCHIVE new_cluster_idx in
            let st1 := set_fat st new_cluster_idx FAT_ENTRY_EOF in
            match write_cluster st1 (entry_cluster parent_info)
                                parent_cluster_data with
            | None => fail IOError st1
            | Some st2 => persist_and_return st2
            end
  end.

(** ** [fs_unlink] *)

(** The emptiness check of [fs_unlink]: is some slot's first name byte
    non-zero? *)
Fixpoint has_entry (buf : buffer) (n : nat) (i : Z) : bool :=
  match n with
  | O => false
  | S n' => negb (buf (slot_offset i) =? 0) || has_entry buf n' (i + 1)
  end.

Definition fs_unlink (st : fs_state) (path : list Z) : outcome reply :=
  do r <- find_entry_by_path st path;
  let result := snd r in
  if negb (fst r =? 0) || negb (found result) then fail NoSuchEntry st
  else
    let check :=
      if attributes (entry result) =? ATTR_DIRECTORY then
        match read_cluster st (entry_cluster result) with
        | None => Some IOError
        | Some dir_content =>
            if has_entry dir_content (Z.to_nat DIR_ENTRIES_PER_CLUSTER) 0
            then Some DirectoryNotEmpty else None
        end
      else None in
    match check with
    | Some d => fail d st
    | None =>
        do fat1 <- free_cluster_chain (g_fat_table st)
                                      (first_block (entry result));
        let st1 := mkState fat1 (partition st) in
        match read_cluster st1 (parent_cluster result) with
        | None => fail IOError st1
        | Some parent_dir_content =>
            let parent_dir_content :=
              poke parent_dir_content (slot_offset (entry_index result))
                   (repeat 0 (Z.to_nat DIR_ENTRY_SIZE)) in
            match write_cluster st1 (parent_cluster result)
                                parent_dir_content with
            | None => fail IOError st1
            | Some st2 => persist_and_return st2
            end
        end
    end.

(** ** [fs_read] *)

(** The [while] loop of [fs_read]; the bytes passed to [fwrite] are
    collected in order.  A failing [read_cluster] returns [-1] after the
    bytes already written. *)
Fixpoint read_loop (fuel : nat) (st : fs_state) (current_cluster : Z)
    (bytes_to_read : Z) : outcome (Z * list Z) :=
  if (0 <? bytes_to_read) && (current_cluster <? FAT_ENTRY_EOF) then
    match fuel with
    | O => Hang
    | S fuel' =>
        match read_cluster st current_cluster with
        | None => Done (-1, [])
        | Some buf =>
            let len := if bytes_to_read >? CLUSTER_SIZE
                       then CLUSTER_SIZE else bytes_to_read in
            do r <- read_loop fuel' st (g_fat_table st current_cluster)
                              (bytes_to_read - len);
            Done (fst r, bytes_at buf 0 (Z.to_nat len) ++ snd r)
        end
    end
  else Done (0, [10]).

(** Each iteration consumes a full cluster of [bytes_to_read] or its
    remainder, so [size / 1024 + 1] iterations suffice. *)
Definition read_fuel (bytes_to_read : Z) : nat :=
  Z.to_nat (bytes_to_read / CLUSTER_SIZE + 1).

(** [fs_read]: the return code and the bytes written to [stdout]. *)
Definition fs_read (st : fs_state) (path : list Z) : outcome (Z * list Z) :=
  do r <- find_entry_by_path st path;
  let result := snd r in
  if negb (fst r =? 0) || negb (found result) then Done (-1, [])
  else if negb (attributes (entry result) =? ATTR_ARCHIVE) then Done (-1, [])
  else read_loop (read_fuel (size (entry result))) st
                 (first_block (entry result)) (size (entry result)).

(** ** [fs_write] *)

(** [uint32_t] truncation of a length. *)
Definition uint32 (z : Z) : Z := z mod 4294967296.

(** The successive slices of at most 1024 bytes of [bs]. *)
Fixpoint chunk_list (fuel : nat) (bs : list Z) : list (list Z) :=
  match fuel with
  | O => []
  | S fuel' =>
      match bs with
      | [] => []
      | _ => firstn 1024 bs :: chunk_list fuel' (skipn 1024 bs)
      end
  end.

Definition chunks (bs : list Z) : list (list Z) := chunk_list (length bs) bs.

(** The allocation loop of [fs_write], one iteration per slice.  On an
    allocator failure the chain built so far is freed and [-1] returned. *)
Fixpoint write_loop (st : fs_state) (slices : list (list Z))
    (current_cluster first_cluster : Z) : outcome (Z * Z * fs_state) :=
  match slices with
  | [] => Done (0, first_cluster, st)
  | slice :: rest =>
      let next_cluster := find_free_cluster (g_fat_table st) in
      if next_cluster =? 0 then
        do fat' <- free_cluster_chain (g_fat_table st) first_cluster;
        Done (-1, first_cluster, mkState fat' (partition st))
      else
        let st1 := if first_cluster =? 0 then st
                   else set_fat st current_cluster next_cluster in
        let first_cluster := if first_cluster =? 0 then next_cluster
                             else first_cluster in
        let st2 := set_fat st1 next_cluster FAT_ENTRY_EOF in
        match write_cluster st2 next_cluster (poke zero_buffer 0 slice) with
        | None => Done (-2, first_cluster, st2)
        | Some st3 => write_loop st3 rest next_cluster first_cluster
        end
  end.

(** [g_fat_table[i] = v] for an index that was not checked. *)
Definition store_fat (st : fs_state) (i v : Z) : outcome fs_state :=
  if in_table i then Done (set_fat st i v) else Undef.

Definition fs_write (st : fs_state) (path content : list Z) : outcome reply :=
  do r <- find_entry_by_path st path;
  let result := snd r in
  if negb (fst r =? 0) || negb (found result)
     || negb (attributes (entry result) =? ATTR_ARCHIVE)
  then fail NoFileOrNotFile st
  else
    do fat1 <- free_cluster_chain (g_fat_table st) (first_block (entry result));
    let st1 := mkState fat1 (partition st) in
    let content_len := uint32 (Z.of_nat (length content)) in
    do w <-
      (if 0 <? content_len then
         write_loop st1 (chunks (firstn (Z.to_nat content_len) content)) 0 0
       else
         let first_cluster := find_free_cluster (g_fat_table st1) in
         do st' <- store_fat st1 first_cluster FAT_ENTRY_EOF;
         Done (0, first_cluster, st'));
    let '(rc, first_cluster, st2) := w in
    if rc =? -1 then fail NoSpace st2
    else if negb (rc =? 0) then fail IOError st2
    else
      match read_cluster st2 (parent_cluster result) with
      | None => fail IOError st2
      | Some parent_dir_content =>
          let o := slot_offset (entry_index result) in
          let parent_dir_content :=
            poke (poke parent_dir_content (o + 26) (bytes_le16 first_cluster))
                 (o + 28) (bytes_le32 content_len) in
          match write_cluster st2 (parent_cluster result) parent_dir_content with
          | None => fail IOError st2
          | Some st3 => persist_and_return st3
          end
      end.

(** ** [fs_append] *)

(** Step 1 of [fs_append]: [while (g_fat_table[current] != FAT_ENTRY_EOF)
    current = g_fat_table[current]].  The table is not written during the
    walk, so a walk of more than 4096 in-range steps has entered a cycle. *)
Fixpoint walk_to_tail (fuel : nat) (fat : fat_table) (current_cluster : Z)
  : outcome Z :=
  if in_table current_cluster then
    if fat current_cluster =? FAT_ENTRY_EOF then Done current_cluster
    else
      match fuel with
      | O => Hang
      | S fuel' => walk_to_tail fuel' fat (fat current_cluster)
      end
  else Undef.

(** Step 3 of [fs_append]: the main loop.  [slices] are the pieces copied by
    the successive iterations: the first fills the buffer from
    [offset_in_cluster], the following ones are whole clusters. *)
Fixpoint append_loop (st : fs_state) (slices : list (list Z))
    (current_cluster : Z) (buf : buffer) (offset_in_cluster : Z)
  : outcome (Z * fs_state) :=
  match slices with
  | [] => Done (0, st)
  | slice :: rest =>
      let buf := poke buf offset_in_cluster slice in
      match write_cluster st current_cluster buf with
      | None => Done (-2, st)
      | Some st1 =>
          match rest with
          | [] => Done (0, st1)
          | _ =>
              let new_cluster := find_free_cluster (g_fat_table st1) in
              if new_cluster =? 0 then Done (-1, st1)
              else
                do st2 <- store_fat st1 current_cluster new_cluster;
                let st3 := set_fat st2 new_cluster FAT_ENTRY_EOF in
                append_loop st3 rest new_cluster zero_buffer 0
          end
      end
  end.

(** Step 1: the walk is skipped for a file of size 0, whose first block is
    the pre-allocated one. *)
Definition append_tail (st : fs_state) (e : dir_entry_t) : outcome Z :=
  if 0 <? size e
  then walk_to_tail (Z.to_nat CLUSTER_COUNT) (g_fat_table st) (first_block e)
  else Done (first_block e).

(** Step 2: a full last cluster is followed by a new, zeroed one; otherwise
    the last cluster is read.  A failure is the reply of [fs_append]. *)
Definition append_prepare (st : fs_state) (current_cluster original_size : Z)
  : outcome (reply + fs_state * Z * buffer) :=
  if (original_size mod CLUSTER_SIZE =? 0) && (0 <? original_size) then
    let new_cluster := find_free_cluster (g_fat_table st) in
    if new_cluster =? 0 then Done (inl (mkReply (-1) NoSpace st))
    else
      do st1 <- store_fat st current_cluster new_cluster;
      Done (inr (set_fat st1 new_cluster FAT_ENTRY_EOF,
                 new_cluster, zero_buffer))
  else
    match read_cluster st current_cluster with
    | None => Done (inl (mkReply (-1) IOError st))
    | Some b => Done (inr (st, current_cluster, b))
    end.

(** Steps 4 and 5: the new size is stored in the directory entry and the
    table persisted. *)
Definition append_finish (st : fs_state) (result : path_search_result_t)
    (new_size : Z) : outcome reply :=
  match read_cluster st (parent_cluster result) with
  | None => fail IOError st
  | Some parent_dir_content =>
      let parent_dir_content :=
        poke parent_dir_content (slot_offset (entry_index result) + 28)
             (bytes_le32 new_size) in
      match write_cluster st (parent_cluster result) parent_dir_content with
      | None => fail IOError st
      | Some st3 => persist_and_return st3
      end
  end.

Definition fs_append (st : fs_state) (path content : list Z) : outcome reply :=
  do r <- find_entry_by_path st path;
  let result := snd r in
  if negb (fst r =? 0) || negb (found result)
     || negb (attributes (entry result) =? ATTR_ARCHIVE)
  then fail NoFileOrNotFile st
  else
    let content_len := uint32 (Z.of_nat (length content)) in
    if content_len =? 0 then ok st
    else
      let original_size := size (entry result) in
      do current_cluster <- append_tail st (entry result);
      let offset_in_cluster := original_size mod CLUSTER_SIZE in
      do prep <- append_prepare st current_cluster original_size;
      match prep with
      | inl rep => Done rep
      | inr (st1, current_cluster, buf) =>
          let data := firstn (Z.to_nat content_len) content in
          let space := Z.to_nat (CLUSTER_SIZE - offset_in_cluster) in
          do a <- append_loop st1
                    (firstn space data :: chunks (skipn space data))
                    current_cluster buf offset_in_cluster;
          if fst a =? -1 then fail NoSpace (snd a)
          else if negb (fst a =? 0) then fail IOError (snd a)
          else append_finish (snd a) result
                             (uint32 (original_size + content_len))
      end.

(** ** Helpers for concrete paths and contents *)

Fixpoint bytes_of_string (s : string) : list Z :=
  match s with
  | EmptyString => []
  | String a s' => Z.of_N (N_of_ascii a) :: bytes_of_string s'
  end.

(** Run an operation on the state left by the previous one. *)
Definition then_do (m : outcome reply) (op : fs_state -> outcome reply)
  : outcome reply :=
  do r <- m; op (after r).

(** [init] then [load] from the shell. *)
Definition fresh : outcome reply :=
  do r <- fs_format (mkState (fun _ => 0) (fun _ => zero_buffer));
  Done (fs_load_fat (after r)).

(** ** Measures and predicates used by the statements *)

(** The indices of [g_fat_table]. *)
Definition table_indices : list Z := map Z.of_nat (seq 0 4096).

(** The number of non-free entries of the table. *)
Definition used_entries (fat : fat_table) : nat :=
  length (filter (fun i => negb (fat i =? FAT_ENTRY_FREE)) table_indices).

(** Is [c] one of the eight clusters that hold the FAT? *)
Definition fat_region (c : Z) : bool :=
  (FAT_CLUSTER_START <=? c) && (c <? FAT_CLUSTER_START + FAT_CLUSTER_COUNT).

(** The clusters searched by [resolve_loop], in order: the cluster read for
    each component until one is not found. *)
Fixpoint resolve_trace (st : fs_state) (tokens : list (list Z))
    (current_cluster : Z) : list Z :=
  match tokens with
  | [] => []
  | token :: rest =>
      current_cluster ::
      match read_cluster st current_cluster with
      | None => []
      | Some cluster_buffer =>
          match scan_dir cluster_buffer token
                         (Z.to_nat DIR_ENTRIES_PER_CLUSTER) 0 with
          | Done (Some i) =>
              resolve_trace st rest (first_block (entry_at cluster_buffer i))
          | _ => []
          end
      end
  end.

(** What a test observes of a reply. *)
Definition observe {A : Type} (f : reply -> A) (m : outcome reply) : outcome A :=
  do r <- m; Done (f r).

(** The state reached by a run of operations (the blank state if the run
    does not return). *)
Definition state_of (m : outcome reply) : fs_state :=
  match m with
  | Done r => after r
  | _ => mkState (fun _ => 0) (fun _ => zero_buffer)
  end.

(** ** Concrete scenarios *)

(** A table in which the data cluster 10 holds the boot marker. *)
Definition fat_boot_link : fat_table := upd format_fat 10 FAT_ENTRY_BOOT.

(** [init], [load], [mkdir /a]. *)
Definition run_mkdir_a : outcome reply :=
  then_do fresh (fun s => fs_mkdir s (bytes_of_string "/a")).

(** [init], [load], [create /f], [write "abc" /f]. *)
Definition run_file_abc : outcome reply :=
  then_do (then_do fresh (fun s => fs_create s (bytes_of_string "/f")))
          (fun s => fs_write s (bytes_of_string "/f") (bytes_of_string "abc")).

(** ... followed by an append of 1025 bytes to the path [/f/abc], which
    resolves through the bytes of the regular file [/f]. *)
Definition run_append_through_file : outcome reply :=
  then_do run_file_abc
          (fun s => fs_append s (bytes_of_string "/f/abc") (repeat 65 1025)).

(** [init], [load], [mkdir /]. *)
Definition run_mkdir_root : outcome reply :=
  then_do fresh (fun s => fs_mkdir s (bytes_of_string "/")).

(** [init], [load], [unlink /]. *)
Definition run_unlink_root : outcome reply :=
  then_do fresh (fun s => fs_unlink s (bytes_of_string "/")).

(** [cs] is a chain of the table: every cluster of [cs] is a valid index
    that passes the guard of the chain loops and is linked to the next one,
    the last one holding [end_value]. *)
Fixpoint chain_at (fat : fat_table) (cs : list Z) (end_value : Z) : Prop :=
  match cs with
  | [] => True
  | c :: rest =>
      chain_continues c = true /\ in_table c = true
      /\ fat c = match rest with [] => end_value | c' :: _ => c' end
      /\ chain_at fat rest end_value
  end.

(** A cluster of the data area. *)
Definition data_cluster (c : Z) : Prop := DATA_CLUSTER_START <= c < CLUSTER_COUNT.

(** A partition whose data area is entirely in use, with one regular file
    [f] (first cluster 10, size 0) in the root directory. *)
Definition full_fat : fat_table :=
  fun i =>
    if i =? BOOT_BLOCK_CLUSTER then FAT_ENTRY_BOOT
    else if fat_region i then FAT_ENTRY_RESERVED
    else FAT_ENTRY_EOF.

Definition st_full : fs_state :=
  mkState full_fat
    (upd (fun _ => zero_buffer) ROOT_DIR_CLUSTER
         (fill_entry zero_buffer 0 (bytes_of_string "f") ATTR_ARCHIVE 10)).

(** Slices as [fs_write] cuts them: none is empty, none is longer than a
    cluster, and all but the last one fill a cluster. *)
Fixpoint well_sliced (slices : list (list Z)) : Prop :=
  match slices with
  | [] => True
  | s :: rest =>
      s <> [] /\ (length s <= 1024)%nat
      /\ (rest <> [] -> length s = 1024%nat)
      /\ well_sliced rest
  end.

(** The bytes of a C string: none is NUL. *)
Definition c_string (s : list Z) : Prop := Forall (fun b => 0 < b < 256) s.

(** ** Sessions: the commands of the shell, run from [init] and [load] *)

Inductive command : Type :=
| Mkdir (path : list Z)
| Create (path : list Z)
| Unlink (path : list Z)
| Write (content path : list Z)
| Append (content path : list Z).

Definition exec (st : fs_state) (c : command) : outcome reply :=
  match c with
  | Mkdir p => fs_mkdir st p
  | Create p => fs_create st p
  | Unlink p => fs_unlink st p
  | Write content p => fs_write st p content
  | Append content p => fs_append st p content
  end.

(** Run the commands in order; the return codes and the final state. *)
Fixpoint run (st : fs_state) (cs : list command) : outcome (list Z * fs_state) :=
  match cs with
  | [] => Done ([], st)
  | c :: rest =>
      do r <- exec st c;
      do t <- run (after r) rest;
      Done (code r :: fst t, snd t)
  end.

Definition session (cs : list command) : outcome (list Z * fs_state) :=
  do r <- fresh; run (after r) cs.

Definition session_codes (cs : list command) : outcome (list Z) :=
  do t <- session cs; Done (fst t).

Definition session_state (cs : list command) : fs_state :=
  match session cs with
  | Done t => snd t
  | _ => mkState (fun _ => 0) (fun _ => zero_buffer)
  end.

(** The 27 bytes stored in [/f]: read as a directory entry they are a name
    of 18 bytes [n], attribute 2, seven bytes [r] and first cluster 10; as a
    string they end at the zero high byte of the first cluster. *)
Definition forged_entry : list Z := repeat 110 18 ++ [2] ++ repeat 114 7 ++ [10].

(** A directory [/d] (cluster 10) holding a file [x] (cluster 11); a file
    [/f] (cluster 12) whose bytes are [forged_entry]; then the unlink of the
    forged entry, which frees cluster 10 although [/d] still uses it. *)
Definition free_directory_script : list command :=
  [ Mkdir (bytes_of_string "/d");
    Create (bytes_of_string "/d/x");
    Create (bytes_of_string "/f");
    Write forged_entry (bytes_of_string "/f");
    Unlink (bytes_of_string "/f/" ++ forged_entry) ].

(** [mkdir /docs], [create /docs/hello.txt]. *)
Definition hello_script : list command :=
  [ Mkdir (bytes_of_string "/docs");
    Create (bytes_of_string "/docs/hello.txt") ].

(** [mkdir /docs], [create /docs/hello.txt], [write Hello /docs/hello.txt]. *)
Definition hello_written_script : list command :=
  hello_script
  ++ [ Write (bytes_of_string "Hello") (bytes_of_string "/docs/hello.txt") ].

(** [mkdir /docs], [create /docs/f], then a write to [/docs/f] of 32 bytes
    [z] followed by [abc].  Read as a directory, the cluster of the file has
    a slot 0 in use under another name and a slot 1 named [abc]. *)
Definition file_as_directory_script : list command :=
  [ Mkdir (bytes_of_string "/docs");
    Create (bytes_of_string "/docs/f");
    Write (repeat 122 32 ++ bytes_of_string "abc") (bytes_of_string "/docs/f") ].

(** A content of 4200 clusters, more than the 4086 of the data area. *)
Definition oversized_content : list Z := repeat 65 (4200 * 1024).

(** A formatted partition whose root directory cluster is filled with the
    byte 65: each of its 32 slots is in use. *)
Definition st_full_root : fs_state :=
  mkState format_fat
    (upd (fun _ => zero_buffer) ROOT_DIR_CLUSTER (fun _ => 65)).

(** Every occupied slot of a directory buffer holds a name that ends
    within its 18-byte field, as [fs_mkdir] and [fs_create] store them. *)
Definition names_terminated (buf : buffer) : Prop :=
  forall s, 0 <= s < DIR_ENTRIES_PER_CLUSTER -> buf (slot_offset s) <> 0 ->
            exists k, 0 <= k < 18 /\ buf (slot_offset s + k) = 0.

(** [fs_mkdir] or [fs_create], by the kind of entry asked for. *)
Definition make (directory : bool) (st : fs_state) (path : list Z)
  : outcome reply :=
  if directory then fs_mkdir st path else fs_create st path.

(** A name of 20 bytes. *)
Definition long_name : list Z := bytes_of_string "LONGNAMELONGNAMELONG".

(** After [free_directory_script], a file [/g] receives the freed cluster 10
    and [long_name] as content, so that the cluster of [/d] starts with the
    20 bytes of [long_name] and a NUL; then [create /d/long_name]. *)
Definition long_name_script : list command :=
  free_directory_script
  ++ [ Create (bytes_of_string "/g");
       Write long_name (bytes_of_string "/g");
       Create (bytes_of_string "/d/" ++ long_name) ].

(** The number of clusters of a file of [n] bytes: a file of size 0 keeps
    its pre-allocated cluster. *)
Definition clusters_for (n : Z) : Z :=
  if n =? 0 then 1 else (n + CLUSTER_SIZE - 1) / CLUSTER_SIZE.

(** The byte at position [p] of a file stored in the chain [cs], and the
    first [n] bytes of the file. *)
Definition file_byte (st : fs_state) (cs : list Z) (p : Z) : Z :=
  partition st (nth (Z.to_nat (p / CLUSTER_SIZE)) cs 0) (p mod CLUSTER_SIZE).

Definition file_bytes (st : fs_state) (cs : list Z) (n : nat) : list Z :=
  map (fun k => file_byte st cs (Z.of_nat k)) (seq 0 n).

(** ** [fs_ls] *)

(** The string that [printf("%s", ...)] prints from offset [off] of a
    cluster buffer: the bytes before the first NUL.  [n] bytes of the buffer
    are left from [off]; a string that is not terminated within them makes
    [printf] read past the buffer. *)
Fixpoint cstring_at (buf : buffer) (n : nat) (off : Z) : outcome (list Z) :=
  match n with
  | O => Undef
  | S n' =>
      if buf off =? 0 then Done []
      else do s <- cstring_at buf n' (off + 1); Done (buf off :: s)
  end.

(** The same for bytes held in a list, with nothing readable behind them. *)
Fixpoint cstring_of (bs : list Z) : outcome (list Z) :=
  match bs with
  | [] => Undef
  | b :: bs' =>
      if b =? 0 then Done [] else do s <- cstring_of bs'; Done (b :: s)
  end.

(** The 32 bytes of a [dir_entry_t] held in memory. *)
Definition entry_bytes (e : dir_entry_t) : list Z :=
  filename e ++ [attributes e] ++ reserved e
  ++ bytes_le16 (first_block e) ++ bytes_le32 (size e).

(** A line of a listing: the type column, the size and the name. *)
Record ls_row : Type := mkRow {
  row_is_dir : bool;
  row_size : Z;
  row_name : list Z
}.

(** What [fs_ls] prints on [stdout]: nothing, the name of a file, or the
    header followed by the rows of a directory. *)
Inductive ls_output : Type :=
| NoListing
| FileName (file_name : list Z)
| Listing (rows : list ls_row).

(** The slot loop of [fs_ls]: [n] slots left from slot [i]. *)
Fixpoint ls_rows (buf : buffer) (n : nat) (i : Z) : outcome (list ls_row) :=
  match n with
  | O => Done []
  | S n' =>
      if negb (buf (slot_offset i) =? 0) then
        do nm <- cstring_at buf (Z.to_nat (CLUSTER_SIZE - slot_offset i))
                            (slot_offset i);
        do more <- ls_rows buf n' (i + 1);
        Done (mkRow (attributes (entry_at buf i) =? ATTR_DIRECTORY)
                    (size (entry_at buf i)) nm :: more)
      else ls_rows buf n' (i + 1)
  end.

(** [fs_ls]: the return code and the listing printed. *)
Definition fs_ls (st : fs_state) (path : list Z) : outcome (Z * ls_output) :=
  do r <- find_entry_by_path st path;
  let result := snd r in
  if negb (fst r =? 0) || negb (found result) then Done (-1, NoListing)
  else if negb (attributes (entry result) =? ATTR_DIRECTORY) then
    do nm <- cstring_of (entry_bytes (entry result));
    Done (0, FileName nm)
  else
    match read_cluster st (entry_cluster result) with
    | None => Done (-1, Listing [])
    | Some cluster_buffer =>
        do rows <- ls_rows cluster_buffer (Z.to_nat DIR_ENTRIES_PER_CLUSTER) 0;
        Done (0, Listing rows)
    end.

(** ** The shell ([main])

    One iteration of the command loop, from the test for the newline to the
    end of the dispatch.  [cmd_line] is the string that [fgets] left in the
    buffer.  [fopen] is taken to succeed whenever it creates the file, so
    the partition file is missing only until the first [init]. *)

Definition SPACE : Z := 32.
Definition QUOTE : Z := 34.
Definition NEWLINE : Z := 10.

Definition is_delim (delims : list Z) (c : Z) : bool := existsb (Z.eqb c) delims.

(** [strtok]: the leading delimiters are skipped; the token runs to the
    next delimiter, which is overwritten, or to the end of the string; the
    scan resumes behind it.  [None] is the [NULL] return. *)
Fixpoint skip_delims (delims s : list Z) : list Z :=
  match s with
  | [] => []
  | c :: s' => if is_delim delims c then skip_delims delims s' else s
  end.

Fixpoint token_of (delims s : list Z) : list Z * list Z :=
  match s with
  | [] => ([], [])
  | c :: s' =>
      if is_delim delims c then ([], s')
      else let '(t, rest) := token_of delims s' in (c :: t, rest)
  end.

Definition strtok (delims s : list Z) : option (list Z * list Z) :=
  match skip_delims delims s with
  | [] => None
  | s1 => Some (token_of delims s1)
  end.

(** The state of the shell between two commands: the partition file is
    missing ([g_partition_file] is [NULL], nothing is loaded), or it is open
    and [fs_loaded] tells whether the FAT was loaded. *)
Inductive shell_state : Type :=
| NoFile (fat : fat_table)
| Opened (fs_loaded : bool) (st : fs_state).

(** What one iteration did. *)
Inductive shell_event : Type :=
| TooLong
| Blank
| Exit
| Formatted
| FormatFailed
| Loaded
| LoadFailed
| NotLoaded
| NotImplemented (word : list Z)
| MissingOperand (word : list Z)
| Usage (word : list Z)
| Listed (path : list Z) (result : Z * ls_output)
| Shown (path : list Z) (result : Z * list Z)
| Ran (c : command) (r : reply).

(** The commands that need a loaded file system. *)
Definition run_loaded (st : fs_state) (word rest : list Z)
  : outcome (shell_state * shell_event) :=
  if list_eqb word (bytes_of_string "ls") then
    let path := match strtok [SPACE] rest with
                | Some (arg1, _) => arg1
                | None => [SLASH]
                end in
    do r <- fs_ls st path; Done (Opened true st, Listed path r)
  else if list_eqb word (bytes_of_string "mkdir") then
    match strtok [SPACE] rest with
    | Some (arg1, _) =>
        do r <- fs_mkdir st arg1; Done (Opened true (after r), Ran (Mkdir arg1) r)
    | None => Done (Opened true st, MissingOperand word)
    end
  else if list_eqb word (bytes_of_string "create") then
    match strtok [SPACE] rest with
    | Some (arg1, _) =>
        do r <- fs_create st arg1;
        Done (Opened true (after r), Ran (Create arg1) r)
    | None => Done (Opened true st, MissingOperand word)
    end
  else if list_eqb word (bytes_of_string "unlink") then
    match strtok [SPACE] rest with
    | Some (arg1, _) =>
        do r <- fs_unlink st arg1;
        Done (Opened true (after r), Ran (Unlink arg1) r)
    | None => Done (Opened true st, MissingOperand word)
    end
  else if list_eqb word (bytes_of_string "read") then
    match strtok [SPACE] rest with
    | Some (arg1, _) =>
        do r <- fs_read st arg1; Done (Opened true st, Shown arg1 r)
    | None => Done (Opened true st, MissingOperand word)
    end
  else if list_eqb word (bytes_of_string "write") then
    match strtok [QUOTE] rest with
    | Some (arg_str, rest2) =>
        match strtok [SPACE] rest2 with
        | Some (arg_path, _) =>
            do r <- fs_write st arg_path arg_str;
            Done (Opened true (after r), Ran (Write arg_str arg_path) r)
        | None => Done (Opened true st, Usage word)
        end
    | None => Done (Opened true st, Usage word)
    end
  else if list_eqb word (bytes_of_string "append") then
    match strtok [QUOTE] rest with
    | Some (arg_str, rest2) =>
        match strtok [SPACE] rest2 with
        | Some (arg_path, _) =>
            do r <- fs_append st arg_path arg_str;
            Done (Opened true (after r), Ran (Append arg_str arg_path) r)
        | None => Done (Opened true st, Usage word)
        end
    | None => Done (Opened true st, Usage word)
    end
  else Done (Opened true st, NotImplemented word).

Definition shell_step (s : shell_state) (cmd_line : list Z)
  : outcome (shell_state * shell_event) :=
  if negb (existsb (Z.eqb NEWLINE) cmd_line) then Done (s, TooLong)
  else
    let line := fst (token_of [NEWLINE] cmd_line) in
    match strtok [SPACE] line with
    | None => Done (s, Blank)
    | Some (word, rest) =>
        if list_eqb word (bytes_of_string "exit") then Done (s, Exit)
        else if list_eqb word (bytes_of_string "init") then
          do r <- fs_format (match s with
                             | NoFile fat => mkState fat (fun _ => zero_buffer)
                             | Opened _ st => st
                             end);
          if code r =? 0 then Done (Opened false (after r), Formatted)
          else Done (Opened (match s with
                             | NoFile _ => false
                             | Opened fs_loaded _ => fs_loaded
                             end) (after r), FormatFailed)
        else if list_eqb word (bytes_of_string "load") then
          match s with
          | NoFile _ => Done (s, LoadFailed)
          | Opened _ st => Done (Opened true (after (fs_load_fat st)), Loaded)
          end
        else
          match s with
          | Opened true st => run_loaded st word rest
          | _ => Done (s, NotLoaded)
          end
    end.

(** * Properties *)

(** ** Basic facts about maps and buffers *)

Lemma upd_same {A : Type} (f : Z -> A) i v : upd f i v i = v.
Proof. unfold upd. now rewrite Z.eqb_refl. Qed.

Lemma upd_other {A : Type} (f : Z -> A) i j v : j <> i -> upd f i v j = f j.
Proof. intros H. unfold upd. destruct (Z.eqb_spec j i); congruence. Qed.

Lemma in_table_iff i : in_table i = true <-> 0 <= i < CLUSTER_COUNT.
Proof. unfold in_table. rewrite andb_true_iff, Z.leb_le, Z.ltb_lt. tauto. Qed.

Lemma in_table_indices i : in_table i = true -> In i table_indices.
Proof.
  intros H. apply in_table_iff in H. unfold CLUSTER_COUNT in H.
  unfold table_indices. apply in_map_iff. exists (Z.to_nat i). split.
  - lia.
  - apply in_seq. lia.
Qed.

(** ** [free_cluster_chain] *)

Lemma chain_continues_false current :
  chain_continues current = false <-> current = 0 \/ FAT_ENTRY_EOF <= current.
Proof.
  unfold chain_continues. rewrite andb_false_iff, negb_false_iff.
  rewrite Z.eqb_eq, Z.ltb_ge. tauto.
Qed.

Lemma filter_length_le (f g : Z -> bool) l :
  (forall x, g x = true -> f x = true) ->
  (length (filter g l) <= length (filter f l))%nat.
Proof.
  intros Hfg. induction l as [|x l IH]; simpl; [lia|].
  destruct (g x) eqn:Hg.
  - rewrite (Hfg _ Hg). simpl. lia.
  - destruct (f x); simpl; lia.
Qed.

Lemma filter_length_lt (f g : Z -> bool) l c :
  (forall x, g x = true -> f x = true) ->
  In c l -> f c = true -> g c = false ->
  (length (filter g l) < length (filter f l))%nat.
Proof.
  intros Hfg. induction l as [|x l IH]; simpl; [tauto|].
  intros [->|Hin] Hf Hg.
  - rewrite Hf, Hg. simpl. pose proof (filter_length_le f g l Hfg). lia.
  - specialize (IH Hin Hf Hg). destruct (g x) eqn:Hgx.
    + rewrite (Hfg _ Hgx). simpl. lia.
    + destruct (f x); simpl; lia.
Qed.

Lemma used_entries_bound fat : (used_entries fat <= 4096)%nat.
Proof.
  unfold used_entries.
  etransitivity; [apply filter_length_le with (f := fun _ => true); auto|].
  rewrite forallb_filter_id.
  - unfold table_indices. rewrite length_map, length_seq. apply Nat.le_refl.
  - apply forallb_forall. auto.
Qed.

Lemma used_entries_upd_free_le fat c :
  (used_entries (upd fat c FAT_ENTRY_FREE) <= used_entries fat)%nat.
Proof.
  unfold used_entries. apply filter_length_le. intros x. unfold upd.
  destruct (Z.eqb_spec x c); auto. discriminate.
Qed.

Lemma used_entries_upd_free_lt fat c :
  in_table c = true -> fat c <> FAT_ENTRY_FREE ->
  (used_entries (upd fat c FAT_ENTRY_FREE) < used_entries fat)%nat.
Proof.
  intros Hin Hc. unfold used_entries. apply filter_length_lt with (c := c).
  - intros x. unfold upd. destruct (Z.eqb_spec x c); auto. discriminate.
  - now apply in_table_indices.
  - apply negb_true_iff. now apply Z.eqb_neq.
  - now rewrite upd_same.
Qed.

(** With fuel above the number of non-free entries the loop ends, and its
    result does not depend on the fuel. *)
Lemma free_chain_loop_fuel n m fat current :
  (used_entries fat + 2 <= n)%nat -> (used_entries fat + 2 <= m)%nat ->
  free_chain_loop n fat current = free_chain_loop m fat current
  /\ free_chain_loop n fat current <> Hang.
Proof.
  revert m fat current. induction n as [|n IH]; intros m fat current Hn Hm; [lia|].
  destruct m as [|m]; [lia|]. simpl.
  destruct (chain_continues current) eqn:Hc; [|split; congruence].
  destruct (in_table current) eqn:Hin; [|split; congruence].
  destruct (Z.eq_dec (fat current) FAT_ENTRY_FREE) as [Hz|Hz].
  - rewrite Hz. destruct n, m; simpl; split; congruence.
  - pose proof (used_entries_upd_free_lt fat current Hin Hz).
    apply IH; lia.
Qed.

Lemma free_chain_loop_S n fat current :
  free_chain_loop (S n) fat current =
  if chain_continues current then
    if in_table current
    then free_chain_loop n (upd fat current FAT_ENTRY_FREE) (fat current)
    else Undef
  else Done fat.
Proof. reflexivity. Qed.

Lemma chain_fuel_S : chain_fuel = S (Nat.pred chain_fuel).
Proof. reflexivity. Qed.

Lemma chain_fuel_enough fat : (used_entries fat + 2 <= chain_fuel)%nat.
Proof.
  pose proof (used_entries_bound fat) as H.
  replace chain_fuel with (4096 + 2)%nat by reflexivity.
  apply Nat.add_le_mono_r. exact H.
Qed.

Lemma free_cluster_chain_total fat current :
  free_cluster_chain fat current <> Hang.
Proof.
  unfold free_cluster_chain.
  apply (free_chain_loop_fuel chain_fuel chain_fuel); apply chain_fuel_enough.
Qed.

Lemma free_cluster_chain_stop fat current :
  chain_continues current = false -> free_cluster_chain fat current = Done fat.
Proof.
  intros H. unfold free_cluster_chain. rewrite chain_fuel_S, free_chain_loop_S.
  now rewrite H.
Qed.

Lemma free_cluster_chain_step fat current :
  chain_continues current = true -> in_table current = true ->
  free_cluster_chain fat current =
  free_cluster_chain (upd fat current FAT_ENTRY_FREE) (fat current).
Proof.
  intros Hc Hin. unfold free_cluster_chain.
  rewrite chain_fuel_S at 1. rewrite free_chain_loop_S, Hc, Hin.
  destruct (Z.eq_dec (fat current) FAT_ENTRY_FREE) as [Hz|Hz].
  - rewrite Hz. rewrite chain_fuel_S at 2.
    destruct (Nat.pred chain_fuel); rewrite ?free_chain_loop_S; reflexivity.
  - pose proof (used_entries_upd_free_lt fat current Hin Hz) as Hlt.
    pose proof (chain_fuel_enough fat) as Hen.
    apply free_chain_loop_fuel.
    + rewrite chain_fuel_S in Hen. apply Nat.succ_le_mono.
      eapply Nat.le_trans; [|exact Hen].
      rewrite <- Nat.add_succ_l. apply Nat.add_le_mono_r. exact Hlt.
    + eapply Nat.le_trans; [|exact Hen].
      apply Nat.add_le_mono_r. apply Nat.lt_le_incl. exact Hlt.
Qed.

Lemma free_cluster_chain_out fat current :
  chain_continues current = true -> in_table current = false ->
  free_cluster_chain fat current = Undef.
Proof.
  intros Hc Hin. unfold free_cluster_chain.
  rewrite chain_fuel_S, free_chain_loop_S. now rewrite Hc, Hin.
Qed.

(** C5, as stated, fails: with the boot marker 0xFFFD in the entry of the
    data cluster 10, the walk from 10 frees entry 10 and then does not stop
    at 0xFFFD: the guard still holds and the table is indexed at 0xFFFD. *)
Lemma free_chain_does_not_stop_at_boot_marker :
  DATA_CLUSTER_START <= 10 < CLUSTER_COUNT
  /\ FAT_ENTRY_BOOT <= fat_boot_link 10
  /\ chain_continues (fat_boot_link 10) = true
  /\ free_cluster_chain fat_boot_link 10 = Undef.
Proof.
  repeat split; vm_compute; congruence.
Qed.

(** C5 (amended): from a head in the data area [free_cluster_chain] writes
    Free at the head and follows the value read there; at every later value
    [current] it stops exactly when [current] is 0 or at least 0xFFFF,
    writes Free at [current] and follows its entry when [current] indexes
    the table, and leaves the table (undefined behaviour) for every other
    value, 0xFFFD and 0xFFFE included.  The walk always ends. *)
Theorem free_cluster_chain_walk (fat : fat_table) (head : Z) :
  DATA_CLUSTER_START <= head < CLUSTER_COUNT ->
  free_cluster_chain fat head =
    free_cluster_chain (upd fat head FAT_ENTRY_FREE) (fat head)
  /\ free_cluster_chain fat head <> Hang
  /\ (forall fat' current,
        current = 0 \/ FAT_ENTRY_EOF <= current ->
        free_cluster_chain fat' current = Done fat')
  /\ (forall fat' current,
        current <> 0 -> 0 <= current < CLUSTER_COUNT ->
        free_cluster_chain fat' current =
          free_cluster_chain (upd fat' current FAT_ENTRY_FREE) (fat' current))
  /\ (forall fat' current,
        CLUSTER_COUNT <= current < FAT_ENTRY_EOF ->
        free_cluster_chain fat' current = Undef).
Proof.
  intros Hhead. unfold DATA_CLUSTER_START, CLUSTER_COUNT, FAT_ENTRY_EOF in *.
  assert (Hstep : forall fat' current,
             current <> 0 -> 0 <= current < 4096 ->
             free_cluster_chain fat' current =
             free_cluster_chain (upd fat' current FAT_ENTRY_FREE) (fat' current)).
  { intros fat' current Hnz Hr. apply free_cluster_chain_step.
    - unfold chain_continues, FAT_ENTRY_EOF.
      apply andb_true_iff. split.
      + apply negb_true_iff. now apply Z.eqb_neq.
      + apply Z.ltb_lt. lia.
    - apply in_table_iff. unfold CLUSTER_COUNT. lia. }
  split; [apply Hstep; lia|].
  split; [apply free_cluster_chain_total|].
  split; [|split; [exact Hstep|]].
  - intros fat' current H. apply free_cluster_chain_stop.
    apply chain_continues_false. exact H.
  - intros fat' current H. apply free_cluster_chain_out.
    + unfold chain_continues, FAT_ENTRY_EOF.
      apply andb_true_iff. split.
      * apply negb_true_iff. apply Z.eqb_neq. lia.
      * apply Z.ltb_lt. lia.
    + unfold in_table, CLUSTER_COUNT. apply andb_false_iff. right.
      apply Z.ltb_ge. lia.
Qed.

Lemma free_cluster_chain_walk_witness :
  free_cluster_chain format_fat 10 =
    free_cluster_chain (upd format_fat 10 FAT_ENTRY_FREE) (format_fat 10).
Proof.
  refine (proj1 (free_cluster_chain_walk format_fat 10 _)).
  unfold DATA_CLUSTER_START, CLUSTER_COUNT. lia.
Defined.

(** ** The path resolver *)

Lemma last_cons {A : Type} (a : A) l d : last (a :: l) d = last l a.
Proof.
  revert a d. induction l as [|b l IH]; intros a d; [reflexivity|].
  change (last (a :: b :: l) d) with (last (b :: l) d).
  rewrite (IH b d), (IH b a). reflexivity.
Qed.

Lemma resolve_loop_cons st token rest current result :
  resolve_loop st (token :: rest) current result =
  let result1 :=
    mkResult (strncpy17 token) (found result) (parent_cluster result)
             (entry_cluster result) (entry_index result) (entry result) in
  match read_cluster st current with
  | None => Done (-1, result1)
  | Some cluster_buffer =>
      do hit <- scan_dir cluster_buffer token (Z.to_nat DIR_ENTRIES_PER_CLUSTER) 0;
      match hit with
      | Some i =>
          let e := entry_at cluster_buffer i in
          resolve_loop st rest (first_block e)
            (mkResult (name result1) (found result1) current (first_block e) i e)
      | None =>
          Done (0, mkResult (name result1) false (parent_cluster result1)
                            (entry_cluster result1) (entry_index result1)
                            (entry result1))
      end
  end.
Proof. reflexivity. Qed.

Lemma resolve_trace_cons st token rest current :
  resolve_trace st (token :: rest) current =
  current ::
  match read_cluster st current with
  | None => []
  | Some cluster_buffer =>
      match scan_dir cluster_buffer token (Z.to_nat DIR_ENTRIES_PER_CLUSTER) 0 with
      | Done (Some i) =>
          resolve_trace st rest (first_block (entry_at cluster_buffer i))
      | _ => []
      end
  end.
Proof. reflexivity. Qed.

Lemma resolve_trace_head st token rest current :
  exists tl, resolve_trace st (token :: rest) current = current :: tl.
Proof. rewrite resolve_trace_cons. eauto. Qed.

(** A failing walk leaves [parent_cluster] at the cluster holding the last
    matched entry, one step behind the cluster searched last. *)
Lemma resolve_loop_not_found st tokens :
  forall current result r,
    resolve_loop st tokens current result = Done (0, r) ->
    found r = false ->
    exists before searched_last,
      resolve_trace st tokens current = before ++ [searched_last]
      /\ parent_cluster r = last before (parent_cluster result)
      /\ entry_cluster r =
           match before with [] => entry_cluster result | _ => searched_last end.
Proof.
  induction tokens as [|token rest IH]; intros current result r Hres Hnf.
  - cbn [resolve_loop] in Hres. inversion Hres; subst r. discriminate.
  - rewrite resolve_loop_cons in Hres. cbv zeta in Hres.
    rewrite resolve_trace_cons.
    destruct (read_cluster st current) as [buf|]; [|discriminate].
    destruct (scan_dir buf token (Z.to_nat DIR_ENTRIES_PER_CLUSTER) 0)
      as [[i|]| |] eqn:Hscan; cbn [bind] in Hres; try discriminate.
    + destruct (IH _ _ _ Hres Hnf) as (before & sl & Htr & Hp & He).
      exists (current :: before), sl. rewrite Htr. split; [reflexivity|].
      split.
      * rewrite last_cons. exact Hp.
      * rewrite He. destruct before as [|b before]; [|reflexivity].
        destruct rest as [|t2 rest].
        -- cbn [resolve_loop] in Hres. inversion Hres; subst r. discriminate.
        -- destruct (resolve_trace_head st t2 rest
                       (first_block (entry_at buf i))) as [tl Htl].
           rewrite Htl in Htr. cbn [app] in Htr. inversion Htr. reflexivity.
    + inversion Hres; subst r. exists [], current. cbn. auto.
Qed.




(** ** [fs_mkdir] and [fs_unlink] on the root path *)

(** C7: on a freshly formatted and loaded partition [mkdir /] returns 0
    with no diagnostic: it marks the free cluster 10 end-of-chain and writes
    attribute 1 and first cluster 10 into slot 0 of the root, whose name
    stays empty. *)
Theorem mkdir_root_allocates :
  observe (fun r => g_fat_table (after r) 10) fresh = Done FAT_ENTRY_FREE
  /\ observe (fun r => (code r, msg r, g_fat_table (after r) 10,
                        entry_at (partition (after r) ROOT_DIR_CLUSTER) 0))
             run_mkdir_root
     = Done (0, Quiet, FAT_ENTRY_EOF,
             mkEntry (repeat 0 18) ATTR_DIRECTORY (repeat 0 7) 10 0).
Proof. split; vm_compute; reflexivity. Qed.

(** C2: [format] and [load] give FAT[0] = 0xFFFD, FAT[1..8] = 0xFFFE and
    FAT[9] = 0xFFFF, but three successful operations later entry 0 is
    reassigned: the append to [/f/abc] walks from first cluster 0, fills the
    boot cluster and links FAT[0] to the new cluster 11. *)
Theorem system_region_reassigned_by_append :
  observe (fun r => map (g_fat_table (after r)) [0; 1; 2; 3; 4; 5; 6; 7; 8; 9])
          fresh
    = Done [0xFFFD; 0xFFFE; 0xFFFE; 0xFFFE; 0xFFFE; 0xFFFE; 0xFFFE; 0xFFFE;
            0xFFFE; 0xFFFF]
  /\ observe code run_file_abc = Done 0
  /\ observe (fun r => (code r, g_fat_table (after r) 0)) run_append_through_file
     = Done (0, 11).
Proof. repeat split; vm_compute; reflexivity. Qed.


(** ** Persisting the FAT *)

Lemma write_cluster_in st c buf :
  in_table c = true ->
  write_cluster st c buf =
  Some (mkState (g_fat_table st) (upd (partition st) c buf)).
Proof. intros H. unfold write_cluster. now rewrite H. Qed.

Lemma persist_loop_spec n : forall st i,
  0 <= i -> i + Z.of_nat n <= FAT_CLUSTER_COUNT ->
  exists st',
    persist_loop st n i = Some st'
    /\ g_fat_table st' = g_fat_table st
    /\ forall c,
         partition st' c =
         if (FAT_CLUSTER_START + i <=? c) && (c <? FAT_CLUSTER_START + i + Z.of_nat n)
         then fat_bytes (g_fat_table st) (c - FAT_CLUSTER_START)
         else partition st c.
Proof.
  unfold FAT_CLUSTER_COUNT, FAT_CLUSTER_START.
  induction n as [|n IH]; intros st i Hi Hn.
  - exists st. cbn [persist_loop]. repeat split. intros c.
    destruct (Z.leb_spec (1 + i) c), (Z.ltb_spec c (1 + i + Z.of_nat 0));
      cbn [andb]; try reflexivity; lia.
  - cbn [persist_loop]. unfold FAT_CLUSTER_START.
    rewrite write_cluster_in
      by (apply in_table_iff; unfold CLUSTER_COUNT; lia).
    destruct (IH (mkState (g_fat_table st)
                    (upd (partition st) (1 + i)
                         (fat_bytes (g_fat_table st) i))) (i + 1))
      as (st' & Hp & Hf & Hc); [lia|lia|].
    exists st'. split; [exact Hp|]. split; [exact Hf|].
    intros c. rewrite Hc. cbn [g_fat_table partition].
    destruct (Z.eq_dec c (1 + i)) as [->|Hne].
    + rewrite upd_same.
      replace (1 + (i + 1) <=? 1 + i) with false by (symmetry; apply Z.leb_gt; lia).
      replace (1 + i <=? 1 + i) with true by (symmetry; apply Z.leb_le; lia).
      replace (1 + i <? 1 + i + Z.of_nat (S n)) with true
        by (symmetry; apply Z.ltb_lt; lia).
      cbn [andb]. f_equal. lia.
    + rewrite upd_other by exact Hne.
      replace (1 + (i + 1) + Z.of_nat n) with (1 + i + Z.of_nat (S n)) by lia.
      destruct (Z.leb_spec (1 + (i + 1)) c), (Z.leb_spec (1 + i) c);
        try reflexivity; lia.
Qed.

Lemma persist_fat_spec st :
  exists st',
    persist_fat st = Some st'
    /\ g_fat_table st' = g_fat_table st
    /\ forall c,
         partition st' c =
         if fat_region c
         then fat_bytes (g_fat_table st) (c - FAT_CLUSTER_START)
         else partition st c.
Proof.
  unfold persist_fat.
  destruct (persist_loop_spec (Z.to_nat FAT_CLUSTER_COUNT) st 0)
    as (st' & Hp & Hf & Hc).
  - lia.
  - unfold FAT_CLUSTER_COUNT. lia.
  - exists st'. split; [exact Hp|]. split; [exact Hf|]. exact Hc.
Qed.

Lemma persist_and_return_spec st :
  exists st',
    persist_and_return st = Done (mkReply 0 Quiet st')
    /\ g_fat_table st' = g_fat_table st
    /\ forall c,
         partition st' c =
         if fat_region c
         then fat_bytes (g_fat_table st) (c - FAT_CLUSTER_START)
         else partition st c.
Proof.
  destruct (persist_fat_spec st) as (st' & Hp & Hf & Hc).
  exists st'. unfold persist_and_return. rewrite Hp. auto.
Qed.

(** ** [fs_unlink] on ["/"] *)

Lemma find_entry_by_path_root st :
  find_entry_by_path st [SLASH] = Done (0, root_result).
Proof. reflexivity. Qed.

Lemma fs_unlink_root_eq st :
  fs_unlink st [SLASH] =
  if has_entry (partition st ROOT_DIR_CLUSTER)
               (Z.to_nat DIR_ENTRIES_PER_CLUSTER) 0
  then fail DirectoryNotEmpty st
  else persist_and_return
         (mkState (g_fat_table st)
            (upd (partition st) ROOT_DIR_CLUSTER
               (poke (partition st ROOT_DIR_CLUSTER) 0
                     (repeat 0 (Z.to_nat DIR_ENTRY_SIZE))))).
Proof.
  unfold fs_unlink. rewrite find_entry_by_path_root. cbn [bind fst snd].
  change (negb (0 =? 0) || negb (found root_result)) with false. cbv iota.
  change (attributes (entry root_result) =? ATTR_DIRECTORY) with true. cbv iota.
  change (read_cluster st (entry_cluster root_result))
    with (Some (partition st ROOT_DIR_CLUSTER)).
  cbv iota beta.
  destruct (has_entry (partition st ROOT_DIR_CLUSTER)
              (Z.to_nat DIR_ENTRIES_PER_CLUSTER) 0); [reflexivity|].
  change (first_block (entry root_result)) with 0.
  rewrite free_cluster_chain_stop by reflexivity. cbn [bind].
  reflexivity.
Qed.

Lemma has_entry_true buf n : forall i k,
  i <= k < i + Z.of_nat n -> buf (slot_offset k) <> 0 ->
  has_entry buf n i = true.
Proof.
  induction n as [|n IH]; intros i k Hk Hb; [lia|].
  cbn [has_entry]. destruct (Z.eq_dec k i) as [->|Hne].
  - apply orb_true_iff. left. apply negb_true_iff. now apply Z.eqb_neq.
  - apply orb_true_iff. right. apply (IH (i + 1) k); [lia|exact Hb].
Qed.

Lemma has_entry_false_head buf n i :
  has_entry buf (S n) i = false -> buf (slot_offset i) = 0.
Proof.
  cbn [has_entry]. intros H. apply orb_false_iff in H. destruct H as [H _].
  apply negb_false_iff in H. now apply Z.eqb_eq.
Qed.


(** ** The allocator *)

Lemma find_free_from_spec fat n : forall i,
  0 < i ->
  let c := find_free_from fat n i in
  (c = 0 /\ forall j, i <= j < i + Z.of_nat n -> fat j <> FAT_ENTRY_FREE)
  \/ (i <= c < i + Z.of_nat n /\ fat c = FAT_ENTRY_FREE
      /\ forall j, i <= j < c -> fat j <> FAT_ENTRY_FREE).
Proof.
  induction n as [|n IH]; intros i Hi; cbn [find_free_from].
  - left. split; [reflexivity|]. intros j Hj. lia.
  - destruct (Z.eqb_spec (fat i) FAT_ENTRY_FREE) as [Hz|Hz].
    + right. split; [lia|]. split; [exact Hz|]. intros j Hj. lia.
    + destruct (IH (i + 1)) as [[H0 Hall]|(Hr & Hf & Hall)]; [lia| |].
      * left. split; [exact H0|]. intros j Hj.
        destruct (Z.eq_dec j i) as [->|Hne]; [exact Hz|]. apply Hall. lia.
      * right. split; [lia|]. split; [exact Hf|]. intros j Hj.
        destruct (Z.eq_dec j i) as [->|Hne]; [exact Hz|]. apply Hall. lia.
Qed.

Lemma find_free_cluster_spec fat :
  (find_free_cluster fat = 0
   /\ forall j, data_cluster j -> fat j <> FAT_ENTRY_FREE)
  \/ (data_cluster (find_free_cluster fat)
      /\ fat (find_free_cluster fat) = FAT_ENTRY_FREE).
Proof.
  unfold find_free_cluster, data_cluster.
  destruct (find_free_from_spec fat
              (Z.to_nat (CLUSTER_COUNT - DATA_CLUSTER_START))
              DATA_CLUSTER_START) as [[H0 Hall]|(Hr & Hf & _)].
  - unfold DATA_CLUSTER_START. lia.
  - left. split; [exact H0|]. intros j Hj. apply Hall.
    unfold CLUSTER_COUNT, DATA_CLUSTER_START in *. lia.
  - right. split; [|exact Hf].
    unfold CLUSTER_COUNT, DATA_CLUSTER_START in *. lia.
Qed.

Lemma data_cluster_in_table c : data_cluster c -> in_table c = true.
Proof.
  unfold data_cluster, DATA_CLUSTER_START. intros H. apply in_table_iff. lia.
Qed.

Lemma data_cluster_continues c : data_cluster c -> chain_continues c = true.
Proof.
  unfold data_cluster, DATA_CLUSTER_START, CLUSTER_COUNT, chain_continues,
    FAT_ENTRY_EOF.
  intros H. apply andb_true_iff. split.
  - apply negb_true_iff. apply Z.eqb_neq. lia.
  - apply Z.ltb_lt. lia.
Qed.

(** ** Chains *)

Lemma chain_at_upd_other fat cs v c x :
  ~ In c cs -> chain_at fat cs v -> chain_at (upd fat c x) cs v.
Proof.
  induction cs as [|a cs IH]; intros Hnin H; [exact I|].
  cbn [chain_at] in *. destruct H as (Hc & Hi & Hl & Hrest).
  split; [exact Hc|]. split; [exact Hi|]. split.
  - rewrite upd_other; [exact Hl|]. intros ->. apply Hnin. now left.
  - apply IH; [|exact Hrest]. intros Hin. apply Hnin. now right.
Qed.

Lemma chain_at_nonzero fat cs v c :
  chain_at fat cs v -> v <> 0 -> In c cs -> fat c <> 0.
Proof.
  induction cs as [|a cs IH]; intros H Hv Hin; [destruct Hin|].
  cbn [chain_at] in H. destruct H as (Hc & Hi & Hl & Hrest).
  destruct Hin as [->|Hin]; [|now apply IH].
  rewrite Hl. destruct cs as [|b cs]; [exact Hv|].
  cbn [chain_at] in Hrest. destruct Hrest as (Hb & _).
  unfold chain_continues in Hb. apply andb_true_iff in Hb.
  destruct Hb as [Hb _]. apply negb_true_iff in Hb. now apply Z.eqb_neq.
Qed.

Lemma chain_at_cons2 fat a b l v :
  chain_at fat (a :: b :: l) v <->
  chain_continues a = true /\ in_table a = true /\ fat a = b
  /\ chain_at fat (b :: l) v.
Proof. reflexivity. Qed.

Lemma last_in {A : Type} (l : list A) d : l <> [] -> In (last l d) l.
Proof.
  intros H. destruct (@exists_last _ l H) as (l' & x & ->).
  rewrite last_last. apply in_or_app. right. now left.
Qed.

(** Appending a freshly allocated cluster to a chain that ends in
    end-of-chain, as one iteration of [fs_write] or [fs_append] does. *)
Lemma chain_at_snoc fat cs c :
  cs <> [] -> NoDup cs -> ~ In c cs -> data_cluster c ->
  chain_at fat cs FAT_ENTRY_EOF ->
  chain_at (upd (upd fat (last cs 0) c) c FAT_ENTRY_EOF) (cs ++ [c]) FAT_ENTRY_EOF.
Proof.
  intros Hne Hnd Hnin Hdc. induction cs as [|a cs IH]; [congruence|].
  intros H. destruct cs as [|b cs].
  - cbn [chain_at] in H. destruct H as (Hc & Hi & Hl & Hrest).
    cbn [last app chain_at]. split; [exact Hc|]. split; [exact Hi|]. split.
    + rewrite upd_other, upd_same; [reflexivity|].
      intros ->. apply Hnin. now left.
    + split; [now apply data_cluster_continues|].
      split; [now apply data_cluster_in_table|]. split; [|exact I].
      apply upd_same.
  - apply chain_at_cons2 in H. destruct H as (Hc & Hi & Hl & Hrest).
    apply NoDup_cons_iff in Hnd. destruct Hnd as [Ha Hnd'].
    change (last (a :: b :: cs) 0) with (last (b :: cs) 0).
    change ((a :: b :: cs) ++ [c]) with (a :: b :: (cs ++ [c])).
    apply chain_at_cons2. split; [exact Hc|]. split; [exact Hi|]. split.
    + rewrite !upd_other; [exact Hl| |].
      * intros Heq. apply Ha. rewrite Heq. apply last_in. discriminate.
      * intros ->. apply Hnin. now left.
    + apply IH; [discriminate|exact Hnd'| |exact Hrest].
      intros Hin. apply Hnin. now right.
Qed.

Lemma free_chain_loop_clears n : forall fat current fat',
  free_chain_loop n fat current = Done fat' ->
  forall c, fat' c = fat c \/ fat' c = FAT_ENTRY_FREE.
Proof.
  induction n as [|n IH]; intros fat current fat' H c.
  - cbn [free_chain_loop] in H.
    destruct (chain_continues current); [discriminate|].
    inversion H; subst. now left.
  - rewrite free_chain_loop_S in H.
    destruct (chain_continues current); [|inversion H; subst; now left].
    destruct (in_table current); [|discriminate].
    destruct (IH _ _ _ H c) as [Heq|Hz]; [|now right].
    rewrite Heq. unfold upd. destruct (c =? current); [now right|now left].
Qed.

Lemma free_cluster_chain_clears fat current fat' :
  free_cluster_chain fat current = Done fat' ->
  forall c, fat' c = fat c \/ fat' c = FAT_ENTRY_FREE.
Proof. apply free_chain_loop_clears. Qed.

(** Freeing from the head of a chain clears exactly the chain. *)
Lemma free_cluster_chain_of_chain cs : forall fat end_value,
  cs <> [] -> NoDup cs -> chain_at fat cs end_value ->
  chain_continues end_value = false ->
  exists fat',
    free_cluster_chain fat (hd 0 cs) = Done fat'
    /\ (forall c, In c cs -> fat' c = FAT_ENTRY_FREE)
    /\ (forall c, ~ In c cs -> fat' c = fat c).
Proof.
  induction cs as [|a cs IH]; intros fat v Hne Hnd Hch Hend; [congruence|].
  apply NoDup_cons_iff in Hnd. destruct Hnd as [Ha Hnd].
  cbn [hd]. destruct cs as [|b cs].
  - cbn [chain_at] in Hch. destruct Hch as (Hc & Hi & Hl & _).
    rewrite free_cluster_chain_step by assumption.
    rewrite Hl, free_cluster_chain_stop by exact Hend.
    exists (upd fat a FAT_ENTRY_FREE). split; [reflexivity|]. split.
    + intros c [->|[]]. apply upd_same.
    + intros c Hc'. apply upd_other. intros ->. apply Hc'. now left.
  - apply chain_at_cons2 in Hch. destruct Hch as (Hc & Hi & Hl & Hrest).
    rewrite free_cluster_chain_step by assumption. rewrite Hl.
    destruct (IH (upd fat a FAT_ENTRY_FREE) v) as (fat' & Hf & Hin & Hout);
      [discriminate|exact Hnd| |exact Hend|].
    { apply chain_at_upd_other; assumption. }
    exists fat'. split; [exact Hf|]. split.
    + intros c [->|Hc'].
      * rewrite Hout by exact Ha. apply upd_same.
      * now apply Hin.
    + intros c Hc'. rewrite Hout.
      * apply upd_other. intros ->. apply Hc'. now left.
      * intros Hin'. apply Hc'. now right.
Qed.

(** ** The allocation loop of [fs_write] *)

Lemma write_loop_cons st slice rest current first :
  write_loop st (slice :: rest) current first =
  let next_cluster := find_free_cluster (g_fat_table st) in
  if next_cluster =? 0 then
    (do fat' <- free_cluster_chain (g_fat_table st) first;
     Done (-1, first, mkState fat' (partition st)))
  else
    let st1 := if first =? 0 then st else set_fat st current next_cluster in
    let first_cluster := if first =? 0 then next_cluster else first in
    let st2 := set_fat st1 next_cluster FAT_ENTRY_EOF in
    match write_cluster st2 next_cluster (poke zero_buffer 0 slice) with
    | None => Done (-2, first_cluster, st2)
    | Some st3 => write_loop st3 rest next_cluster first_cluster
    end.
Proof. reflexivity. Qed.

Lemma write_loop_full st slice rest current first :
  find_free_cluster (g_fat_table st) = 0 ->
  write_loop st (slice :: rest) current first =
  (do fat' <- free_cluster_chain (g_fat_table st) first;
   Done (-1, first, mkState fat' (partition st))).
Proof. intros H. rewrite write_loop_cons. cbv zeta. now rewrite H. Qed.

Lemma write_loop_alloc st slice rest current first :
  find_free_cluster (g_fat_table st) <> 0 ->
  write_loop st (slice :: rest) current first =
  match write_cluster
          (set_fat (if first =? 0 then st
                    else set_fat st current (find_free_cluster (g_fat_table st)))
                   (find_free_cluster (g_fat_table st)) FAT_ENTRY_EOF)
          (find_free_cluster (g_fat_table st)) (poke zero_buffer 0 slice) with
  | None =>
      Done (-2, if first =? 0 then find_free_cluster (g_fat_table st) else first,
            set_fat (if first =? 0 then st
                     else set_fat st current (find_free_cluster (g_fat_table st)))
                    (find_free_cluster (g_fat_table st)) FAT_ENTRY_EOF)
  | Some st3 =>
      write_loop st3 rest (find_free_cluster (g_fat_table st))
                 (if first =? 0 then find_free_cluster (g_fat_table st) else first)
  end.
Proof.
  intros H. rewrite write_loop_cons. cbv zeta.
  destruct (Z.eqb_spec (find_free_cluster (g_fat_table st)) 0); [contradiction|].
  reflexivity.
Qed.

(** One successful iteration: the state after it, with the chain [done]
    extended by the new cluster. *)
Lemma write_iteration st done current first slice :
  (done = [] -> first = 0) ->
  (done <> [] -> first = hd 0 done /\ current = last done 0) ->
  NoDup done -> (forall c, In c done -> data_cluster c) ->
  chain_at (g_fat_table st) done FAT_ENTRY_EOF ->
  let next := find_free_cluster (g_fat_table st) in
  data_cluster next -> g_fat_table st next = FAT_ENTRY_FREE ->
  exists st3,
    write_cluster
      (set_fat (if first =? 0 then st else set_fat st current next)
               next FAT_ENTRY_EOF)
      next (poke zero_buffer 0 slice) = Some st3
    /\ partition st3 = upd (partition st) next (poke zero_buffer 0 slice)
    /\ (if first =? 0 then next else first) = hd 0 (done ++ [next])
    /\ next = last (done ++ [next]) 0
    /\ NoDup (done ++ [next])
    /\ chain_at (g_fat_table st3) (done ++ [next]) FAT_ENTRY_EOF
    /\ g_fat_table st3 next = FAT_ENTRY_EOF
    /\ (forall c, c <> next -> ~ In c done -> g_fat_table st3 c = g_fat_table st c)
    /\ (forall c, In c done -> g_fat_table st3 c <> 0).
Proof.
  intros Hnil Hcons Hnd Hdata Hch next Hdc Hfree.
  assert (Hnin : ~ In next done).
  { intros Hin. apply (chain_at_nonzero _ _ _ _ Hch) in Hin; [|discriminate].
    apply Hin. exact Hfree. }
  rewrite write_cluster_in by (now apply data_cluster_in_table).
  eexists. split; [reflexivity|].
  assert (Hnd' : NoDup (done ++ [next])).
  { apply NoDup_app; [exact Hnd|repeat constructor; intros []|].
    intros x Hx [<-|[]]. now apply Hnin. }
  destruct done as [|a done'].
  - rewrite (Hnil eq_refl). cbn [Z.eqb app hd last partition set_fat g_fat_table].
    repeat split; try reflexivity.
    + exact Hnd'.
    + now apply data_cluster_continues.
    + now apply data_cluster_in_table.
    + apply upd_same.
    + apply upd_same.
    + intros c Hc _. now apply upd_other.
    + intros c [].
  - assert (Hne : a :: done' <> []) by discriminate.
    destruct (Hcons Hne) as [Hfirst Hcur].
    assert (Hf0 : (first =? 0) = false).
    { apply Z.eqb_neq. rewrite Hfirst. cbn [hd].
      specialize (Hdata a (or_introl eq_refl)).
      unfold data_cluster, DATA_CLUSTER_START in Hdata. lia. }
    rewrite Hf0. cbn [partition set_fat g_fat_table].
    split; [reflexivity|]. split; [exact Hfirst|].
    split; [now rewrite last_last|]. split; [exact Hnd'|].
    split; [|split; [apply upd_same|split]].
    + rewrite Hcur. apply chain_at_snoc; assumption.
    + intros c Hc Hin. rewrite upd_other by exact Hc. apply upd_other.
      intros ->. apply Hin. rewrite Hcur. apply last_in. discriminate.
    + intros c Hin. rewrite upd_other by (intros ->; now apply Hnin).
      unfold upd. destruct (c =? current).
      * unfold data_cluster, DATA_CLUSTER_START in Hdc. lia.
      * apply (chain_at_nonzero _ _ _ _ Hch); [discriminate|exact Hin].
Qed.

(** What the loop leaves behind, for a chain [done] already built: the
    clusters [more] it allocated, each holding its slice on disk, linked
    after [done] on success and all freed on failure. *)
Lemma write_loop_gen slices : forall st done current first rc first' st',
  (done = [] -> first = 0) ->
  (done <> [] -> first = hd 0 done /\ current = last done 0) ->
  NoDup done -> (forall c, In c done -> data_cluster c) ->
  chain_at (g_fat_table st) done FAT_ENTRY_EOF ->
  write_loop st slices current first = Done (rc, first', st') ->
  exists more,
    NoDup (done ++ more)
    /\ (forall c, In c more -> data_cluster c /\ g_fat_table st c = FAT_ENTRY_FREE)
    /\ (forall c, ~ In c more -> partition st' c = partition st c)
    /\ (forall k, (k < length more)%nat ->
                  partition st' (nth k more 0) = poke zero_buffer 0 (nth k slices []))
    /\ (more <> [] -> hd 0 more = find_free_cluster (g_fat_table st))
    /\ first' = hd 0 (done ++ more)
    /\ (forall c, ~ In c (done ++ more) -> g_fat_table st' c = g_fat_table st c)
    /\ ((rc = 0 /\ length more = length slices
         /\ chain_at (g_fat_table st') (done ++ more) FAT_ENTRY_EOF)
        \/ (rc = -1 /\ (length more < length slices)%nat
            /\ forall c, In c (done ++ more) -> g_fat_table st' c = FAT_ENTRY_FREE)).
Proof.
  induction slices as [|slice rest IH];
    intros st done current first rc first' st' Hnil Hcons Hnd Hdata Hch Hw.
  - cbn [write_loop] in Hw. inversion Hw; subst rc first' st'.
    exists []. rewrite app_nil_r.
    split; [exact Hnd|]. split; [intros c []|]. split; [reflexivity|].
    split; [intros k Hk; cbn in Hk; lia|]. split; [congruence|]. split.
    + destruct done; [now rewrite Hnil|now apply Hcons].
    + split; [reflexivity|]. left. auto.
  - destruct (find_free_cluster_spec (g_fat_table st)) as [[H0 _]|[Hdc Hfree]].
    + rewrite (write_loop_full _ _ _ _ _ H0) in Hw.
      exists []. rewrite app_nil_r.
      destruct done as [|a done'].
      * assert (Hf : first = 0) by (apply Hnil; reflexivity). subst first.
        rewrite free_cluster_chain_stop in Hw by reflexivity.
        unfold bind in Hw. inversion Hw; subst rc first' st'.
        split; [exact Hnd|]. split; [intros c []|]. split; [reflexivity|].
        split; [intros k Hk; cbn in Hk; lia|]. split; [congruence|].
        split; [reflexivity|]. split; [reflexivity|].
        right. split; [reflexivity|]. split; [cbn; lia|intros c []].
      * assert (Hne : a :: done' <> []) by discriminate.
        destruct (Hcons Hne) as [Hfirst _].
        destruct (free_cluster_chain_of_chain (a :: done') (g_fat_table st)
                    FAT_ENTRY_EOF) as (fat' & Hfree' & Hin & Hout);
          [discriminate|exact Hnd|exact Hch|reflexivity|].
        subst first. rewrite Hfree' in Hw. unfold bind in Hw.
        inversion Hw; subst rc first' st'. cbn [partition g_fat_table].
        split; [exact Hnd|]. split; [intros c []|]. split; [reflexivity|].
        split; [intros k Hk; cbn in Hk; lia|]. split; [congruence|].
        split; [reflexivity|]. split; [exact Hout|].
        right. split; [reflexivity|]. split; [cbn; lia|exact Hin].
    + assert (Hnz : find_free_cluster (g_fat_table st) <> 0).
      { unfold data_cluster, DATA_CLUSTER_START in Hdc. lia. }
      rewrite (write_loop_alloc _ _ _ _ _ Hnz) in Hw.
      destruct (write_iteration st done current first slice Hnil Hcons Hnd
                  Hdata Hch Hdc Hfree)
        as (st3 & Hwc & Hpart & Hhd & Hlast & Hnd3 & Hch3 & Hnext & Hkeep & Hdone).
      rewrite Hwc in Hw.
      set (next := find_free_cluster (g_fat_table st)) in *.
      destruct (IH st3 (done ++ [next]) next (if first =? 0 then next else first)
                  rc first' st') as (more & Hnd' & Hmore & Hpart' & Hslices
                                     & _ & Hfirst' & Hout & Hrc).
      * intros Habs. destruct done; discriminate.
      * intros _. split; [exact Hhd|exact Hlast].
      * exact Hnd3.
      * intros c Hin. apply in_app_or in Hin. destruct Hin as [Hin|[<-|[]]];
          [now apply Hdata|exact Hdc].
      * exact Hch3.
      * exact Hw.
      * rewrite <- app_assoc in Hnd', Hfirst', Hout, Hrc. cbn [app] in *.
        assert (Hnin : ~ In next more).
        { intros Hin. apply NoDup_remove_2 in Hnd'. apply Hnd'.
          apply in_or_app. now right. }
        assert (Hmore_done : forall c, In c more -> ~ In c done).
        { intros c Hin Hd. destruct (Hmore c Hin) as [_ Hz].
          apply (Hdone c Hd). exact Hz. }
        exists (next :: more). split; [exact Hnd'|]. split; [|split; [|split]].
        -- intros c [<-|Hin]; [split; assumption|].
           destruct (Hmore c Hin) as [Hd Hz]. split; [exact Hd|].
           rewrite <- Hz. symmetry. apply Hkeep.
           ++ intros ->. now apply Hnin.
           ++ now apply Hmore_done.
        -- intros c Hc. rewrite Hpart'.
           ++ rewrite Hpart. apply upd_other. intros ->. apply Hc. now left.
           ++ intros Hin. apply Hc. now right.
        -- intros [|k] Hk.
           ++ cbn [nth]. rewrite Hpart' by exact Hnin. rewrite Hpart.
              apply upd_same.
           ++ cbn [nth]. apply Hslices. cbn in Hk. lia.
        -- split; [intros _; reflexivity|]. split; [exact Hfirst'|]. split.
           ++ intros c Hc. rewrite Hout by exact Hc. apply Hkeep.
              ** intros ->. apply Hc. apply in_or_app. right. now left.
              ** intros Hin. apply Hc. apply in_or_app. now left.
           ++ destruct Hrc as [(Hrc & Hlen & Hchain)|(Hrc & Hlen & Hz)].
              ** left. split; [exact Hrc|]. split; [|exact Hchain].
                 cbn [length]. now rewrite Hlen.
              ** right. split; [exact Hrc|]. split; [|exact Hz].
                 cbn [length]. apply -> Nat.succ_lt_mono. exact Hlen.
Qed.

(** ** [fs_write] *)

Lemma fs_write_unfold st path content :
  fs_write st path content =
  (do r <- find_entry_by_path st path;
   if negb (fst r =? 0) || negb (found (snd r))
      || negb (attributes (entry (snd r)) =? ATTR_ARCHIVE)
   then fail NoFileOrNotFile st
   else
     do fat1 <- free_cluster_chain (g_fat_table st) (first_block (entry (snd r)));
     do w <-
       (if 0 <? uint32 (Z.of_nat (length content)) then
          write_loop (mkState fat1 (partition st))
            (chunks (firstn (Z.to_nat (uint32 (Z.of_nat (length content)))) content))
            0 0
        else
          do st' <- store_fat (mkState fat1 (partition st))
                              (find_free_cluster fat1) FAT_ENTRY_EOF;
          Done (0, find_free_cluster fat1, st'));
     if fst (fst w) =? -1 then fail NoSpace (snd w)
     else if negb (fst (fst w) =? 0) then fail IOError (snd w)
     else
       match read_cluster (snd w) (parent_cluster (snd r)) with
       | None => fail IOError (snd w)
       | Some parent_dir_content =>
           match write_cluster (snd w) (parent_cluster (snd r))
                   (poke (poke parent_dir_content
                               (slot_offset (entry_index (snd r)) + 26)
                               (bytes_le16 (snd (fst w))))
                         (slot_offset (entry_index (snd r)) + 28)
                         (bytes_le32 (uint32 (Z.of_nat (length content))))) with
           | None => fail IOError (snd w)
           | Some st3 => persist_and_return st3
           end
       end).
Proof.
  unfold fs_write. destruct (find_entry_by_path st path) as [[rc r]| |];
    cbn [bind fst snd]; try reflexivity.
  destruct (negb (rc =? 0) || negb (found r)
            || negb (attributes (entry r) =? ATTR_ARCHIVE)); [reflexivity|].
  destruct (free_cluster_chain (g_fat_table st) (first_block (entry r)))
    as [fat1| |]; cbn [bind]; try reflexivity.
  cbn [g_fat_table].
  match goal with
  | |- bind ?m _ = bind ?m _ => destruct m as [[[rcw fw] stw]| |]
  end; cbn [bind fst snd]; reflexivity.
Qed.

Lemma write_loop_top st slices rc first' st' :
  write_loop st slices 0 0 = Done (rc, first', st') ->
  exists cs,
    NoDup cs
    /\ (forall c, In c cs -> data_cluster c /\ g_fat_table st c = FAT_ENTRY_FREE)
    /\ (forall c, ~ In c cs -> partition st' c = partition st c)
    /\ (forall k, (k < length cs)%nat ->
                  partition st' (nth k cs 0) = poke zero_buffer 0 (nth k slices []))
    /\ (cs <> [] -> hd 0 cs = find_free_cluster (g_fat_table st))
    /\ first' = hd 0 cs
    /\ (forall c, ~ In c cs -> g_fat_table st' c = g_fat_table st c)
    /\ ((rc = 0 /\ length cs = length slices
         /\ chain_at (g_fat_table st') cs FAT_ENTRY_EOF)
        \/ (rc = -1 /\ (length cs < length slices)%nat
            /\ forall c, In c cs -> g_fat_table st' c = FAT_ENTRY_FREE)).
Proof.
  intros Hw.
  apply (write_loop_gen slices st [] 0 0 rc first' st'); try assumption.
  - reflexivity.
  - congruence.
  - constructor.
  - intros c [].
  - exact I.
Qed.

(** C3 (amended): when [fs_write] fails with no-space in its allocation
    loop, the chain it had built is freed: the FAT mirror is back to what
    it was right after the old chain was released, so no cluster becomes
    allocated; and every cluster that is not free at that point keeps its
    contents on disk.  Hence the target's directory entry (first cluster
    and size) is unchanged provided the cluster that holds it is not free
    once the old chain is released. *)
Theorem write_no_space_rolls_back (st : fs_state) (path content : list Z)
    (rc0 : Z) (r : path_search_result_t) (rep : reply) :
  find_entry_by_path st path = Done (rc0, r) ->
  fs_write st path content = Done rep ->
  msg rep = NoSpace ->
  exists fat1,
    free_cluster_chain (g_fat_table st) (first_block (entry r)) = Done fat1
    /\ code rep = -1
    /\ (forall c, g_fat_table (after rep) c = fat1 c)
    /\ (forall c, g_fat_table (after rep) c <> FAT_ENTRY_FREE ->
                  g_fat_table st c <> FAT_ENTRY_FREE)
    /\ (forall c, fat1 c <> FAT_ENTRY_FREE ->
                  partition (after rep) c = partition st c)
    /\ (fat1 (parent_cluster r) <> FAT_ENTRY_FREE ->
        entry_at (partition (after rep) (parent_cluster r)) (entry_index r)
        = entry_at (partition st (parent_cluster r)) (entry_index r)).
Proof.
  intros Hfind Hw Hmsg. rewrite fs_write_unfold, Hfind in Hw.
  unfold bind at 1 in Hw. cbv beta iota in Hw. cbn [fst snd] in Hw.
  destruct (negb (rc0 =? 0) || negb (found r)
            || negb (attributes (entry r) =? ATTR_ARCHIVE)).
  { inversion Hw; subst rep. discriminate. }
  destruct (free_cluster_chain (g_fat_table st) (first_block (entry r)))
    as [fat1| |] eqn:Hfree; try discriminate.
  exists fat1. split; [reflexivity|].
  unfold bind at 1 in Hw. cbv beta iota in Hw.
  destruct (0 <? uint32 (Z.of_nat (length content))).
  - destruct (write_loop (mkState fat1 (partition st))
                (chunks (firstn (Z.to_nat (uint32 (Z.of_nat (length content))))
                                content)) 0 0)
      as [[[rcw fw] stw]| |] eqn:Hloop; try discriminate.
    unfold bind in Hw. cbn [fst snd] in Hw.
    destruct (write_loop_top _ _ _ _ _ Hloop)
      as (cs & Hnd & Hcs & Hpart & _ & _ & _ & Hout & Hrc).
    cbn [g_fat_table partition] in *.
    destruct Hrc as [(Hrc & _)|(Hrc & _ & Hz)].
    + subst rcw. cbn [Z.eqb negb] in Hw. cbv iota in Hw.
      destruct (read_cluster stw (parent_cluster r)); [|inversion Hw; subst; discriminate].
      destruct (write_cluster stw (parent_cluster r) _) as [st3|];
        [|inversion Hw; subst; discriminate].
      destruct (persist_and_return_spec st3) as (st4 & Hp & _).
      rewrite Hp in Hw. inversion Hw; subst rep. discriminate.
    + subst rcw. cbn [Z.eqb] in Hw. cbv iota in Hw.
      inversion Hw; subst rep. cbn [code after].
      assert (Hfat : forall c, g_fat_table stw c = fat1 c).
      { intros c. destruct (in_dec Z.eq_dec c cs) as [Hin|Hnin].
        - rewrite (Hz c Hin). symmetry. now apply Hcs.
        - now apply Hout. }
      assert (Hkeep : forall c, fat1 c <> FAT_ENTRY_FREE ->
                                partition stw c = partition st c).
      { intros c Hc. apply Hpart. intros Hin. apply Hc. now apply Hcs. }
      split; [reflexivity|]. split; [exact Hfat|]. split; [|split].
      * intros c Hc. rewrite Hfat in Hc.
        destruct (free_cluster_chain_clears _ _ _ Hfree c) as [Heq|Hzero];
          congruence.
      * exact Hkeep.
      * intros Hp. rewrite (Hkeep _ Hp). reflexivity.
  - destruct (store_fat (mkState fat1 (partition st)) (find_free_cluster fat1)
                        FAT_ENTRY_EOF) as [st'| |]; try discriminate.
    unfold bind in Hw. cbn [fst snd Z.eqb negb] in Hw. cbv iota in Hw.
    destruct (read_cluster st' (parent_cluster r)); [|inversion Hw; subst; discriminate].
    destruct (write_cluster st' (parent_cluster r) _) as [st3|];
      [|inversion Hw; subst; discriminate].
    destruct (persist_and_return_spec st3) as (st4 & Hp & _).
    rewrite Hp in Hw. inversion Hw; subst rep. discriminate.
Qed.

Lemma write_no_space_rolls_back_witness :
  exists rep fat1,
    fs_write st_full (bytes_of_string "/f") (repeat 65 1025) = Done rep
    /\ msg rep = NoSpace
    /\ free_cluster_chain (g_fat_table st_full) 10 = Done fat1
    /\ code rep = -1
    /\ (forall c, g_fat_table (after rep) c = fat1 c)
    /\ (forall c, g_fat_table (after rep) c <> FAT_ENTRY_FREE ->
                  g_fat_table st_full c <> FAT_ENTRY_FREE)
    /\ (forall c, fat1 c <> FAT_ENTRY_FREE ->
                  partition (after rep) c = partition st_full c)
    /\ (fat1 9 <> FAT_ENTRY_FREE ->
        entry_at (partition (after rep) 9) 0 = entry_at (partition st_full 9) 0).
Proof.
  destruct (fs_write st_full (bytes_of_string "/f") (repeat 65 1025))
    as [rep| |] eqn:Hw.
  - assert (Hmsg : msg rep = NoSpace).
    { assert (H : observe msg (fs_write st_full (bytes_of_string "/f")
                                 (repeat 65 1025)) = Done NoSpace)
        by (vm_compute; reflexivity).
      rewrite Hw in H. cbn in H. congruence. }
    destruct (write_no_space_rolls_back st_full (bytes_of_string "/f")
                (repeat 65 1025) 0
                (mkResult (strncpy17 (bytes_of_string "f")) true 9 10 0
                   (entry_at (partition st_full 9) 0)) rep)
      as (fat1 & H); [vm_compute; reflexivity|exact Hw|exact Hmsg|].
    exists rep, fat1. split; [reflexivity|]. split; [exact Hmsg|]. exact H.
  - exfalso.
    assert (H : observe msg (fs_write st_full (bytes_of_string "/f")
                               (repeat 65 1025)) = Done NoSpace)
      by (vm_compute; reflexivity).
    rewrite Hw in H. discriminate.
  - exfalso.
    assert (H : observe msg (fs_write st_full (bytes_of_string "/f")
                               (repeat 65 1025)) = Done NoSpace)
      by (vm_compute; reflexivity).
    rewrite Hw in H. discriminate.
Defined.

(** ** Bytes, integers and slices *)

Lemma poke_in buf off bs j :
  off <= j < off + Z.of_nat (length bs) ->
  poke buf off bs j = nth (Z.to_nat (j - off)) bs 0.
Proof.
  intros H. unfold poke.
  destruct (Z.leb_spec off j), (Z.ltb_spec j (off + Z.of_nat (length bs)));
    cbn [andb]; try reflexivity; lia.
Qed.

Lemma poke_out buf off bs j :
  ~ (off <= j < off + Z.of_nat (length bs)) -> poke buf off bs j = buf j.
Proof.
  intros H. unfold poke.
  destruct (Z.leb_spec off j), (Z.ltb_spec j (off + Z.of_nat (length bs)));
    cbn [andb]; try reflexivity; lia.
Qed.

Lemma bytes_at_poke buf s :
  bytes_at (poke buf 0 s) 0 (length s) = s.
Proof.
  unfold bytes_at. set (f := fun k => poke buf 0 s (0 + Z.of_nat k)).
  apply nth_ext with (d := 0) (d' := 0).
  - now rewrite length_map, length_seq.
  - intros n Hn. rewrite length_map, length_seq in Hn.
    rewrite (nth_indep _ 0 (f O)) by (now rewrite length_map, length_seq).
    rewrite (map_nth f), seq_nth by exact Hn.
    unfold f. rewrite poke_in by lia. f_equal. lia.
Qed.

Lemma le16_bytes v :
  0 <= v < 65536 -> le16 (v mod 256) ((v / 256) mod 256) = v.
Proof. intros H. unfold le16. Z.div_mod_to_equations. lia. Qed.

Lemma le32_bytes v :
  0 <= v < 4294967296 ->
  le32 (v mod 256) ((v / 256) mod 256) ((v / 65536) mod 256)
       ((v / 16777216) mod 256) = v.
Proof. intros H. unfold le32. Z.div_mod_to_equations. lia. Qed.

Lemma chunk_list_spec fuel : forall l,
  (length l <= fuel)%nat ->
  concat (chunk_list fuel l) = l /\ well_sliced (chunk_list fuel l).
Proof.
  induction fuel as [|fuel IH]; intros l Hl.
  - destruct l; [split; [reflexivity|exact I]|cbn in Hl; lia].
  - destruct l as [|x l0]; [split; [reflexivity|exact I]|].
    set (l := x :: l0) in *. change (chunk_list (S fuel) l)
      with (firstn 1024 l :: chunk_list fuel (skipn 1024 l)).
    assert (Hskip : (length (skipn 1024 l) <= fuel)%nat).
    { rewrite length_skipn. subst l. cbn [length] in *. lia. }
    destruct (IH _ Hskip) as [Hc Hw]. split.
    + cbn [concat]. rewrite Hc. apply firstn_skipn.
    + cbn [well_sliced]. split; [subst l; discriminate|].
      split; [apply firstn_le_length|]. split; [|exact Hw].
      intros Hne. rewrite length_firstn.
      destruct (Nat.le_gt_cases 1024 (length l)) as [Hge|Hlt]; [lia|].
      exfalso. apply Hne. rewrite skipn_all2 by lia.
      destruct fuel; reflexivity.
Qed.

Lemma chunks_spec l : concat (chunks l) = l /\ well_sliced (chunks l).
Proof. apply chunk_list_spec. apply Nat.le_refl. Qed.

Lemma well_sliced_length slices :
  well_sliced slices ->
  (1024 * length slices <= length (concat slices) + 1023)%nat.
Proof.
  induction slices as [|s rest IH]; intros H; [cbn; lia|].
  cbn [well_sliced] in H. destruct H as (Hne & Hle & Hfull & Hrest).
  cbn [concat length]. rewrite length_app. specialize (IH Hrest).
  destruct rest as [|s' rest'].
  - cbn [length concat] in *. destruct s; [congruence|cbn [length]; lia].
  - assert (length s = 1024%nat) by (apply Hfull; discriminate). lia.
Qed.

(** ** [fs_read] along a chain *)

Lemma read_loop_S fuel st current bytes_to_read :
  read_loop (S fuel) st current bytes_to_read =
  if (0 <? bytes_to_read) && (current <? FAT_ENTRY_EOF) then
    match read_cluster st current with
    | None => Done (-1, [])
    | Some buf =>
        do r <- read_loop fuel st (g_fat_table st current)
                  (bytes_to_read -
                   (if bytes_to_read >? CLUSTER_SIZE then CLUSTER_SIZE
                    else bytes_to_read));
        Done (fst r,
              bytes_at buf 0
                (Z.to_nat (if bytes_to_read >? CLUSTER_SIZE then CLUSTER_SIZE
                           else bytes_to_read)) ++ snd r)
    end
  else Done (0, [10]).
Proof. reflexivity. Qed.

Lemma read_loop_zero fuel st current :
  read_loop fuel st current 0 = Done (0, [10]).
Proof. destruct fuel; reflexivity. Qed.

(** Reading a chain whose clusters hold the slices of a content gives the
    content back, followed by the newline. *)
Lemma read_loop_chain slices : forall cs fuel st,
  well_sliced slices -> length cs = length slices ->
  chain_at (g_fat_table st) cs FAT_ENTRY_EOF ->
  (forall k, (k < length cs)%nat ->
             partition st (nth k cs 0) = poke zero_buffer 0 (nth k slices [])) ->
  (length slices <= fuel)%nat ->
  read_loop fuel st (hd 0 cs) (Z.of_nat (length (concat slices)))
  = Done (0, concat slices ++ [10]).
Proof.
  induction slices as [|s rest IH]; intros cs fuel st Hws Hlen Hch Hdata Hfuel.
  - apply read_loop_zero.
  - destruct cs as [|c cs']; [discriminate|].
    destruct fuel as [|fuel]; [cbn in Hfuel; lia|].
    cbn [well_sliced] in Hws. destruct Hws as (Hne & Hle & Hfull & Hrest).
    cbn [hd concat]. rewrite read_loop_S.
    assert (Hc : chain_continues c = true /\ in_table c = true
                 /\ g_fat_table st c
                    = match cs' with [] => FAT_ENTRY_EOF | c' :: _ => c' end
                 /\ chain_at (g_fat_table st) cs' FAT_ENTRY_EOF) by exact Hch.
    destruct Hc as (Hcont & Hin & Hlink & Hch').
    assert (Hlt : (c <? FAT_ENTRY_EOF) = true).
    { unfold chain_continues in Hcont. apply andb_true_iff in Hcont. tauto. }
    assert (Hpos : (0 <? Z.of_nat (length (s ++ concat rest))) = true).
    { apply Z.ltb_lt. rewrite length_app. destruct s; [congruence|cbn [length]; lia]. }
    rewrite Hpos, Hlt. cbn [andb]. unfold read_cluster. rewrite Hin.
    pose proof (Hdata O ltac:(cbn; lia)) as Hbuf. cbn [nth] in Hbuf.
    rewrite Hbuf, Hlink.
    destruct rest as [|s' rest'].
    + destruct cs' as [|? ?]; [|discriminate].
      cbn [concat]. rewrite app_nil_r.
      assert (Hsz : (Z.of_nat (length s) >? CLUSTER_SIZE) = false).
      { unfold CLUSTER_SIZE. rewrite Z.gtb_ltb. apply Z.ltb_ge. lia. }
      rewrite Hsz, Z.sub_diag, read_loop_zero. cbn [bind fst snd].
      rewrite Nat2Z.id, bytes_at_poke. reflexivity.
    + destruct cs' as [|c' cs'']; [discriminate|].
      assert (H1024 : length s = 1024%nat) by (apply Hfull; discriminate).
      assert (Hs' : s' <> []) by (cbn [well_sliced] in Hrest; tauto).
      assert (Hsz : (Z.of_nat (length (s ++ concat (s' :: rest'))) >? CLUSTER_SIZE)
                    = true).
      { unfold CLUSTER_SIZE. rewrite Z.gtb_ltb. apply Z.ltb_lt.
        rewrite length_app. cbn [concat]. rewrite length_app.
        destruct s'; [congruence|cbn [length]; lia]. }
      rewrite Hsz.
      replace (Z.of_nat (length (s ++ concat (s' :: rest'))) - CLUSTER_SIZE)
        with (Z.of_nat (length (concat (s' :: rest'))))
        by (rewrite length_app; unfold CLUSTER_SIZE; lia).
      assert (HIH : read_loop fuel st c'
                      (Z.of_nat (length (concat (s' :: rest'))))
                    = Done (0, concat (s' :: rest') ++ [10])).
      { apply (IH (c' :: cs'') fuel st).
        - exact Hrest.
        - cbn [length] in *. lia.
        - exact Hch'.
        - intros k Hk. apply (Hdata (S k)). cbn [length] in *. lia.
        - cbn [length] in *. lia. }
      rewrite HIH. cbn [bind fst snd]. unfold CLUSTER_SIZE.
      replace (Z.to_nat 1024) with (length s) by lia.
      rewrite bytes_at_poke. now rewrite <- app_assoc.
Qed.

(** ** The resolver on a partition that changed elsewhere *)

Lemma scan_dir_S buf token n i :
  scan_dir buf token (S n) i =
  if negb (buf (slot_offset i) =? 0) then
    (do eq <- strcmp_at buf (slot_offset i) token;
     if eq then Done (Some i) else scan_dir buf token n (i + 1))
  else scan_dir buf token n (i + 1).
Proof. reflexivity. Qed.

Lemma scan_dir_ge buf token n : forall i k,
  scan_dir buf token n i = Done (Some k) -> i <= k.
Proof.
  induction n as [|n IH]; intros i k H; [discriminate|].
  rewrite scan_dir_S in H.
  destruct (negb (buf (slot_offset i) =? 0)).
  - destruct (strcmp_at buf (slot_offset i) token) as [[|]| |];
      cbn [bind] in H; try discriminate.
    + inversion H. lia.
    + apply IH in H. lia.
  - apply IH in H. lia.
Qed.

(** A comparison that starts at or before a NUL byte of the buffer only
    depends on the bytes up to that NUL. *)
Lemma strcmp_at_agree buf buf' z token : forall off,
  c_string token -> off <= z -> buf z = 0 ->
  (forall j, off <= j <= z -> buf' j = buf j) ->
  strcmp_at buf' off token = strcmp_at buf off token.
Proof.
  induction token as [|t token IH]; intros off Hcs Hoff Hz Hagree.
  - cbn [strcmp_at]. now rewrite Hagree by lia.
  - cbn [strcmp_at]. rewrite (Hagree off) by lia.
    destruct (off <? CLUSTER_SIZE); [|reflexivity].
    destruct (Z.eqb_spec (buf off) t) as [Heq|Hne]; [|reflexivity].
    inversion Hcs as [|? ? Ht Hcs']; subst.
    assert (off <> z) by (intros ->; lia).
    apply IH; [exact Hcs'|lia|exact Hz|].
    intros j Hj. apply Hagree. lia.
Qed.

Lemma scan_dir_agree buf buf' token idx n : forall i,
  c_string token ->
  scan_dir buf token n i = Done (Some idx) ->
  buf (slot_offset idx + 18) = 0 ->
  (forall j, j <= slot_offset idx + 18 -> buf' j = buf j) ->
  scan_dir buf' token n i = Done (Some idx).
Proof.
  induction n as [|n IH]; intros i Hcs Hscan Hz Hagree; [discriminate|].
  pose proof (scan_dir_ge _ _ _ _ _ Hscan) as Hge.
  rewrite scan_dir_S in *.
  assert (Hoff : slot_offset i <= slot_offset idx + 18)
    by (unfold slot_offset, DIR_ENTRY_SIZE; lia).
  rewrite (Hagree (slot_offset i)) by exact Hoff.
  rewrite (strcmp_at_agree buf buf' (slot_offset idx + 18) token
             (slot_offset i) Hcs Hoff Hz)
    by (intros j Hj; apply Hagree; lia).
  destruct (negb (buf (slot_offset i) =? 0)).
  - destruct (strcmp_at buf (slot_offset i) token) as [[|]| |];
      cbn [bind] in *; try discriminate.
    + exact Hscan.
    + now apply IH.
  - now apply IH.
Qed.

Lemma split_on_In sep s : forall f b,
  In f (split_on sep s) -> In b f -> In b s.
Proof.
  induction s as [|c s IH]; intros f b Hf Hb.
  - cbn in Hf. destruct Hf as [<-|[]]. destruct Hb.
  - cbn [split_on] in Hf. destruct (c =? sep).
    + destruct Hf as [<-|Hf]; [destruct Hb|]. right. eapply IH; eauto.
    + destruct (split_on sep s) as [|f0 fs] eqn:Hsp.
      * destruct Hf as [<-|[]]. destruct Hb as [<-|[]]. now left.
      * destruct Hf as [<-|Hf].
        -- destruct Hb as [<-|Hb]; [now left|]. right.
           apply (IH f0 b); [now left|exact Hb].
        -- right. apply (IH f b); [now right|exact Hb].
Qed.

Lemma strtok_all_c_string s :
  c_string s -> Forall c_string (strtok_all s).
Proof.
  intros Hs. apply Forall_forall. intros f Hf.
  apply filter_In in Hf. destruct Hf as [Hf _].
  apply Forall_forall. intros b Hb.
  unfold c_string in Hs. rewrite Forall_forall in Hs.
  apply Hs. eapply split_on_In; eauto.
Qed.

Lemma firstn_c_string n s : c_string s -> c_string (firstn n s).
Proof.
  unfold c_string. intros H. rewrite <- (firstn_skipn n s) in H.
  apply Forall_app in H. tauto.
Qed.

Lemma resolve_loop_nil st current result :
  resolve_loop st [] current result =
  Done (0, mkResult (name result) true (parent_cluster result)
                    (entry_cluster result) (entry_index result) (entry result)).
Proof. reflexivity. Qed.

Lemma read_cluster_some st c buf :
  read_cluster st c = Some buf -> in_table c = true /\ buf = partition st c.
Proof.
  unfold read_cluster. destruct (in_table c); [|discriminate].
  intros H. inversion H. auto.
Qed.

(** A successful walk ends in the cluster searched last. *)
Lemma resolve_loop_parent_in_trace st tokens : forall current result r,
  tokens <> [] ->
  resolve_loop st tokens current result = Done (0, r) -> found r = true ->
  In (parent_cluster r) (resolve_trace st tokens current).
Proof.
  induction tokens as [|token rest IH]; intros current result r Hne Hres Hf;
    [congruence|].
  rewrite resolve_loop_cons in Hres. cbv zeta in Hres.
  rewrite resolve_trace_cons.
  destruct (read_cluster st current) as [buf|]; [|discriminate].
  destruct (scan_dir buf token (Z.to_nat DIR_ENTRIES_PER_CLUSTER) 0)
    as [[i|]| |]; cbn [bind] in Hres; try discriminate.
  - destruct rest as [|t2 rest'].
    + rewrite resolve_loop_nil in Hres. inversion Hres; subst r.
      cbn [parent_cluster]. now left.
    + right. apply (IH _ _ _ ltac:(discriminate) Hres Hf).
  - inversion Hres; subst r. discriminate.
Qed.

(** If the clusters searched for a path keep their contents, except that
    the fields [first_block] and [size] of the entry found may change, the
    path resolves to the same slot, with the entry as it now is. *)
Lemma resolve_loop_stable st st' tokens : forall current result r,
  tokens <> [] ->
  resolve_loop st tokens current result = Done (0, r) -> found r = true ->
  attributes (entry r) = ATTR_ARCHIVE ->
  NoDup (resolve_trace st tokens current) ->
  Forall c_string tokens ->
  (forall c, In c (resolve_trace st tokens current) -> c <> parent_cluster r ->
             partition st' c = partition st c) ->
  (forall off, ~ (slot_offset (entry_index r) + 26 <= off
                  < slot_offset (entry_index r) + 32) ->
               partition st' (parent_cluster r) off
               = partition st (parent_cluster r) off) ->
  resolve_loop st' tokens current result =
  Done (0, mkResult (name r) true (parent_cluster r)
              (first_block (entry_at (partition st' (parent_cluster r))
                                     (entry_index r)))
              (entry_index r)
              (entry_at (partition st' (parent_cluster r)) (entry_index r))).
Proof.
  induction tokens as [|token rest IH];
    intros current result r Hne Hres Hf Hattr Hnd Hcs Hother Hparent;
    [congruence|].
  pose proof (resolve_loop_parent_in_trace _ _ _ _ _ Hne Hres Hf) as Hin.
  rewrite resolve_loop_cons in Hres. cbv zeta in Hres.
  rewrite resolve_trace_cons in Hnd, Hother, Hin.
  rewrite resolve_loop_cons. cbv zeta.
  destruct (read_cluster st current) as [buf|] eqn:Hread; [|discriminate].
  apply read_cluster_some in Hread. destruct Hread as [Htab Hbuf].
  unfold read_cluster at 1. rewrite Htab.
  destruct (scan_dir buf token (Z.to_nat DIR_ENTRIES_PER_CLUSTER) 0)
    as [[i|]| |] eqn:Hscan; cbn [bind] in Hres; try discriminate.
  2:{ inversion Hres; subst r. discriminate. }
  inversion Hcs as [|? ? Htok Hcs']; subst.
  destruct rest as [|t2 rest'].
  - rewrite resolve_loop_nil in Hres. inversion Hres; subst r.
    cbn [parent_cluster entry_index entry name found] in *.
    assert (Hz : partition st current (slot_offset i + 18) = 0) by exact Hattr.
    rewrite (scan_dir_agree (partition st current) (partition st' current)
               token i _ 0 Htok Hscan Hz).
    + cbn [bind]. rewrite resolve_loop_nil. reflexivity.
    + intros j Hj. apply Hparent. lia.
  - apply NoDup_cons_iff in Hnd. destruct Hnd as [Hnotin Hnd].
    assert (Hne' : t2 :: rest' <> []) by discriminate.
    pose proof (resolve_loop_parent_in_trace _ _ _ _ _ Hne' Hres Hf) as Hin'.
    assert (Hcur : current <> parent_cluster r).
    { intros Heq. apply Hnotin. rewrite <- Heq in Hin'. exact Hin'. }
    rewrite (Hother current (or_introl eq_refl) Hcur), Hscan. cbn [bind].
    apply (IH _ _ r Hne' Hres Hf Hattr Hnd Hcs').
    + intros c Hc Hcp. apply Hother; [now right|exact Hcp].
    + exact Hparent.
Qed.

Lemma list_eqb_true a b : list_eqb a b = true -> a = b.
Proof. unfold list_eqb. destruct (list_eq_dec Z.eq_dec a b); congruence. Qed.

Lemma find_entry_by_path_loop st path :
  strtok_all (firstn 511 path) <> [] ->
  find_entry_by_path st path =
  resolve_loop st (strtok_all (firstn 511 path)) ROOT_DIR_CLUSTER initial_result.
Proof.
  intros Hne. unfold find_entry_by_path. cbv zeta.
  destruct (list_eqb (firstn 511 path) [SLASH]) eqn:Heq.
  - apply list_eqb_true in Heq. rewrite Heq in Hne. exfalso. apply Hne.
    reflexivity.
  - destruct (strtok_all (firstn 511 path)); [congruence|reflexivity].
Qed.

(** A path that resolves to a regular file has a component, and is
    resolved by the loop. *)
Lemma find_regular_file st path r :
  find_entry_by_path st path = Done (0, r) -> found r = true ->
  attributes (entry r) = ATTR_ARCHIVE ->
  strtok_all (firstn 511 path) <> []
  /\ resolve_loop st (strtok_all (firstn 511 path)) ROOT_DIR_CLUSTER
                  initial_result = Done (0, r).
Proof.
  intros Hfind Hf Hattr.
  assert (Hne : strtok_all (firstn 511 path) <> []).
  { intros Hnil. unfold find_entry_by_path in Hfind. cbv zeta in Hfind.
    destruct (list_eqb (firstn 511 path) [SLASH]).
    - inversion Hfind; subst r. discriminate.
    - rewrite Hnil in Hfind. inversion Hfind; subst r. discriminate. }
  split; [exact Hne|]. now rewrite <- find_entry_by_path_loop.
Qed.

Lemma resolve_loop_entry st tokens : forall current result r,
  tokens <> [] ->
  resolve_loop st tokens current result = Done (0, r) -> found r = true ->
  entry r = entry_at (partition st (parent_cluster r)) (entry_index r)
  /\ in_table (parent_cluster r) = true.
Proof.
  induction tokens as [|token rest IH]; intros current result r Hne Hres Hf;
    [congruence|].
  rewrite resolve_loop_cons in Hres. cbv zeta in Hres.
  destruct (read_cluster st current) as [buf|] eqn:Hread; [|discriminate].
  apply read_cluster_some in Hread. destruct Hread as [Htab ->].
  destruct (scan_dir (partition st current) token
              (Z.to_nat DIR_ENTRIES_PER_CLUSTER) 0)
    as [[i|]| |]; cbn [bind] in Hres; try discriminate.
  - destruct rest as [|t2 rest'].
    + rewrite resolve_loop_nil in Hres. inversion Hres; subst r.
      cbn [parent_cluster entry_index entry]. auto.
    + assert (Hne' : t2 :: rest' <> []) by discriminate.
      apply (IH _ _ _ Hne' Hres Hf).
  - inversion Hres; subst r. discriminate.
Qed.

(** What a successful [fs_write] did, step by step. *)
Lemma fs_write_success st path content r rep :
  find_entry_by_path st path = Done (0, r) ->
  fs_write st path content = Done rep -> code rep = 0 ->
  exists fat1 first' stw,
    free_cluster_chain (g_fat_table st) (first_block (entry r)) = Done fat1
    /\ (if 0 <? uint32 (Z.of_nat (length content)) then
          write_loop (mkState fat1 (partition st))
            (chunks (firstn (Z.to_nat (uint32 (Z.of_nat (length content))))
                            content)) 0 0
        else
          (do st' <- store_fat (mkState fat1 (partition st))
                               (find_free_cluster fat1) FAT_ENTRY_EOF;
           Done (0, find_free_cluster fat1, st')))
       = Done (0, first', stw)
    /\ g_fat_table (after rep) = g_fat_table stw
    /\ forall c,
         partition (after rep) c =
         if fat_region c
         then fat_bytes (g_fat_table stw) (c - FAT_CLUSTER_START)
         else upd (partition stw) (parent_cluster r)
                (poke (poke (partition stw (parent_cluster r))
                            (slot_offset (entry_index r) + 26)
                            (bytes_le16 first'))
                      (slot_offset (entry_index r) + 28)
                      (bytes_le32 (uint32 (Z.of_nat (length content))))) c.
Proof.
  intros Hfind Hw Hcode. rewrite fs_write_unfold, Hfind in Hw.
  unfold bind at 1 in Hw. cbv beta iota in Hw. cbn [fst snd] in Hw.
  destruct (negb (0 =? 0) || negb (found r)
            || negb (attributes (entry r) =? ATTR_ARCHIVE)).
  { inversion Hw; subst rep. discriminate. }
  destruct (free_cluster_chain (g_fat_table st) (first_block (entry r)))
    as [fat1| |] eqn:Hfree; try discriminate.
  unfold bind at 1 in Hw. cbv beta iota in Hw.
  match type of Hw with
  | bind ?m _ = _ => destruct m as [[[rcw fw] stw]| |] eqn:Hloop
  end; try discriminate.
  unfold bind in Hw. cbn [fst snd] in Hw.
  destruct (rcw =? -1); [inversion Hw; subst rep; discriminate|].
  destruct (Z.eqb_spec rcw 0) as [->|Hne];
    [|cbn [negb] in Hw; inversion Hw; subst rep; discriminate].
  cbn [negb] in Hw.
  destruct (read_cluster stw (parent_cluster r)) as [pbuf|] eqn:Hread;
    [|inversion Hw; subst rep; discriminate].
  apply read_cluster_some in Hread. destruct Hread as [Htab ->].
  rewrite write_cluster_in in Hw by exact Htab.
  match type of Hw with
  | persist_and_return ?s = _ =>
      destruct (persist_and_return_spec s) as (st4 & Hp & Hfat & Hpart)
  end.
  rewrite Hp in Hw. inversion Hw; subst rep. cbn [after].
  exists fat1, fw, stw. split; [reflexivity|]. split; [exact Hloop|].
  split; [exact Hfat|exact Hpart].
Qed.

Lemma fs_read_unfold st path :
  fs_read st path =
  (do r <- find_entry_by_path st path;
   if negb (fst r =? 0) || negb (found (snd r)) then Done (-1, [])
   else if negb (attributes (entry (snd r)) =? ATTR_ARCHIVE) then Done (-1, [])
   else read_loop (read_fuel (size (entry (snd r)))) st
                  (first_block (entry (snd r))) (size (entry (snd r)))).
Proof. reflexivity. Qed.

Lemma uint32_small z : 0 <= z < 4294967296 -> uint32 z = z.
Proof. intros H. unfold uint32. now apply Z.mod_small. Qed.

(** The entry read back from a directory buffer whose fields [first_block]
    and [size] were just stored. *)
Lemma entry_at_updated buf i first len :
  0 <= first < 65536 -> 0 <= len < 4294967296 ->
  let buf' := poke (poke buf (slot_offset i + 26) (bytes_le16 first))
                   (slot_offset i + 28) (bytes_le32 len) in
  first_block (entry_at buf' i) = first
  /\ size (entry_at buf' i) = len
  /\ attributes (entry_at buf' i) = attributes (entry_at buf i).
Proof.
  intros Hf Hl buf'. unfold entry_at. cbn [first_block size attributes].
  subst buf'. set (o := slot_offset i).
  set (f := poke (poke buf (o + 26) (bytes_le16 first)) (o + 28) (bytes_le32 len)).
  assert (E26 : f (o + 26) = first mod 256).
  { unfold f. rewrite poke_out by (cbn [length bytes_le32]; lia).
    rewrite poke_in by (cbn [length bytes_le16]; lia).
    replace (o + 26 - (o + 26)) with 0 by lia. reflexivity. }
  assert (E27 : f (o + 27) = (first / 256) mod 256).
  { unfold f. rewrite poke_out by (cbn [length bytes_le32]; lia).
    rewrite poke_in by (cbn [length bytes_le16]; lia).
    replace (o + 27 - (o + 26)) with 1 by lia. reflexivity. }
  assert (E28 : f (o + 28) = len mod 256).
  { unfold f. rewrite poke_in by (cbn [length bytes_le32]; lia).
    replace (o + 28 - (o + 28)) with 0 by lia. reflexivity. }
  assert (E29 : f (o + 29) = (len / 256) mod 256).
  { unfold f. rewrite poke_in by (cbn [length bytes_le32]; lia).
    replace (o + 29 - (o + 28)) with 1 by lia. reflexivity. }
  assert (E30 : f (o + 30) = (len / 65536) mod 256).
  { unfold f. rewrite poke_in by (cbn [length bytes_le32]; lia).
    replace (o + 30 - (o + 28)) with 2 by lia. reflexivity. }
  assert (E31 : f (o + 31) = (len / 16777216) mod 256).
  { unfold f. rewrite poke_in by (cbn [length bytes_le32]; lia).
    replace (o + 31 - (o + 28)) with 3 by lia. reflexivity. }
  rewrite E26, E27, E28, E29, E30, E31.
  split; [now apply le16_bytes|]. split; [now apply le32_bytes|].
  unfold f. rewrite !poke_out; [reflexivity| |];
    cbn [length bytes_le16 bytes_le32]; lia.
Qed.

(** The read after a write, once the write is known to have left the
    searched clusters alone and a readable chain behind. *)
Lemma write_then_read_core st st' path r stw first' len out :
  strtok_all (firstn 511 path) <> [] ->
  resolve_loop st (strtok_all (firstn 511 path)) ROOT_DIR_CLUSTER initial_result
    = Done (0, r) ->
  found r = true -> attributes (entry r) = ATTR_ARCHIVE ->
  NoDup (resolve_trace st (strtok_all (firstn 511 path)) ROOT_DIR_CLUSTER) ->
  c_string path ->
  (forall c, In c (resolve_trace st (strtok_all (firstn 511 path))
                                 ROOT_DIR_CLUSTER) ->
             fat_region c = false /\ partition stw c = partition st c) ->
  (forall c,
     partition st' c =
     if fat_region c
     then fat_bytes (g_fat_table stw) (c - FAT_CLUSTER_START)
     else upd (partition stw) (parent_cluster r)
            (poke (poke (partition stw (parent_cluster r))
                        (slot_offset (entry_index r) + 26) (bytes_le16 first'))
                  (slot_offset (entry_index r) + 28) (bytes_le32 len)) c) ->
  0 <= first' < 65536 -> 0 <= len < 4294967296 ->
  read_loop (read_fuel len) st' first' len = Done (0, out) ->
  fs_read st' path = Done (0, out).
Proof.
  intros Hne Hloop Hf Hattr Hnd Hpath Htrace Hpart Hfirst Hlen Hread.
  set (tokens := strtok_all (firstn 511 path)) in *.
  set (P := parent_cluster r) in *. set (idx := entry_index r) in *.
  pose proof (resolve_loop_parent_in_trace _ _ _ _ _ Hne Hloop Hf) as HPin.
  destruct (resolve_loop_entry _ _ _ _ _ Hne Hloop Hf) as [Hentry _].
  fold P idx in Hentry.
  destruct (Htrace P HPin) as [HPreg HPkeep].
  assert (HP' : partition st' P
                = poke (poke (partition st P) (slot_offset idx + 26)
                             (bytes_le16 first'))
                       (slot_offset idx + 28) (bytes_le32 len)).
  { rewrite Hpart, HPreg, upd_same, HPkeep. reflexivity. }
  destruct (entry_at_updated (partition st P) idx first' len Hfirst Hlen)
    as (Efirst & Esize & Eattr).
  rewrite <- HP' in Efirst, Esize, Eattr.
  rewrite fs_read_unfold, find_entry_by_path_loop by exact Hne.
  fold tokens.
  rewrite (resolve_loop_stable st st' tokens ROOT_DIR_CLUSTER initial_result r
             Hne Hloop Hf Hattr Hnd).
  - cbn [bind fst snd found entry]. fold P idx.
    rewrite Eattr, <- Hentry, Hattr, Efirst, Esize. cbn. exact Hread.
  - apply strtok_all_c_string. now apply firstn_c_string.
  - intros c Hc Hcp. destruct (Htrace c Hc) as [Hreg Hkeep].
    rewrite Hpart, Hreg, upd_other by exact Hcp. exact Hkeep.
  - intros off Hoff. fold P idx in Hoff |- *. rewrite HP'.
    rewrite !poke_out; [reflexivity| |];
      cbn [length bytes_le16 bytes_le32]; lia.
Qed.

Lemma data_cluster_not_fat_region c : data_cluster c -> fat_region c = false.
Proof.
  unfold data_cluster, fat_region, DATA_CLUSTER_START, FAT_CLUSTER_START,
    FAT_CLUSTER_COUNT.
  intros H. apply andb_false_iff. right. apply Z.ltb_ge. lia.
Qed.

Lemma chunks_fuel content :
  (length (chunks content) <= read_fuel (Z.of_nat (length content)))%nat.
Proof.
  destruct (chunks_spec content) as [Hconcat Hws].
  pose proof (well_sliced_length _ Hws) as H. rewrite Hconcat in H.
  unfold read_fuel, CLUSTER_SIZE.
  assert (Z.of_nat (length (chunks content))
          <= Z.of_nat (length content) / 1024 + 1).
  { Z.div_mod_to_equations. lia. }
  lia.
Qed.

(** C1 (amended): let [p] resolve to a regular file, through directory
    clusters that are pairwise distinct, lie outside the FAT region and are
    not free once the file's old chain has been released; let [B] be a C
    string (no NUL byte) of at most 4086 * 1024 bytes.  If [write(p, B)]
    succeeds, the [read(p)] that follows returns 0 and emits exactly the
    bytes of [B] followed by the newline. *)
Theorem write_then_read (st : fs_state) (path content : list Z)
    (r : path_search_result_t) (rep : reply) :
  c_string path -> c_string content ->
  Z.of_nat (length content) <= 4086 * 1024 ->
  find_entry_by_path st path = Done (0, r) ->
  found r = true -> attributes (entry r) = ATTR_ARCHIVE ->
  NoDup (resolve_trace st (strtok_all (firstn 511 path)) ROOT_DIR_CLUSTER) ->
  (forall fat1 c,
     free_cluster_chain (g_fat_table st) (first_block (entry r)) = Done fat1 ->
     In c (resolve_trace st (strtok_all (firstn 511 path)) ROOT_DIR_CLUSTER) ->
     fat_region c = false /\ fat1 c <> FAT_ENTRY_FREE) ->
  fs_write st path content = Done rep -> code rep = 0 ->
  fs_read (after rep) path = Done (0, content ++ [10]).
Proof.
  intros Hpath _ Hsize Hfind Hf Hattr Hnd Htrace Hw Hcode.
  destruct (find_regular_file _ _ _ Hfind Hf Hattr) as [Hne Hloop].
  destruct (fs_write_success _ _ _ _ _ Hfind Hw Hcode)
    as (fat1 & first' & stw & Hfree & Hwl & Hfat & Hpart).
  specialize (Htrace fat1).
  assert (Hlen : uint32 (Z.of_nat (length content)) = Z.of_nat (length content))
    by (apply uint32_small; lia).
  rewrite Hlen in Hwl, Hpart.
  pose proof (resolve_loop_parent_in_trace _ _ _ _ _ Hne Hloop Hf) as HPin.
  destruct (0 <? Z.of_nat (length content)) eqn:Hpos.
  - rewrite Nat2Z.id, firstn_all in Hwl.
    destruct (write_loop_top _ _ _ _ _ Hwl)
      as (cs & Hndcs & Hcs & Hkeep & Hdata & _ & Hfirst & Hout & Hrc).
    cbn [g_fat_table partition] in Hcs, Hkeep.
    destruct Hrc as [(_ & Hlencs & Hchain)|(Habs & _)]; [|discriminate].
    destruct (chunks_spec content) as [Hconcat Hws].
    apply (write_then_read_core st (after rep) path r stw first'
             (Z.of_nat (length content))); try assumption.
    + intros c Hc. destruct (Htrace c Hfree Hc) as [Hreg Hnz].
      split; [exact Hreg|]. apply Hkeep. intros Hin. apply Hnz. now apply Hcs.
    + subst first'. destruct cs as [|c0 cs']; [cbn; lia|].
      destruct (Hcs c0 (or_introl eq_refl)) as [Hd _].
      unfold data_cluster, DATA_CLUSTER_START, CLUSTER_COUNT in Hd. cbn [hd]. lia.
    + lia.
    + subst first'.
      pose proof (read_loop_chain (chunks content) cs
                    (read_fuel (Z.of_nat (length content))) (after rep)) as Hrd.
      rewrite Hconcat in Hrd. apply Hrd.
      * exact Hws.
      * exact Hlencs.
      * rewrite Hfat. exact Hchain.
      * intros k Hk. rewrite Hpart.
        assert (Hin : In (nth k cs 0) cs) by (now apply nth_In).
        destruct (Hcs _ Hin) as [Hd Hz].
        rewrite (data_cluster_not_fat_region _ Hd).
        rewrite upd_other; [now apply Hdata|].
        intros Heq. destruct (Htrace _ Hfree HPin) as [_ Hnz].
        apply Hnz. rewrite <- Heq. exact Hz.
      * apply chunks_fuel.
  - assert (Hnil : content = []).
    { apply Z.ltb_ge in Hpos. destruct content; [reflexivity|cbn in Hpos; lia]. }
    subst content. cbn [length Z.of_nat] in *.
    unfold store_fat in Hwl.
    destruct (find_free_cluster_spec fat1) as [[H0 _]|[Hd _]].
    + rewrite H0 in Hwl. cbn in Hwl. inversion Hwl; subst first' stw.
      apply (write_then_read_core st (after rep) path r
               (set_fat (mkState fat1 (partition st)) 0 FAT_ENTRY_EOF) 0 0);
        try assumption; try lia.
      * intros c Hc. destruct (Htrace c Hfree Hc) as [Hreg _]. auto.
      * apply read_loop_zero.
    + rewrite (data_cluster_in_table _ Hd) in Hwl. cbn [bind] in Hwl.
      inversion Hwl; subst first' stw.
      apply (write_then_read_core st (after rep) path r
               (set_fat (mkState fat1 (partition st)) (find_free_cluster fat1)
                        FAT_ENTRY_EOF) (find_free_cluster fat1) 0);
        try assumption; try lia.
      * intros c Hc. destruct (Htrace c Hfree Hc) as [Hreg _]. auto.
      * unfold data_cluster, DATA_CLUSTER_START, CLUSTER_COUNT in Hd. lia.
      * apply read_loop_zero.
Qed.

(** C1, as stated, fails.  After [mkdir /d], [create /d/x], [create /f],
    [write forged_entry /f] and [unlink /f/forged_entry] (all returning 0)
    cluster 10, the directory [/d], is free in the FAT.  [/d/x] still
    resolves to a regular file and [write "hello" /d/x] returns 0, but it
    allocates cluster 10 for the data and overwrites the directory, so the
    [read /d/x] that follows finds no entry [x] and fails without output. *)
Lemma write_then_read_fails_in_freed_directory :
  session_codes (free_directory_script
                   ++ [Write (bytes_of_string "hello") (bytes_of_string "/d/x")])
    = Done [0; 0; 0; 0; 0; 0]
  /\ (exists r,
        find_entry_by_path (session_state free_directory_script)
                           (bytes_of_string "/d/x") = Done (0, r)
        /\ found r = true /\ attributes (entry r) = ATTR_ARCHIVE)
  /\ fs_read (session_state
                (free_directory_script
                   ++ [Write (bytes_of_string "hello") (bytes_of_string "/d/x")]))
             (bytes_of_string "/d/x")
     = Done (-1, []).
Proof.
  split; [vm_compute; reflexivity|]. split.
  - eexists. split; [vm_compute; reflexivity|]. split; reflexivity.
  - vm_compute. reflexivity.
Qed.

Lemma c_string_bytes l : forallb (fun b => (0 <? b) && (b <? 256)) l = true -> c_string l.
Proof.
  intros H. apply Forall_forall. intros b Hb.
  rewrite forallb_forall in H. specialize (H b Hb).
  apply andb_true_iff in H. destruct H as [H1 H2].
  apply Z.ltb_lt in H1. apply Z.ltb_lt in H2. lia.
Qed.

Lemma Done_inj {A : Type} (a b : A) : Done a = Done b -> a = b.
Proof. intros H. inversion H. reflexivity. Qed.

Lemma write_then_read_witness :
  exists rep,
    fs_write (session_state hello_script) (bytes_of_string "/docs/hello.txt")
             (bytes_of_string "Hello, world!") = Done rep
    /\ fs_read (after rep) (bytes_of_string "/docs/hello.txt")
       = Done (0, bytes_of_string "Hello, world!" ++ [10]).
Proof.
  destruct (fs_write (session_state hello_script)
              (bytes_of_string "/docs/hello.txt")
              (bytes_of_string "Hello, world!")) as [rep| |] eqn:Hw.
  - exists rep. split; [reflexivity|].
    assert (Hcode : code rep = 0).
    { assert (H : observe code
                    (fs_write (session_state hello_script)
                       (bytes_of_string "/docs/hello.txt")
                       (bytes_of_string "Hello, world!")) = Done 0)
        by (vm_compute; reflexivity).
      rewrite Hw in H. cbn in H. congruence. }
    assert (Htr : resolve_trace (session_state hello_script)
                    (strtok_all (firstn 511 (bytes_of_string "/docs/hello.txt")))
                    ROOT_DIR_CLUSTER = [9; 10]) by (vm_compute; reflexivity).
    apply (write_then_read (session_state hello_script)
             (bytes_of_string "/docs/hello.txt")
             (bytes_of_string "Hello, world!")
             (mkResult (strncpy17 (bytes_of_string "hello.txt")) true 10 11 0
                (entry_at (partition (session_state hello_script) 10) 0))
             rep).
    + apply c_string_bytes. reflexivity.
    + apply c_string_bytes. reflexivity.
    + vm_compute. discriminate.
    + vm_compute. reflexivity.
    + reflexivity.
    + vm_compute. reflexivity.
    + rewrite Htr. repeat constructor; cbn; intuition discriminate.
    + intros fat1 c Hfree Hin. rewrite Htr in Hin.
      change (first_block
                (entry (mkResult (strncpy17 (bytes_of_string "hello.txt")) true
                          10 11 0
                          (entry_at (partition (session_state hello_script) 10) 0))))
        with (first_block (entry_at (partition (session_state hello_script) 10) 0))
        in Hfree.
      assert (Hfb : first_block
                      (entry_at (partition (session_state hello_script) 10) 0) = 11)
        by (vm_compute; reflexivity).
      rewrite Hfb in Hfree.
      rewrite free_cluster_chain_step in Hfree by reflexivity.
      assert (H11 : g_fat_table (session_state hello_script) 11 = FAT_ENTRY_EOF)
        by (vm_compute; reflexivity).
      rewrite H11, free_cluster_chain_stop in Hfree by reflexivity.
      apply Done_inj in Hfree. subst fat1.
      destruct Hin as [<-|[<-|[]]].
      * split; [reflexivity|vm_compute; discriminate].
      * split; [reflexivity|vm_compute; discriminate].
    + exact Hw.
    + exact Hcode.
  - exfalso.
    assert (H : observe code
                  (fs_write (session_state hello_script)
                     (bytes_of_string "/docs/hello.txt")
                     (bytes_of_string "Hello, world!")) = Done 0)
      by (vm_compute; reflexivity).
    rewrite Hw in H. discriminate.
  - exfalso.
    assert (H : observe code
                  (fs_write (session_state hello_script)
                     (bytes_of_string "/docs/hello.txt")
                     (bytes_of_string "Hello, world!")) = Done 0)
      by (vm_compute; reflexivity).
    rewrite Hw in H. discriminate.
Defined.

(** ** [fs_mkdir] and [fs_create] *)

(** What a successful [fs_mkdir] or [fs_create] did. *)
Lemma make_success directory st path rep :
  make directory st path = Done rep -> code rep = 0 ->
  exists parent_path new_name parent_info i new_cluster,
    split_path path = Done (Some (parent_path, new_name))
    /\ find_entry_by_path st parent_path = Done (0, parent_info)
    /\ found parent_info = true
    /\ attributes (entry parent_info) = ATTR_DIRECTORY
    /\ in_table (entry_cluster parent_info) = true
    /\ i = first_free_slot (partition st (entry_cluster parent_info))
                           (Z.to_nat DIR_ENTRIES_PER_CLUSTER) 0
    /\ 0 <= i
    /\ new_cluster = find_free_cluster (g_fat_table st)
    /\ data_cluster new_cluster
    /\ g_fat_table st new_cluster = FAT_ENTRY_FREE
    /\ g_fat_table (after rep) = upd (g_fat_table st) new_cluster FAT_ENTRY_EOF
    /\ forall c,
         partition (after rep) c =
         if fat_region c
         then fat_bytes (g_fat_table (after rep)) (c - FAT_CLUSTER_START)
         else if directory && (c =? new_cluster) then zero_buffer
         else upd (partition st) (entry_cluster parent_info)
                (fill_entry (partition st (entry_cluster parent_info)) i new_name
                   (if directory then ATTR_DIRECTORY else ATTR_ARCHIVE)
                   new_cluster) c.
Proof.
  intros Hm Hcode.
  assert (Hcommon :
    exists parent_path new_name parent_info,
      split_path path = Done (Some (parent_path, new_name))
      /\ find_entry_by_path st parent_path = Done (0, parent_info)
      /\ found parent_info = true
      /\ attributes (entry parent_info) = ATTR_DIRECTORY
      /\ (let '(free_entry_index, parent_cluster_data) :=
            find_free_dir_entry st (entry_cluster parent_info) in
          if free_entry_index <? 0 then fail DirectoryFull st
          else
            let new_cluster_idx := find_free_cluster (g_fat_table st) in
            if new_cluster_idx =? 0 then fail NoSpace st
            else
              let parent_cluster_data :=
                fill_entry parent_cluster_data free_entry_index new_name
                  (if directory then ATTR_DIRECTORY else ATTR_ARCHIVE)
                  new_cluster_idx in
              let st1 := set_fat st new_cluster_idx FAT_ENTRY_EOF in
              match write_cluster st1 (entry_cluster parent_info)
                                  parent_cluster_data with
              | None => fail IOError st1
              | Some st2 =>
                  if directory then
                    match write_cluster st2 new_cluster_idx zero_buffer with
                    | None => fail IOError st2
                    | Some st3 => persist_and_return st3
                    end
                  else persist_and_return st2
              end) = Done rep).
  { unfold make in Hm. destruct directory.
    - unfold fs_mkdir in Hm.
      destruct (split_path path) as [[[pp nn]|]| |]; cbn [bind] in Hm;
        try discriminate; [|inversion Hm; subst rep; discriminate].
      destruct (find_entry_by_path st pp) as [[rc pinfo]| |] eqn:Hfind;
        cbn [bind fst snd] in Hm; try discriminate.
      destruct (Z.eqb_spec rc 0) as [->|Hne];
        [|cbn in Hm; inversion Hm; subst rep; discriminate].
      destruct (found pinfo) eqn:Hfound;
        [|cbn in Hm; inversion Hm; subst rep; discriminate].
      cbn [negb orb] in Hm.
      destruct (Z.eqb_spec (attributes (entry pinfo)) ATTR_DIRECTORY) as [Hattr|Hne];
        [|cbn in Hm; inversion Hm; subst rep; discriminate].
      cbn [negb orb] in Hm.
      exists pp, nn, pinfo.
      repeat (split; [first [assumption | reflexivity]|]). exact Hm.
    - unfold fs_create in Hm.
      destruct (split_path path) as [[[pp nn]|]| |]; cbn [bind] in Hm;
        try discriminate; [|inversion Hm; subst rep; discriminate].
      destruct (find_entry_by_path st pp) as [[rc pinfo]| |] eqn:Hfind;
        cbn [bind fst snd] in Hm; try discriminate.
      destruct (Z.eqb_spec rc 0) as [->|Hne];
        [|cbn in Hm; inversion Hm; subst rep; discriminate].
      destruct (found pinfo) eqn:Hfound;
        [|cbn in Hm; inversion Hm; subst rep; discriminate].
      cbn [negb orb] in Hm.
      destruct (Z.eqb_spec (attributes (entry pinfo)) ATTR_DIRECTORY) as [Hattr|Hne];
        [|cbn in Hm; inversion Hm; subst rep; discriminate].
      cbn [negb orb] in Hm.
      exists pp, nn, pinfo.
      repeat (split; [first [assumption | reflexivity]|]). exact Hm. }
  destruct Hcommon as (pp & nn & pinfo & Hsp & Hfind & Hfound & Hattr & Hrest).
  exists pp, nn, pinfo.
  unfold find_free_dir_entry, read_cluster in Hrest.
  destruct (in_table (entry_cluster pinfo)) eqn:Htab;
    [|cbn in Hrest; inversion Hrest; subst rep; discriminate].
  set (i := first_free_slot (partition st (entry_cluster pinfo))
                            (Z.to_nat DIR_ENTRIES_PER_CLUSTER) 0) in *.
  destruct (Z.ltb_spec i 0) as [Hneg|Hi];
    [inversion Hrest; subst rep; discriminate|].
  cbv zeta in Hrest.
  destruct (find_free_cluster_spec (g_fat_table st)) as [[H0 _]|[Hd Hfree]].
  { rewrite H0 in Hrest. cbn in Hrest. inversion Hrest; subst rep. discriminate. }
  set (new := find_free_cluster (g_fat_table st)) in *.
  assert (Hnz : (new =? 0) = false).
  { apply Z.eqb_neq. unfold data_cluster, DATA_CLUSTER_START in Hd. lia. }
  rewrite Hnz in Hrest.
  rewrite write_cluster_in in Hrest by exact Htab.
  exists i, new.
  repeat (split; [first [assumption | reflexivity]|]).
  destruct directory.
  - rewrite write_cluster_in in Hrest by (now apply data_cluster_in_table).
    match type of Hrest with
    | persist_and_return ?s = _ =>
        destruct (persist_and_return_spec s) as (st4 & Hp & Hfat & Hpart)
    end.
    rewrite Hp in Hrest. apply Done_inj in Hrest. subst rep. cbn [after].
    split; [exact Hfat|]. intros c. rewrite Hpart, Hfat.
    cbn [partition g_fat_table set_fat andb].
    destruct (fat_region c); [reflexivity|].
    unfold upd at 1. destruct (c =? new); reflexivity.
  - match type of Hrest with
    | persist_and_return ?s = _ =>
        destruct (persist_and_return_spec s) as (st4 & Hp & Hfat & Hpart)
    end.
    rewrite Hp in Hrest. apply Done_inj in Hrest. subst rep. cbn [after].
    split; [exact Hfat|]. intros c. rewrite Hpart, Hfat.
    cbn [partition g_fat_table set_fat andb].
    destruct (fat_region c); reflexivity.
Qed.

Lemma first_free_slot_range buf n : forall i,
  let s := first_free_slot buf n i in
  s = -2 \/ (i <= s < i + Z.of_nat n /\ buf (slot_offset s) = 0).
Proof.
  induction n as [|n IH]; intros i; cbn [first_free_slot]; [now left|].
  destruct (Z.eqb_spec (buf (slot_offset i)) 0) as [Hz|Hnz].
  - right. split; [lia|exact Hz].
  - destruct (IH (i + 1)) as [H|[H1 H2]]; [now left|]. right. split; [lia|exact H2].
Qed.

Lemma strncpy17_length src : length (strncpy17 src) = 18%nat.
Proof.
  unfold strncpy17. rewrite !length_app, repeat_length. cbn [length].
  pose proof (firstn_le_length 17 src). lia.
Qed.

Lemma strncpy17_long src :
  (17 <= length src)%nat -> strncpy17 src = firstn 17 src ++ [0].
Proof.
  intros H. unfold strncpy17. rewrite length_firstn.
  replace (17 - Nat.min 17 (length src))%nat with O by lia. reflexivity.
Qed.

(** The bytes of the slot filled by [fs_mkdir] / [fs_create]: the name
    field holds the 18 bytes of [strncpy17]; other slots are untouched. *)
Lemma fill_entry_name buf i new_name attr new k :
  0 <= k < 18 ->
  fill_entry buf i new_name attr new (slot_offset i + k)
  = nth (Z.to_nat k) (strncpy17 new_name) 0.
Proof.
  intros Hk. unfold fill_entry. cbv zeta.
  rewrite !poke_out by (cbn [length bytes_le16 bytes_le32]; lia).
  rewrite poke_in by (rewrite strncpy17_length; lia). f_equal. lia.
Qed.

Lemma fill_entry_other buf i new_name attr new off :
  ~ (slot_offset i <= off < slot_offset i + 32) ->
  fill_entry buf i new_name attr new off = buf off.
Proof.
  intros H. unfold fill_entry. cbv zeta.
  rewrite !poke_out; [reflexivity| | | |];
    try rewrite strncpy17_length; cbn [length bytes_le16 bytes_le32]; lia.
Qed.

Lemma fill_entry_stored buf i new_name attr new :
  bytes_at (fill_entry buf i new_name attr new) (slot_offset i) 18
  = strncpy17 new_name.
Proof.
  apply nth_ext with (d := 0) (d' := 0).
  - unfold bytes_at. now rewrite length_map, length_seq, strncpy17_length.
  - intros n Hn. unfold bytes_at in *. rewrite length_map, length_seq in Hn.
    set (f := fun k => fill_entry buf i new_name attr new
                         (slot_offset i + Z.of_nat k)).
    rewrite (nth_indep _ 0 (f O)) by (now rewrite length_map, length_seq).
    rewrite (map_nth f), seq_nth by exact Hn. unfold f.
    rewrite fill_entry_name by lia. f_equal. lia.
Qed.

Lemma fill_entry_names_terminated buf i new_name attr new :
  0 <= i < DIR_ENTRIES_PER_CLUSTER ->
  names_terminated buf ->
  names_terminated (fill_entry buf i new_name attr new).
Proof.
  intros Hi Hnt s Hs Hocc. destruct (Z.eq_dec s i) as [->|Hne].
  - exists 17. split; [lia|]. rewrite fill_entry_name by lia.
    unfold strncpy17. rewrite app_assoc, app_nth2;
      rewrite length_app, repeat_length;
      pose proof (firstn_le_length 17 new_name) as Hl.
    + replace (Z.to_nat 17 - (length (firstn 17 new_name)
                              + (17 - length (firstn 17 new_name))))%nat
        with O by lia. reflexivity.
    + lia.
  - assert (Hout : forall k, 0 <= k < 18 ->
                     ~ (slot_offset i <= slot_offset s + k < slot_offset i + 32)).
    { intros k Hk. unfold slot_offset, DIR_ENTRY_SIZE. lia. }
    rewrite <- (Z.add_0_r (slot_offset s)) in Hocc.
    rewrite fill_entry_other in Hocc by (apply Hout; lia).
    rewrite Z.add_0_r in Hocc.
    destruct (Hnt s Hs Hocc) as (k & Hk & Hz).
    exists k. split; [exact Hk|]. rewrite fill_entry_other by (now apply Hout).
    exact Hz.
Qed.

(** A name that ends within 18 bytes never equals a longer component. *)
Lemma strcmp_at_long_false buf token : forall off k,
  c_string token -> 0 <= k < Z.of_nat (length token) ->
  buf (off + k) = 0 -> off + k < CLUSTER_SIZE ->
  strcmp_at buf off token = Done false.
Proof.
  induction token as [|t token IH]; intros off k Hcs Hk Hz Hin;
    [cbn in Hk; lia|].
  cbn [strcmp_at]. inversion Hcs as [|? ? Ht Hcs']; subst.
  destruct (Z.ltb_spec off CLUSTER_SIZE); [|lia].
  destruct (Z.eqb_spec (buf off) t) as [Heq|Hne]; [|reflexivity].
  destruct (Z.eq_dec k 0) as [->|Hk0].
  - rewrite Z.add_0_r in Hz. lia.
  - apply (IH (off + 1) (k - 1)); [exact Hcs'| | |].
    + cbn [length] in Hk. lia.
    + rewrite <- Hz. f_equal. lia.
    + lia.
Qed.

Lemma scan_dir_long_none buf token n : forall i,
  c_string token -> 17 < Z.of_nat (length token) ->
  names_terminated buf ->
  0 <= i -> i + Z.of_nat n <= DIR_ENTRIES_PER_CLUSTER ->
  scan_dir buf token n i = Done None.
Proof.
  induction n as [|n IH]; intros i Hcs Hlen Hnt Hi Hn; [reflexivity|].
  rewrite scan_dir_S.
  assert (HIH : scan_dir buf token n (i + 1) = Done None)
    by (apply IH; try assumption; lia).
  destruct (Z.eqb_spec (buf (slot_offset i)) 0) as [Hz|Hnz]; cbn [negb];
    [exact HIH|].
  destruct (Hnt i ltac:(lia) Hnz) as (k & Hk & Hzk).
  assert (Hin : slot_offset i + k < CLUSTER_SIZE).
  { unfold slot_offset, DIR_ENTRY_SIZE, CLUSTER_SIZE, DIR_ENTRIES_PER_CLUSTER in *.
    lia. }
  assert (Hk' : 0 <= k < Z.of_nat (length token)) by lia.
  rewrite (strcmp_at_long_false buf token (slot_offset i) k Hcs Hk' Hzk Hin).
  cbn [bind]. exact HIH.
Qed.

(** ** Splitting a path *)

Lemma strrchr_none s c : strrchr s c = None -> ~ In c s.
Proof.
  induction s as [|x s IH]; intros H; [intros []|].
  cbn [strrchr] in H. destruct (strrchr s c); [discriminate|].
  destruct (Z.eqb_spec x c); [discriminate|].
  intros [Hx|Hin]; [congruence|]. now apply IH.
Qed.

Lemma strrchr_some s c : forall k,
  strrchr s c = Some k ->
  s = firstn k s ++ c :: skipn (S k) s /\ ~ In c (skipn (S k) s).
Proof.
  induction s as [|x s IH]; intros k H; [discriminate|].
  cbn [strrchr] in H. destruct (strrchr s c) as [k'|] eqn:Hs.
  - inversion H; subst k. destruct (IH k' eq_refl) as [Heq Hnin].
    cbn [firstn skipn app]. split; [|exact Hnin].
    f_equal. exact Heq.
  - destruct (Z.eqb_spec x c) as [->|]; [|discriminate].
    inversion H; subst k. cbn [firstn skipn app]. split; [reflexivity|].
    now apply strrchr_none.
Qed.

Lemma split_on_nonempty sep s : split_on sep s <> [].
Proof.
  destruct s as [|c s]; cbn [split_on]; [discriminate|].
  destruct (c =? sep); [discriminate|].
  destruct (split_on sep s); discriminate.
Qed.

Lemma split_on_app sep a b :
  split_on sep (a ++ sep :: b) = split_on sep a ++ split_on sep b.
Proof.
  induction a as [|x a IH]; cbn [app split_on].
  - now rewrite Z.eqb_refl.
  - destruct (x =? sep); [now rewrite IH|].
    rewrite IH. pose proof (split_on_nonempty sep a) as Hne.
    destruct (split_on sep a); [congruence|reflexivity].
Qed.

Lemma split_on_no_sep sep b : ~ In sep b -> split_on sep b = [b].
Proof.
  induction b as [|x b IH]; intros H; [reflexivity|].
  cbn [split_on]. destruct (Z.eqb_spec x sep) as [->|Hne].
  - exfalso. apply H. now left.
  - rewrite IH; [reflexivity|]. intros Hin. apply H. now right.
Qed.

Lemma strtok_all_snoc a b :
  ~ In SLASH b -> b <> [] -> strtok_all (a ++ SLASH :: b) = strtok_all a ++ [b].
Proof.
  intros Hb Hne. unfold strtok_all.
  rewrite split_on_app, filter_app, (split_on_no_sep SLASH b Hb).
  f_equal. cbn [filter]. destruct b; [congruence|reflexivity].
Qed.

(** The components of a path accepted by [split_path] are those of its
    parent followed by the new name. *)
Lemma split_path_tokens path parent_path new_name :
  split_path path = Done (Some (parent_path, new_name)) -> new_name <> [] ->
  strtok_all (firstn 511 path)
  = strtok_all (firstn 511 parent_path) ++ [new_name]
  /\ forall b, In b new_name -> In b path.
Proof.
  unfold split_path. intros H Hne.
  destruct (Z.leb_spec 511 (Z.of_nat (length path))) as [|Hlen]; [discriminate|].
  destruct (strrchr path SLASH) as [k|] eqn:Hk; [|discriminate].
  destruct (strrchr_some _ _ _ Hk) as [Hpath Hnin].
  rewrite (firstn_all2 (n := 511) path) by lia.
  destruct k as [|k]; apply Done_inj in H; injection H as Hpp Hnn;
    subst parent_path new_name.
  - cbn [firstn app] in Hpath. split.
    + rewrite Hpath at 1.
      change (SLASH :: skipn 1 path) with ([] ++ SLASH :: skipn 1 path).
      rewrite strtok_all_snoc by assumption. reflexivity.
    + intros b Hb. rewrite Hpath. now right.
  - change (match path with [] => [] | a :: l => a :: firstn k l end)
      with (firstn (S k) path) in *.
    change (match path with _ :: _ :: l0 => skipn k l0 | _ => [] end)
      with (skipn (S (S k)) path) in *.
    split.
    + rewrite (firstn_all2 (n := 511) (firstn (S k) path))
        by (rewrite length_firstn; lia).
      rewrite Hpath at 1. now apply strtok_all_snoc.
    + intros b Hb. rewrite Hpath. apply in_or_app. right. now right.
Qed.

Lemma resolve_loop_same st st' tokens : forall current result,
  (forall c, In c (resolve_trace st tokens current) ->
             partition st' c = partition st c) ->
  resolve_loop st' tokens current result = resolve_loop st tokens current result.
Proof.
  induction tokens as [|token rest IH]; intros current result Hsame;
    [reflexivity|].
  rewrite !resolve_loop_cons. cbv zeta.
  rewrite resolve_trace_cons in Hsame.
  unfold read_cluster in *. rewrite (Hsame current (or_introl eq_refl)).
  destruct (in_table current); [|reflexivity].
  destruct (scan_dir (partition st current) token
              (Z.to_nat DIR_ENTRIES_PER_CLUSTER) 0) as [[i|]| |];
    cbn [bind]; try reflexivity.
  apply IH. intros c Hc. apply Hsame. now right.
Qed.

Lemma resolve_loop_app st ts more : forall current result r1,
  ts <> [] ->
  resolve_loop st ts current result = Done (0, r1) -> found r1 = true ->
  resolve_loop st (ts ++ more) current result =
  resolve_loop st more (entry_cluster r1)
    (mkResult (name r1) (found result) (parent_cluster r1) (entry_cluster r1)
              (entry_index r1) (entry r1)).
Proof.
  induction ts as [|t rest IH]; intros current result r1 Hne Hres Hf;
    [congruence|].
  change ((t :: rest) ++ more) with (t :: (rest ++ more)).
  rewrite resolve_loop_cons in *. cbv zeta in *.
  destruct (read_cluster st current) as [buf|]; [|discriminate].
  destruct (scan_dir buf t (Z.to_nat DIR_ENTRIES_PER_CLUSTER) 0)
    as [[i|]| |]; cbn [bind] in *; try discriminate.
  - destruct rest as [|t2 rest'].
    + rewrite resolve_loop_nil in Hres. apply Done_inj in Hres.
      injection Hres as <-. reflexivity.
    + assert (Hne' : t2 :: rest' <> []) by discriminate.
      rewrite (IH _ _ r1 Hne' Hres Hf). reflexivity.
  - apply Done_inj in Hres. injection Hres as <-. discriminate.
Qed.

(** The last step of a lookup whose final component is longer than any
    stored name. *)
Lemma resolve_last_long st c token result :
  in_table c = true -> c_string token -> 17 < Z.of_nat (length token) ->
  names_terminated (partition st c) ->
  exists r, resolve_loop st [token] c result = Done (0, r) /\ found r = false.
Proof.
  intros Htab Hcs Hlen Hnt. rewrite resolve_loop_cons. cbv zeta.
  unfold read_cluster. rewrite Htab.
  rewrite scan_dir_long_none; try assumption.
  - cbn [bind]. eexists. split; reflexivity.
  - lia.
  - unfold DIR_ENTRIES_PER_CLUSTER. lia.
Qed.

(** C10 (amended): let [mkdir] or [create] succeed on a path whose final
    component is longer than 17 bytes, in a parent directory whose cluster
    is in use, outside the FAT region, not among the clusters searched for
    the parent path (themselves distinct, in use and outside the FAT
    region), and whose occupied slots hold names ending within their 18
    bytes.  Then the slot written holds the first 17 bytes of the name
    followed by NUL, and a lookup of the original path returns
    found = false. *)
Theorem long_name_is_truncated (directory : bool) (st : fs_state)
    (path parent_path new_name : list Z) (parent_info : path_search_result_t)
    (rep : reply) :
  c_string path ->
  split_path path = Done (Some (parent_path, new_name)) ->
  17 < Z.of_nat (length new_name) ->
  find_entry_by_path st parent_path = Done (0, parent_info) ->
  NoDup (resolve_trace st (strtok_all (firstn 511 parent_path)) ROOT_DIR_CLUSTER
         ++ [entry_cluster parent_info]) ->
  (forall c,
     In c (resolve_trace st (strtok_all (firstn 511 parent_path)) ROOT_DIR_CLUSTER
           ++ [entry_cluster parent_info]) ->
     fat_region c = false /\ g_fat_table st c <> FAT_ENTRY_FREE) ->
  names_terminated (partition st (entry_cluster parent_info)) ->
  make directory st path = Done rep -> code rep = 0 ->
  (exists i,
     0 <= i < DIR_ENTRIES_PER_CLUSTER
     /\ bytes_at (partition (after rep) (entry_cluster parent_info))
                 (slot_offset i) 18
        = firstn 17 new_name ++ [0])
  /\ exists r,
       find_entry_by_path (after rep) path = Done (0, r) /\ found r = false.
Proof.
  intros Hpath Hsp Hlen Hfind Hnd Htrace Hnt Hm Hcode.
  destruct (make_success _ _ _ _ Hm Hcode)
    as (pp & nn & pinfo & i & new & Hsp' & Hfind' & Hfound & Hattr & Htab & Hi
        & Hi0 & Hnew & Hd & Hfree & Hfat & Hpart).
  rewrite Hsp in Hsp'. apply Done_inj in Hsp'. injection Hsp' as <- <-.
  rewrite Hfind in Hfind'. apply Done_inj in Hfind'. injection Hfind' as <-.
  set (c := entry_cluster parent_info) in *.
  set (tp := strtok_all (firstn 511 parent_path)) in *.
  assert (Hne : new_name <> []) by (destruct new_name; [cbn in Hlen; lia|discriminate]).
  destruct (split_path_tokens _ _ _ Hsp Hne) as [Htok Hin]. fold tp in Htok.
  assert (Hcs : c_string new_name).
  { apply Forall_forall. intros b Hb. unfold c_string in Hpath.
    rewrite Forall_forall in Hpath. apply Hpath. now apply Hin. }
  assert (Hc : fat_region c = false /\ g_fat_table st c <> FAT_ENTRY_FREE).
  { apply Htrace. apply in_or_app. right. now left. }
  destruct Hc as [Hcreg Hcused].
  assert (Hcnew : (c =? new) = false).
  { apply Z.eqb_neq. intros Heq. apply Hcused. rewrite Heq. exact Hfree. }
  assert (Hi32 : 0 <= i < DIR_ENTRIES_PER_CLUSTER).
  { destruct (first_free_slot_range (partition st c)
                (Z.to_nat DIR_ENTRIES_PER_CLUSTER) 0) as [H|[H _]];
      rewrite <- Hi in H; unfold DIR_ENTRIES_PER_CLUSTER in *; lia. }
  assert (Hc' : partition (after rep) c
                = fill_entry (partition st c) i new_name
                    (if directory then ATTR_DIRECTORY else ATTR_ARCHIVE) new).
  { rewrite Hpart, Hcreg, Hcnew, andb_false_r. apply upd_same. }
  split.
  - exists i. split; [exact Hi32|].
    rewrite Hc', fill_entry_stored. apply strncpy17_long. lia.
  - assert (Hlast : forall result,
              exists r, resolve_loop (after rep) [new_name] c result = Done (0, r)
                        /\ found r = false).
    { intros result. apply resolve_last_long; try assumption.
      rewrite Hc'. now apply fill_entry_names_terminated. }
    rewrite find_entry_by_path_loop
      by (rewrite Htok; intros Habs; apply app_eq_nil in Habs;
          destruct Habs; discriminate).
    rewrite Htok.
    unfold find_entry_by_path in Hfind. cbv zeta in Hfind. fold tp in Hfind.
    destruct (list_eqb (firstn 511 parent_path) [SLASH]) eqn:Hroot.
    + apply list_eqb_true in Hroot.
      assert (Htp : tp = []) by (unfold tp; rewrite Hroot; reflexivity).
      apply Done_inj in Hfind. injection Hfind as Hpi.
      assert (Hc9 : c = ROOT_DIR_CLUSTER) by (unfold c; rewrite <- Hpi; reflexivity).
      rewrite Htp. cbn [app]. rewrite <- Hc9. apply Hlast.
    + destruct tp as [|t ts] eqn:Htp.
      * apply Done_inj in Hfind. injection Hfind as Hpi.
        rewrite <- Hpi in Hfound. discriminate.
      * assert (Hne' : t :: ts <> []) by discriminate.
        assert (Hsame : resolve_loop (after rep) (t :: ts) ROOT_DIR_CLUSTER
                          initial_result = Done (0, parent_info)).
        { rewrite <- Hfind. apply resolve_loop_same. intros x Hx.
          assert (Hx' : In x (resolve_trace st (t :: ts) ROOT_DIR_CLUSTER ++ [c]))
            by (apply in_or_app; now left).
          destruct (Htrace x Hx') as [Hxreg Hxused].
          rewrite Hpart, Hxreg.
          assert (Hxnew : (x =? new) = false).
          { apply Z.eqb_neq. intros Heq. apply Hxused. rewrite Heq. exact Hfree. }
          rewrite Hxnew, andb_false_r. apply upd_other.
          intros Heq. apply NoDup_remove_2 in Hnd. apply Hnd.
          rewrite app_nil_r. rewrite <- Heq. exact Hx. }
        rewrite (resolve_loop_app (after rep) (t :: ts) [new_name]
                   ROOT_DIR_CLUSTER initial_result parent_info Hne' Hsame Hfound).
        apply Hlast.
Qed.

Lemma long_name_is_truncated_witness :
  exists rep,
    make false (state_of fresh) (bytes_of_string "/" ++ long_name) = Done rep
    /\ (exists i,
          0 <= i < DIR_ENTRIES_PER_CLUSTER
          /\ bytes_at (partition (after rep) (entry_cluster root_result))
                      (slot_offset i) 18
             = firstn 17 long_name ++ [0])
    /\ exists r,
         find_entry_by_path (after rep) (bytes_of_string "/" ++ long_name)
           = Done (0, r)
         /\ found r = false.
Proof.
  destruct (make false (state_of fresh) (bytes_of_string "/" ++ long_name))
    as [rep| |] eqn:Hm.
  - exists rep. split; [reflexivity|].
    assert (Hcode : code rep = 0).
    { assert (H : observe code
                    (make false (state_of fresh)
                       (bytes_of_string "/" ++ long_name)) = Done 0)
        by (vm_compute; reflexivity).
      rewrite Hm in H. cbn in H. congruence. }
    apply (long_name_is_truncated false (state_of fresh)
             (bytes_of_string "/" ++ long_name) [SLASH] long_name root_result rep).
    + apply c_string_bytes. reflexivity.
    + vm_compute. reflexivity.
    + vm_compute. reflexivity.
    + reflexivity.
    + vm_compute. repeat constructor. intros [].
    + intros c Hc. vm_compute in Hc. destruct Hc as [<-|[]].
      split; vm_compute; congruence.
    + intros s Hs Hocc. exfalso. apply Hocc. vm_compute. reflexivity.
    + exact Hm.
    + exact Hcode.
  - exfalso.
    assert (H : observe code
                  (make false (state_of fresh)
                     (bytes_of_string "/" ++ long_name)) = Done 0)
      by (vm_compute; reflexivity).
    rewrite Hm in H. discriminate.
  - exfalso.
    assert (H : observe code
                  (make false (state_of fresh)
                     (bytes_of_string "/" ++ long_name)) = Done 0)
      by (vm_compute; reflexivity).
    rewrite Hm in H. discriminate.
Defined.

(** C10, as stated, fails.  With the cluster of [/d] freed and then reused
    for the data of [/g], slot 0 of that cluster spells the 20 bytes of
    [long_name].  [create /d/long_name] returns 0 and stores the name cut
    to 17 bytes in slot 1, yet the lookup of the original path returns
    found = true: the comparison runs over the raw bytes of slot 0. *)
Lemma long_name_found_in_file_bytes :
  session_codes long_name_script = Done [0; 0; 0; 0; 0; 0; 0; 0]
  /\ bytes_at (partition (session_state long_name_script) 10) (slot_offset 1) 18
     = firstn 17 long_name ++ [0]
  /\ exists r,
       find_entry_by_path (session_state long_name_script)
                          (bytes_of_string "/d/" ++ long_name) = Done (0, r)
       /\ found r = true.
Proof.
  split; [vm_compute; reflexivity|]. split; [vm_compute; reflexivity|].
  eexists. split; [vm_compute; reflexivity|reflexivity].
Qed.

(** ** The bytes of a file *)

Lemma map_seq_offset {A : Type} (f : nat -> A) m : forall a,
  map f (seq a m) = map (fun j => f (a + j)%nat) (seq 0 m).
Proof.
  induction m as [|m IH]; intros a; [reflexivity|].
  cbn [seq map]. rewrite Nat.add_0_r. f_equal.
  rewrite (IH (S a)). rewrite <- seq_shift, map_map. apply map_ext.
  intros j. f_equal. lia.
Qed.

Lemma div_small_cluster p : 0 <= p < CLUSTER_SIZE -> p / CLUSTER_SIZE = 0.
Proof. intros H. now apply Z.div_small. Qed.

Lemma file_bytes_first st c cs n :
  (n <= 1024)%nat ->
  file_bytes st (c :: cs) n = bytes_at (partition st c) 0 n.
Proof.
  intros Hn. unfold file_bytes, bytes_at. apply map_ext_in. intros k Hk.
  apply in_seq in Hk. unfold file_byte.
  rewrite div_small_cluster by (unfold CLUSTER_SIZE; lia).
  rewrite Z.mod_small by (unfold CLUSTER_SIZE; lia). reflexivity.
Qed.

Lemma file_byte_cons st c cs p :
  0 <= p -> file_byte st (c :: cs) (CLUSTER_SIZE + p) = file_byte st cs p.
Proof.
  intros Hp. unfold file_byte, CLUSTER_SIZE.
  replace ((1024 + p) / 1024) with (1 + p / 1024)
    by (Z.div_mod_to_equations; lia).
  replace ((1024 + p) mod 1024) with (p mod 1024)
    by (Z.div_mod_to_equations; lia).
  replace (Z.to_nat (1 + p / 1024)) with (S (Z.to_nat (p / 1024))).
  - reflexivity.
  - assert (0 <= p / 1024) by (apply Z.div_pos; lia). lia.
Qed.

Lemma file_bytes_cons st c cs n :
  (1024 <= n)%nat ->
  file_bytes st (c :: cs) n
  = bytes_at (partition st c) 0 1024 ++ file_bytes st cs (n - 1024).
Proof.
  intros Hn. unfold file_bytes at 1.
  replace n with (1024 + (n - 1024))%nat at 1 by lia.
  rewrite seq_app, map_app.
  rewrite <- (file_bytes_first st c cs 1024) by apply Nat.le_refl.
  apply f_equal.
  rewrite map_seq_offset. unfold file_bytes. apply map_ext. intros j.
  rewrite Nat.add_0_l, Nat2Z.inj_add. apply (file_byte_cons st c cs).
  lia.
Qed.

(** [fs_read] along a chain emits the first [n] bytes of the file. *)
Lemma read_loop_file cs : forall fuel st n,
  0 <= n <= CLUSTER_SIZE * Z.of_nat (length cs) ->
  n <= CLUSTER_SIZE * Z.of_nat fuel ->
  chain_at (g_fat_table st) cs FAT_ENTRY_EOF ->
  read_loop fuel st (hd 0 cs) n
  = Done (0, file_bytes st cs (Z.to_nat n) ++ [10]).
Proof.
  unfold CLUSTER_SIZE.
  induction cs as [|c cs IH]; intros fuel st n Hn Hfuel Hch.
  - cbn [length] in Hn. assert (n = 0) by lia. subst n. apply read_loop_zero.
  - destruct (Z.eq_dec n 0) as [->|Hnz]; [apply read_loop_zero|].
    destruct fuel as [|fuel]; [lia|].
    assert (Hc : chain_continues c = true /\ in_table c = true
                 /\ g_fat_table st c
                    = match cs with [] => FAT_ENTRY_EOF | c' :: _ => c' end
                 /\ chain_at (g_fat_table st) cs FAT_ENTRY_EOF) by exact Hch.
    destruct Hc as (Hcont & Hin & Hlink & Hch').
    cbn [hd]. rewrite read_loop_S.
    assert (Hlt : (c <? FAT_ENTRY_EOF) = true).
    { unfold chain_continues in Hcont. apply andb_true_iff in Hcont. tauto. }
    assert (Hpos : (0 <? n) = true) by (apply Z.ltb_lt; lia).
    rewrite Hpos, Hlt. cbn [andb]. unfold read_cluster. rewrite Hin.
    unfold CLUSTER_SIZE.
    destruct (Z.leb_spec n 1024) as [Hle|Hgt].
    + replace (n >? 1024) with false
        by (symmetry; rewrite Z.gtb_ltb; apply Z.ltb_ge; lia).
      rewrite Z.sub_diag, read_loop_zero. cbn [bind fst snd].
      rewrite file_bytes_first by lia. reflexivity.
    + replace (n >? 1024) with true
        by (symmetry; rewrite Z.gtb_ltb; apply Z.ltb_lt; lia).
      destruct cs as [|c' cs']; [cbn [length] in Hn; lia|].
      rewrite Hlink.
      assert (HIH : read_loop fuel st c' (n - 1024)
                    = Done (0, file_bytes st (c' :: cs') (Z.to_nat (n - 1024))
                               ++ [10])).
      { apply (IH fuel st (n - 1024)); [|lia|exact Hch'].
        cbn [length] in *. lia. }
      rewrite HIH. cbn [bind fst snd].
      rewrite (file_bytes_cons st c (c' :: cs') (Z.to_nat n)) by lia.
      rewrite <- app_assoc. change (Z.to_nat 1024) with 1024%nat.
      replace (Z.to_nat n - 1024)%nat with (Z.to_nat (n - 1024)) by lia.
      reflexivity.
Qed.

(** ** Chains and the walk of [fs_append] *)

Lemma chain_at_in fat cs v c :
  chain_at fat cs v -> In c cs ->
  chain_continues c = true /\ in_table c = true.
Proof.
  induction cs as [|a cs IH]; intros Hch Hin; [destruct Hin|].
  destruct Hch as (Hc & Hi & _ & Hrest).
  destruct Hin as [<-|Hin]; [split; assumption|now apply IH].
Qed.

Lemma chain_at_length fat cs v :
  chain_at fat cs v -> NoDup cs -> (length cs <= 4096)%nat.
Proof.
  intros Hch Hnd.
  replace 4096%nat with (length table_indices)
    by (unfold table_indices; now rewrite length_map, length_seq).
  apply NoDup_incl_length; [exact Hnd|].
  intros c Hc. apply in_table_indices.
  now destruct (chain_at_in _ _ _ _ Hch Hc).
Qed.

Lemma walk_to_tail_S fuel fat c :
  walk_to_tail (S fuel) fat c =
  if in_table c then
    if fat c =? FAT_ENTRY_EOF then Done c else walk_to_tail fuel fat (fat c)
  else Undef.
Proof. reflexivity. Qed.

Lemma walk_to_tail_eof fuel fat c :
  in_table c = true -> fat c = FAT_ENTRY_EOF ->
  walk_to_tail fuel fat c = Done c.
Proof.
  intros Hin Heof. destruct fuel; cbn [walk_to_tail];
    rewrite Hin, Heof; reflexivity.
Qed.

(** The walk to the tail of a chain ends on its last cluster. *)
Lemma walk_to_tail_chain fat cs : forall fuel,
  cs <> [] -> chain_at fat cs FAT_ENTRY_EOF -> (length cs <= S fuel)%nat ->
  walk_to_tail fuel fat (hd 0 cs) = Done (last cs 0).
Proof.
  induction cs as [|c cs IH]; intros fuel Hne Hch Hlen; [congruence|].
  destruct cs as [|c' cs'].
  - destruct Hch as (_ & Hin & Heof & _). cbn [hd last].
    now apply walk_to_tail_eof.
  - apply chain_at_cons2 in Hch. destruct Hch as (_ & Hin & Hlink & Hch').
    destruct fuel as [|fuel]; [cbn [length] in Hlen; lia|].
    cbn [hd]. rewrite walk_to_tail_S, Hin, Hlink.
    assert (Hc' : chain_continues c' = true) by (now destruct Hch').
    assert (Hneq : (c' =? FAT_ENTRY_EOF) = false).
    { unfold chain_continues in Hc'. apply andb_true_iff in Hc'.
      destruct Hc' as [_ Hlt]. apply Z.ltb_lt in Hlt. apply Z.eqb_neq. lia. }
    rewrite Hneq.
    change (last (c :: c' :: cs') 0) with (last (c' :: cs') 0).
    change c' with (hd 0 (c' :: cs')) at 1.
    apply IH; [discriminate|exact Hch'|cbn [length] in *; lia].
Qed.

(** ** The main loop of [fs_append] *)

Lemma append_loop_last st slice cur buf off :
  in_table cur = true ->
  append_loop st [slice] cur buf off =
  Done (0, mkState (g_fat_table st)
                   (upd (partition st) cur (poke buf off slice))).
Proof.
  intros Hin. cbn [append_loop]. now rewrite write_cluster_in by exact Hin.
Qed.

Lemma append_loop_full st slice s2 rest cur buf off :
  in_table cur = true -> find_free_cluster (g_fat_table st) = 0 ->
  append_loop st (slice :: s2 :: rest) cur buf off =
  Done (-1, mkState (g_fat_table st)
                    (upd (partition st) cur (poke buf off slice))).
Proof.
  intros Hin H0. cbn [append_loop]. rewrite write_cluster_in by exact Hin.
  cbv zeta. cbn [g_fat_table]. now rewrite H0.
Qed.

Lemma append_loop_more st slice s2 rest cur buf off :
  in_table cur = true -> find_free_cluster (g_fat_table st) <> 0 ->
  append_loop st (slice :: s2 :: rest) cur buf off =
  append_loop
    (mkState (upd (upd (g_fat_table st) cur (find_free_cluster (g_fat_table st)))
                  (find_free_cluster (g_fat_table st)) FAT_ENTRY_EOF)
             (upd (partition st) cur (poke buf off slice)))
    (s2 :: rest) (find_free_cluster (g_fat_table st)) zero_buffer 0.
Proof.
  intros Hin Hnz. cbn [append_loop]. rewrite write_cluster_in by exact Hin.
  cbv zeta. cbn [g_fat_table].
  destruct (Z.eqb_spec (find_free_cluster (g_fat_table st)) 0);
    [contradiction|].
  unfold store_fat. rewrite Hin. reflexivity.
Qed.

(** What a successful run of the loop leaves behind: the clusters [more] it
    allocated, linked after the cluster it started on, each holding its
    slice on disk. *)
Lemma append_loop_gen rest : forall st front cur buf off slice st',
  chain_at (g_fat_table st) (front ++ [cur]) FAT_ENTRY_EOF ->
  NoDup (front ++ [cur]) ->
  append_loop st (slice :: rest) cur buf off = Done (0, st') ->
  exists more,
    length more = length rest
    /\ (forall c, In c more ->
                  data_cluster c /\ g_fat_table st c = FAT_ENTRY_FREE)
    /\ NoDup more
    /\ chain_at (g_fat_table st') (front ++ cur :: more) FAT_ENTRY_EOF
    /\ partition st' cur = poke buf off slice
    /\ (forall k, (k < length more)%nat ->
                  partition st' (nth k more 0)
                  = poke zero_buffer 0 (nth k rest []))
    /\ (forall c, c <> cur -> ~ In c more -> partition st' c = partition st c).
Proof.
  induction rest as [|s2 rest IH];
    intros st front cur buf off slice st' Hch Hnd Hloop.
  - assert (Hin : in_table cur = true).
    { apply (chain_at_in _ _ _ cur Hch). apply in_or_app. right. now left. }
    rewrite append_loop_last in Hloop by exact Hin.
    apply Done_inj in Hloop. apply (f_equal snd) in Hloop. cbn [snd] in Hloop.
    subst st'. exists []. cbn [partition g_fat_table length].
    split; [reflexivity|]. split; [intros c []|]. split; [constructor|].
    split; [exact Hch|]. split; [apply upd_same|].
    split; [intros k Hk; lia|].
    intros c Hc _. now apply upd_other.
  - assert (Hin : in_table cur = true).
    { apply (chain_at_in _ _ _ cur Hch). apply in_or_app. right. now left. }
    destruct (find_free_cluster_spec (g_fat_table st)) as [[H0 _]|[Hdc Hfree]].
    { rewrite append_loop_full in Hloop by assumption.
      apply Done_inj in Hloop. apply (f_equal fst) in Hloop.
      cbn [fst] in Hloop. discriminate. }
    assert (Hnz : find_free_cluster (g_fat_table st) <> 0).
    { unfold data_cluster, DATA_CLUSTER_START in Hdc. lia. }
    rewrite append_loop_more in Hloop by assumption.
    set (new := find_free_cluster (g_fat_table st)) in *.
    assert (Hcur_new : cur <> new).
    { intros Heq. apply (chain_at_nonzero _ _ _ cur Hch); [discriminate| |].
      - apply in_or_app. right. now left.
      - rewrite Heq. exact Hfree. }
    assert (Hnin : ~ In new (front ++ [cur])).
    { intros Hi. apply (chain_at_nonzero _ _ _ new Hch);
        [discriminate|exact Hi|exact Hfree]. }
    assert (Hne : front ++ [cur] <> []) by (destruct front; discriminate).
    pose proof (chain_at_snoc (g_fat_table st) (front ++ [cur]) new
                  Hne Hnd Hnin Hdc Hch) as Hch3.
    rewrite last_last in Hch3.
    assert (Hnd3 : NoDup ((front ++ [cur]) ++ [new])).
    { apply NoDup_app; [exact Hnd|repeat constructor; intros []|].
      intros x Hx [<-|[]]. now apply Hnin. }
    destruct (IH (mkState (upd (upd (g_fat_table st) cur new) new FAT_ENTRY_EOF)
                          (upd (partition st) cur (poke buf off slice)))
                 (front ++ [cur]) new zero_buffer 0 s2 st' Hch3 Hnd3 Hloop)
      as (more & Hlen & Hmore & Hndm & Hch' & Hpnew & Hslices & Hkeep).
    cbn [g_fat_table partition] in Hmore, Hkeep.
    assert (Hfree3 : forall c, In c more -> c <> new /\ c <> cur).
    { intros c Hc. destruct (Hmore c Hc) as [_ Hz]. split; intros ->.
      - rewrite upd_same in Hz. discriminate.
      - rewrite upd_other, upd_same in Hz by exact Hcur_new.
        now apply Hnz. }
    exists (new :: more). cbn [length].
    split; [now rewrite Hlen|]. split; [|split; [|split; [|split; [|split]]]].
    + intros c [<-|Hc]; [split; assumption|].
      destruct (Hmore c Hc) as [Hd Hz]. destruct (Hfree3 c Hc) as [Hn Hcu].
      split; [exact Hd|]. now rewrite !upd_other in Hz by exact Hn || exact Hcu.
    + constructor; [|exact Hndm]. intros Hi. now destruct (Hfree3 new Hi).
    + rewrite <- app_assoc in Hch'. exact Hch'.
    + rewrite Hkeep; [apply upd_same|exact Hcur_new|].
      intros Hi. now destruct (Hfree3 cur Hi).
    + intros [|k] Hk; cbn [nth]; [exact Hpnew|]. apply Hslices. lia.
    + intros c Hc Hni. rewrite Hkeep.
      * now apply upd_other.
      * intros ->. apply Hni. now left.
      * intros Hi. apply Hni. now right.
Qed.

(** ** The slices of a content, by position *)

Lemma chunk_list_nth fuel : forall l j,
  (length l <= fuel)%nat ->
  nth j (chunk_list fuel l) [] = firstn 1024 (skipn (j * 1024) l).
Proof.
  induction fuel as [|fuel IH]; intros l j Hlen.
  - destruct l; [|cbn [length] in Hlen; lia].
    rewrite skipn_nil, firstn_nil. now destruct j.
  - destruct l as [|a l].
    + rewrite skipn_nil, firstn_nil. now destruct j.
    + cbn [chunk_list]. destruct j as [|j]; [reflexivity|].
      cbn [nth]. rewrite IH.
      * rewrite skipn_skipn, Nat.mul_succ_l. reflexivity.
      * rewrite length_skipn. cbn [length] in *. lia.
Qed.

Lemma chunks_nth l j :
  nth j (chunks l) [] = firstn 1024 (skipn (j * 1024) l).
Proof. apply chunk_list_nth. apply Nat.le_refl. Qed.

Lemma nth_not_default {A : Type} (l : list A) k d :
  nth k l d <> d -> (k < length l)%nat.
Proof.
  intros H. destruct (Nat.lt_ge_cases k (length l)) as [Hlt|Hge];
    [exact Hlt|]. exfalso. apply H. now apply nth_overflow.
Qed.

Lemma chunks_long l k : (k * 1024 < length l)%nat -> (k < length (chunks l))%nat.
Proof.
  intros H. apply nth_not_default with (d := []). rewrite chunks_nth.
  intros Habs. apply (f_equal (@length Z)) in Habs.
  rewrite length_firstn, length_skipn in Habs. cbn [length] in Habs. lia.
Qed.

Lemma well_sliced_concat_le slices :
  well_sliced slices -> (length (concat slices) <= 1024 * length slices)%nat.
Proof.
  induction slices as [|s rest IH]; intros Hws; [cbn; lia|].
  destruct Hws as (_ & Hle & _ & Hrest).
  cbn [concat length]. rewrite length_app. specialize (IH Hrest). lia.
Qed.

Lemma chunks_cover l : (length l <= 1024 * length (chunks l))%nat.
Proof.
  destruct (chunks_spec l) as [Hc Hws].
  rewrite <- Hc at 1. now apply well_sliced_concat_le.
Qed.

Lemma map_seq_nth (f : nat -> Z) l :
  (forall k, (k < length l)%nat -> f k = nth k l 0) ->
  map f (seq 0 (length l)) = l.
Proof.
  intros H. apply nth_ext with (d := 0) (d' := 0).
  - now rewrite length_map, length_seq.
  - intros k Hk. rewrite length_map, length_seq in Hk.
    rewrite (nth_indep _ 0 (f O)) by (now rewrite length_map, length_seq).
    rewrite (map_nth f), seq_nth by exact Hk. now apply H.
Qed.

Lemma file_byte_at st cs q o :
  0 <= q -> 0 <= o < CLUSTER_SIZE ->
  file_byte st cs (CLUSTER_SIZE * q + o) = partition st (nth (Z.to_nat q) cs 0) o.
Proof.
  unfold file_byte, CLUSTER_SIZE. intros Hq Ho.
  replace ((1024 * q + o) / 1024) with q by (Z.div_mod_to_equations; lia).
  replace ((1024 * q + o) mod 1024) with o by (Z.div_mod_to_equations; lia).
  reflexivity.
Qed.

Lemma file_byte_split st cs p :
  0 <= p ->
  exists q o, 0 <= q /\ 0 <= o < CLUSTER_SIZE /\ p = CLUSTER_SIZE * q + o
              /\ file_byte st cs p = partition st (nth (Z.to_nat q) cs 0) o.
Proof.
  intros Hp. exists (p / CLUSTER_SIZE), (p mod CLUSTER_SIZE).
  unfold CLUSTER_SIZE.
  split; [apply Z.div_pos; lia|].
  split; [apply Z.mod_pos_bound; lia|].
  split; [apply Z.div_mod; lia|reflexivity].
Qed.

(** ** The bytes of a file after an append *)

Section AppendBytes.

Variables (st st' : fs_state) (cs front more : list Z) (cur : Z).
Variables (buf : buffer) (off n : Z) (data : list Z) (space : nat).

Hypothesis Hoff : 0 <= off < CLUSTER_SIZE.
Hypothesis Hspace : space = Z.to_nat (CLUSTER_SIZE - off).
Hypothesis Hn : n = CLUSTER_SIZE * Z.of_nat (length front) + off.
Hypothesis Hfront : forall k, (k < length front)%nat ->
  partition st' (nth k front 0) = partition st (nth k cs 0).
Hypothesis Hcur : partition st' cur = poke buf off (firstn space data).
Hypothesis Hmore : forall k, (k < length more)%nat ->
  partition st' (nth k more 0)
  = poke zero_buffer 0 (nth k (chunks (skipn space data)) []).
Hypothesis Hlen : length more = length (chunks (skipn space data)).
Hypothesis Hbuf : forall p, 0 <= p < off ->
  buf p = partition st (nth (length front) cs 0) p.

Lemma append_keeps_old p :
  0 <= p < n -> file_byte st' (front ++ cur :: more) p = file_byte st cs p.
Proof.
  intros Hp.
  destruct (file_byte_split st cs p) as (q & o & Hq & Ho & Hpq & Hold); [lia|].
  rewrite Hold, Hpq, file_byte_at by assumption.
  unfold CLUSTER_SIZE in *.
  destruct (Z.lt_ge_cases q (Z.of_nat (length front))) as [Hlt|Hge].
  - rewrite app_nth1 by lia. rewrite Hfront by lia. reflexivity.
  - assert (Hqf : Z.to_nat q = length front) by lia.
    rewrite Hqf, nth_middle, Hcur, poke_out by lia.
    apply Hbuf. lia.
Qed.

Lemma append_adds_new j :
  (j < length data)%nat ->
  file_byte st' (front ++ cur :: more) (n + Z.of_nat j) = nth j data 0.
Proof.
  intros Hj. unfold CLUSTER_SIZE in *.
  destruct (Z.lt_ge_cases (off + Z.of_nat j) 1024) as [Hlt|Hge].
  - replace (n + Z.of_nat j)
      with (CLUSTER_SIZE * Z.of_nat (length front) + (off + Z.of_nat j))
      by (unfold CLUSTER_SIZE; lia).
    rewrite file_byte_at by (unfold CLUSTER_SIZE; lia).
    rewrite Nat2Z.id, nth_middle, Hcur.
    assert (Hjs : (j < space)%nat) by (unfold CLUSTER_SIZE; lia).
    rewrite poke_in by (rewrite length_firstn; lia).
    replace (Z.to_nat (off + Z.of_nat j - off)) with j by lia.
    rewrite nth_firstn. apply Nat.ltb_lt in Hjs. now rewrite Hjs.
  - assert (Hs : Z.of_nat space = 1024 - off)
      by (unfold CLUSTER_SIZE; lia).
    destruct (file_byte_split st cs (off + Z.of_nat j - 1024))
      as (q & o & Hq & Ho & Hpq & _); [lia|].
    unfold CLUSTER_SIZE in *.
    replace (n + Z.of_nat j)
      with (CLUSTER_SIZE * (Z.of_nat (length front) + 1 + q) + o)
      by (unfold CLUSTER_SIZE; lia).
    rewrite file_byte_at by (unfold CLUSTER_SIZE; lia).
    replace (Z.to_nat (Z.of_nat (length front) + 1 + q))
      with (length front + S (Z.to_nat q))%nat by lia.
    rewrite app_nth2_plus. cbn [nth].
    assert (Hpos : (Z.to_nat q * 1024 + Z.to_nat o
                    = j - space)%nat) by lia.
    assert (Hk : (Z.to_nat q < length more)%nat).
    { rewrite Hlen. apply chunks_long. rewrite length_skipn. lia. }
    rewrite Hmore by exact Hk. rewrite chunks_nth.
    rewrite poke_in
      by (rewrite length_firstn, !length_skipn; lia).
    rewrite Z.sub_0_r, nth_firstn.
    assert (Ho' : (Z.to_nat o <? 1024)%nat = true) by (apply Nat.ltb_lt; lia).
    rewrite Ho', !nth_skipn. f_equal. lia.
Qed.

Lemma append_file_bytes :
  file_bytes st' (front ++ cur :: more) (Z.to_nat n + length data)
  = file_bytes st cs (Z.to_nat n) ++ data.
Proof.
  unfold file_bytes. rewrite seq_app, map_app, Nat.add_0_l.
  assert (Hold : map (fun k => file_byte st' (front ++ cur :: more) (Z.of_nat k))
                     (seq 0 (Z.to_nat n))
                 = map (fun k => file_byte st cs (Z.of_nat k))
                       (seq 0 (Z.to_nat n))).
  { apply map_ext_in. intros k Hk. apply in_seq in Hk.
    apply append_keeps_old. lia. }
  rewrite Hold, (map_seq_offset _ (length data) (Z.to_nat n)).
  apply f_equal.
  apply map_seq_nth. intros j Hj. rewrite <- append_adds_new by exact Hj.
  f_equal. unfold CLUSTER_SIZE in *. lia.
Qed.

Lemma append_chain_covers :
  n + Z.of_nat (length data)
  <= CLUSTER_SIZE * Z.of_nat (length (front ++ cur :: more)).
Proof.
  rewrite length_app. cbn [length]. rewrite Hlen.
  pose proof (chunks_cover (skipn space data)) as Hc.
  rewrite length_skipn in Hc.
  assert (Hs : Z.of_nat space = 1024 - off)
    by (unfold CLUSTER_SIZE in *; lia).
  unfold CLUSTER_SIZE in *. lia.
Qed.

End AppendBytes.

(** ** [fs_append] followed by [fs_read] *)

(** A successful append of a non-empty content went through every step. *)
Lemma fs_append_success st path content r rep :
  find_entry_by_path st path = Done (0, r) ->
  uint32 (Z.of_nat (length content)) <> 0 ->
  fs_append st path content = Done rep -> code rep = 0 ->
  exists tail st1 cur buf st2,
    append_tail st (entry r) = Done tail
    /\ append_prepare st tail (size (entry r)) = Done (inr (st1, cur, buf))
    /\ append_loop st1
         (firstn (Z.to_nat (CLUSTER_SIZE - size (entry r) mod CLUSTER_SIZE))
                 (firstn (Z.to_nat (uint32 (Z.of_nat (length content)))) content)
          :: chunks
               (skipn (Z.to_nat (CLUSTER_SIZE - size (entry r) mod CLUSTER_SIZE))
                      (firstn (Z.to_nat (uint32 (Z.of_nat (length content))))
                              content)))
         cur buf (size (entry r) mod CLUSTER_SIZE) = Done (0, st2)
    /\ g_fat_table (after rep) = g_fat_table st2
    /\ forall c,
         partition (after rep) c =
         if fat_region c
         then fat_bytes (g_fat_table st2) (c - FAT_CLUSTER_START)
         else upd (partition st2) (parent_cluster r)
                (poke (partition st2 (parent_cluster r))
                      (slot_offset (entry_index r) + 28)
                      (bytes_le32
                         (uint32 (size (entry r)
                                  + uint32 (Z.of_nat (length content)))))) c.
Proof.
  intros Hfind Hlen Ha Hcode. unfold fs_append in Ha. rewrite Hfind in Ha.
  unfold bind at 1 in Ha. cbv beta iota zeta in Ha. cbn [fst snd] in Ha.
  destruct (negb (0 =? 0) || negb (found r)
            || negb (attributes (entry r) =? ATTR_ARCHIVE)).
  { apply Done_inj in Ha. subst rep. discriminate. }
  destruct (Z.eqb_spec (uint32 (Z.of_nat (length content))) 0) as [H0|_];
    [contradiction|].
  destruct (append_tail st (entry r)) as [tail| |] eqn:Htail;
    try discriminate.
  unfold bind at 1 in Ha. cbv beta iota in Ha.
  destruct (append_prepare st tail (size (entry r)))
    as [[repf|[[st1 cur] buf]]| |] eqn:Hprep; try discriminate.
  { unfold bind in Ha. apply Done_inj in Ha. subst repf.
    unfold append_prepare in Hprep.
    destruct ((size (entry r) mod CLUSTER_SIZE =? 0) && (0 <? size (entry r))).
    - cbv zeta in Hprep.
      destruct (find_free_cluster (g_fat_table st) =? 0).
      + apply Done_inj in Hprep. apply (f_equal (fun x =>
          match x with inl y => code y | inr _ => 0 end)) in Hprep.
        cbn [code] in Hprep. rewrite Hcode in Hprep. discriminate.
      + destruct (store_fat st tail (find_free_cluster (g_fat_table st)));
          discriminate.
    - destruct (read_cluster st tail).
      + discriminate.
      + apply Done_inj in Hprep. apply (f_equal (fun x =>
          match x with inl y => code y | inr _ => 0 end)) in Hprep.
        cbn [code] in Hprep. rewrite Hcode in Hprep. discriminate. }
  unfold bind at 1 in Ha. cbv beta iota in Ha.
  match type of Ha with
  | bind ?m _ = _ => destruct m as [[rca st2]| |] eqn:Hloop
  end; try discriminate.
  unfold bind in Ha. cbn [fst snd] in Ha.
  destruct (rca =? -1); [apply Done_inj in Ha; subst rep; discriminate|].
  destruct (Z.eqb_spec rca 0) as [->|Hne];
    [|cbn [negb] in Ha; apply Done_inj in Ha; subst rep; discriminate].
  cbn [negb] in Ha. unfold append_finish in Ha.
  destruct (read_cluster st2 (parent_cluster r)) as [pbuf|] eqn:Hread;
    [|apply Done_inj in Ha; subst rep; discriminate].
  apply read_cluster_some in Hread. destruct Hread as [Htab ->].
  cbv zeta in Ha. rewrite write_cluster_in in Ha by exact Htab.
  match type of Ha with
  | persist_and_return ?s = _ =>
      destruct (persist_and_return_spec s) as (st4 & Hp & Hfat & Hpart)
  end.
  rewrite Hp in Ha. apply Done_inj in Ha. subst rep. cbn [after].
  exists tail, st1, cur, buf, st2.
  split; [reflexivity|]. split; [exact Hprep|]. split; [exact Hloop|].
  split; [exact Hfat|exact Hpart].
Qed.

Lemma fs_append_empty st path content r :
  find_entry_by_path st path = Done (0, r) -> found r = true ->
  attributes (entry r) = ATTR_ARCHIVE ->
  uint32 (Z.of_nat (length content)) = 0 ->
  fs_append st path content = ok st.
Proof.
  intros Hfind Hf Hattr H0. unfold fs_append. rewrite Hfind.
  unfold bind at 1. cbv beta iota zeta. cbn [fst snd].
  rewrite Hf, Hattr, H0. reflexivity.
Qed.

(** The entry read back from a directory buffer whose field [size] was
    just stored. *)
Lemma entry_at_resized buf i len :
  0 <= len < 4294967296 ->
  let buf' := poke buf (slot_offset i + 28) (bytes_le32 len) in
  first_block (entry_at buf' i) = first_block (entry_at buf i)
  /\ size (entry_at buf' i) = len
  /\ attributes (entry_at buf' i) = attributes (entry_at buf i).
Proof.
  intros Hl buf'. unfold entry_at. cbn [first_block size attributes].
  subst buf'. set (o := slot_offset i).
  set (f := poke buf (o + 28) (bytes_le32 len)).
  assert (E28 : f (o + 28) = len mod 256).
  { unfold f. rewrite poke_in by (cbn [length bytes_le32]; lia).
    replace (o + 28 - (o + 28)) with 0 by lia. reflexivity. }
  assert (E29 : f (o + 29) = (len / 256) mod 256).
  { unfold f. rewrite poke_in by (cbn [length bytes_le32]; lia).
    replace (o + 29 - (o + 28)) with 1 by lia. reflexivity. }
  assert (E30 : f (o + 30) = (len / 65536) mod 256).
  { unfold f. rewrite poke_in by (cbn [length bytes_le32]; lia).
    replace (o + 30 - (o + 28)) with 2 by lia. reflexivity. }
  assert (E31 : f (o + 31) = (len / 16777216) mod 256).
  { unfold f. rewrite poke_in by (cbn [length bytes_le32]; lia).
    replace (o + 31 - (o + 28)) with 3 by lia. reflexivity. }
  rewrite E28, E29, E30, E31.
  split; [|split; [now apply le32_bytes|]];
    unfold f; rewrite !poke_out; try reflexivity;
    cbn [length bytes_le32]; lia.
Qed.

(** The read after an append, once the append is known to have left the
    searched clusters alone and a readable chain behind. *)
Lemma append_then_read_core st st' path r st2 len out :
  strtok_all (firstn 511 path) <> [] ->
  resolve_loop st (strtok_all (firstn 511 path)) ROOT_DIR_CLUSTER initial_result
    = Done (0, r) ->
  found r = true -> attributes (entry r) = ATTR_ARCHIVE ->
  NoDup (resolve_trace st (strtok_all (firstn 511 path)) ROOT_DIR_CLUSTER) ->
  c_string path ->
  (forall c, In c (resolve_trace st (strtok_all (firstn 511 path))
                                 ROOT_DIR_CLUSTER) ->
             fat_region c = false /\ partition st2 c = partition st c) ->
  (forall c,
     partition st' c =
     if fat_region c
     then fat_bytes (g_fat_table st2) (c - FAT_CLUSTER_START)
     else upd (partition st2) (parent_cluster r)
            (poke (partition st2 (parent_cluster r))
                  (slot_offset (entry_index r) + 28) (bytes_le32 len)) c) ->
  0 <= len < 4294967296 ->
  read_loop (read_fuel len) st' (first_block (entry r)) len = Done (0, out) ->
  fs_read st' path = Done (0, out).
Proof.
  intros Hne Hloop Hf Hattr Hnd Hpath Htrace Hpart Hlen Hread.
  set (tokens := strtok_all (firstn 511 path)) in *.
  set (P := parent_cluster r) in *. set (idx := entry_index r) in *.
  pose proof (resolve_loop_parent_in_trace _ _ _ _ _ Hne Hloop Hf) as HPin.
  destruct (resolve_loop_entry _ _ _ _ _ Hne Hloop Hf) as [Hentry _].
  fold P idx in Hentry.
  destruct (Htrace P HPin) as [HPreg HPkeep].
  assert (HP' : partition st' P
                = poke (partition st P) (slot_offset idx + 28) (bytes_le32 len)).
  { rewrite Hpart, HPreg, upd_same, HPkeep. reflexivity. }
  destruct (entry_at_resized (partition st P) idx len Hlen)
    as (Efirst & Esize & Eattr).
  rewrite <- HP' in Efirst, Esize, Eattr.
  rewrite fs_read_unfold, find_entry_by_path_loop by exact Hne.
  fold tokens.
  rewrite (resolve_loop_stable st st' tokens ROOT_DIR_CLUSTER initial_result r
             Hne Hloop Hf Hattr Hnd).
  - cbn [bind fst snd found entry]. fold P idx.
    rewrite Eattr, <- Hentry, Hattr, Efirst, Esize, <- Hentry. cbn.
    exact Hread.
  - apply strtok_all_c_string. now apply firstn_c_string.
  - intros c Hc Hcp. destruct (Htrace c Hc) as [Hreg Hkeep].
    rewrite Hpart, Hreg, upd_other by exact Hcp. exact Hkeep.
  - intros off Hoff. fold P idx in Hoff |- *. rewrite HP'.
    rewrite poke_out; [reflexivity|]. cbn [length bytes_le32]. lia.
Qed.

Lemma clusters_for_pos (cs : list Z) n :
  cs <> [] -> Z.of_nat (length cs) = clusters_for n -> 0 <= n.
Proof.
  intros Hne Hlen. unfold clusters_for, CLUSTER_SIZE in Hlen.
  destruct (Z.eqb_spec n 0) as [->|Hn]; [lia|].
  assert (0 < Z.of_nat (length cs)) by (destruct cs; [congruence|cbn; lia]).
  destruct (Z.lt_ge_cases n 0) as [Hneg|Hpos]; [|exact Hpos].
  exfalso. revert Hlen H Hneg. generalize (Z.of_nat (length cs)). intros z.
  intros Hlen H Hneg. Z.div_mod_to_equations. lia.
Qed.

(** Step 1 of [fs_append] ends on the last cluster of the file's chain. *)
Lemma append_tail_chain st e cs :
  cs <> [] -> hd 0 cs = first_block e ->
  chain_at (g_fat_table st) cs FAT_ENTRY_EOF -> NoDup cs ->
  Z.of_nat (length cs) = clusters_for (size e) ->
  append_tail st e = Done (last cs 0).
Proof.
  intros Hne Hhd Hch Hnd Hlen. unfold append_tail.
  destruct (Z.ltb_spec 0 (size e)) as [Hpos|Hle].
  - rewrite <- Hhd. apply walk_to_tail_chain; [exact Hne|exact Hch|].
    pose proof (chain_at_length _ _ _ Hch Hnd) as Hb.
    replace (Z.to_nat CLUSTER_COUNT) with 4096%nat by reflexivity.
    apply Nat.le_trans with (1 := Hb). apply Nat.le_succ_diag_r.
  - pose proof (clusters_for_pos _ _ Hne Hlen) as H0.
    assert (Hz : size e = 0) by lia. rewrite Hz in Hlen.
    destruct cs as [|c [|c' cs']]; [congruence| |cbn in Hlen; lia].
    cbn [hd] in Hhd. now rewrite <- Hhd.
Qed.

(** Step 2 of [fs_append] on the tail of the file's chain: the chain
    [front ++ [cur]] the main loop starts from. *)
Lemma append_prepare_chain st cs n st1 cur buf :
  cs <> [] -> chain_at (g_fat_table st) cs FAT_ENTRY_EOF -> NoDup cs ->
  Z.of_nat (length cs) = clusters_for n ->
  append_prepare st (last cs 0) n = Done (inr (st1, cur, buf)) ->
  exists front,
    chain_at (g_fat_table st1) (front ++ [cur]) FAT_ENTRY_EOF
    /\ NoDup (front ++ [cur])
    /\ partition st1 = partition st
    /\ n = CLUSTER_SIZE * Z.of_nat (length front) + n mod CLUSTER_SIZE
    /\ hd 0 (front ++ [cur]) = hd 0 cs
    /\ (forall k, (k < length front)%nat -> nth k front 0 = nth k cs 0)
    /\ (forall c, In c front -> In c cs)
    /\ (In cur cs \/ (data_cluster cur /\ g_fat_table st cur = FAT_ENTRY_FREE))
    /\ (forall p, 0 <= p < n mod CLUSTER_SIZE ->
                  buf p = partition st (nth (length front) cs 0) p)
    /\ (forall c, g_fat_table st1 c = FAT_ENTRY_FREE ->
                  g_fat_table st c = FAT_ENTRY_FREE).
Proof.
  intros Hne Hch Hnd Hlen Hprep.
  pose proof (clusters_for_pos _ _ Hne Hlen) as Hn0.
  assert (Htail : In (last cs 0) cs) by (now apply last_in).
  destruct (chain_at_in _ _ _ _ Hch Htail) as [_ Htab].
  unfold append_prepare in Hprep.
  unfold clusters_for in Hlen. unfold CLUSTER_SIZE in *.
  destruct ((n mod 1024 =? 0) && (0 <? n)) eqn:Hcase.
  - apply andb_true_iff in Hcase. destruct Hcase as [Hmod Hpos].
    apply Z.eqb_eq in Hmod. apply Z.ltb_lt in Hpos.
    cbv zeta in Hprep.
    destruct (find_free_cluster_spec (g_fat_table st)) as [[H0 _]|[Hdc Hfree]].
    { rewrite H0 in Hprep. cbn [Z.eqb] in Hprep. discriminate. }
    assert (Hnz : find_free_cluster (g_fat_table st) <> 0).
    { unfold data_cluster, DATA_CLUSTER_START in Hdc. lia. }
    apply Z.eqb_neq in Hnz. rewrite Hnz in Hprep.
    unfold store_fat in Hprep. rewrite Htab in Hprep. unfold bind in Hprep.
    apply Done_inj in Hprep. injection Hprep as <- <- <-.
    set (new := find_free_cluster (g_fat_table st)) in *.
    assert (Hnin : ~ In new cs).
    { intros Hi. apply (chain_at_nonzero _ _ _ new Hch);
        [discriminate|exact Hi|exact Hfree]. }
    exists cs. cbn [set_fat g_fat_table partition].
    split; [now apply chain_at_snoc|]. split.
    { apply NoDup_app; [exact Hnd|repeat constructor; intros []|].
      intros x Hx [<-|[]]. now apply Hnin. }
    split; [reflexivity|]. split.
    { rewrite Hmod. destruct (Z.eqb_spec n 0) as [|_]; [lia|].
      rewrite Hlen. Z.div_mod_to_equations. lia. }
    split; [destruct cs; [congruence|reflexivity]|].
    split; [reflexivity|]. split; [auto|]. split; [right; now split|].
    split; [intros p Hp; lia|].
    intros c Hc. unfold upd in Hc.
    destruct (c =? new); [discriminate|].
    destruct (c =? last cs 0); [apply Z.eqb_neq in Hnz; contradiction|].
    exact Hc.
  - destruct (read_cluster st (last cs 0)) as [b|] eqn:Hread; [|discriminate].
    apply read_cluster_some in Hread. destruct Hread as [_ ->].
    apply Done_inj in Hprep. injection Hprep as <- <- <-.
    pose proof (app_removelast_last 0 Hne) as Hsplit.
    set (front := removelast cs) in *. set (tail := last cs 0) in *.
    clearbody front tail.
    assert (Hlf : length cs = S (length front)).
    { rewrite Hsplit. rewrite length_app. cbn [length]. lia. }
    exists front. rewrite <- Hsplit.
    split; [exact Hch|]. split; [exact Hnd|]. split; [reflexivity|]. split.
    { rewrite Hlf in Hlen. apply andb_false_iff in Hcase.
      destruct (Z.eqb_spec n 0) as [->|Hnz];
        [change (0 mod 1024) with 0; lia|].
      destruct Hcase as [Hmod|Hpos].
      - apply Z.eqb_neq in Hmod.
        assert (Hf : Z.of_nat (length front) = n / 1024).
        { Z.div_mod_to_equations. lia. }
        rewrite Hf. apply Z.div_mod. lia.
      - apply Z.ltb_ge in Hpos. lia. }
    split; [reflexivity|]. split.
    { intros k Hk. rewrite Hsplit. now rewrite app_nth1. }
    split.
    { intros c Hc. rewrite Hsplit. apply in_or_app. now left. }
    split; [left; exact Htail|]. split.
    { intros p _. rewrite Hsplit. now rewrite nth_middle. }
    auto.
Qed.

Lemma hd_app_cons {A : Type} (front : list A) c more d :
  hd d (front ++ c :: more) = hd d (front ++ [c]).
Proof. now destruct front. Qed.

Lemma read_fuel_enough n : 0 <= n -> n <= CLUSTER_SIZE * Z.of_nat (read_fuel n).
Proof.
  intros Hn. unfold read_fuel, CLUSTER_SIZE.
  assert (0 <= n / 1024) by (apply Z.div_pos; lia).
  rewrite Z2Nat.id by lia. Z.div_mod_to_equations. lia.
Qed.

Lemma clusters_for_cover (cs : list Z) n :
  cs <> [] -> Z.of_nat (length cs) = clusters_for n ->
  0 <= n <= CLUSTER_SIZE * Z.of_nat (length cs).
Proof.
  intros Hne Hlen. pose proof (clusters_for_pos _ _ Hne Hlen) as H0.
  split; [exact H0|]. rewrite Hlen. unfold clusters_for, CLUSTER_SIZE.
  destruct (Z.eqb_spec n 0); [lia|]. Z.div_mod_to_equations. lia.
Qed.




(** ** A write that runs out of space *)

(** The allocation loop returns, whatever the slices. *)
Lemma write_loop_returns slices : forall st done current first,
  (done = [] -> first = 0) ->
  (done <> [] -> first = hd 0 done /\ current = last done 0) ->
  NoDup done -> (forall c, In c done -> data_cluster c) ->
  chain_at (g_fat_table st) done FAT_ENTRY_EOF ->
  exists rc first' st',
    write_loop st slices current first = Done (rc, first', st').
Proof.
  induction slices as [|slice rest IH];
    intros st done current first Hnil Hcons Hnd Hdata Hch.
  - cbn [write_loop]. eauto.
  - destruct (find_free_cluster_spec (g_fat_table st)) as [[H0 _]|[Hdc Hfree]].
    + rewrite (write_loop_full _ _ _ _ _ H0).
      destruct done as [|a done'].
      * rewrite (Hnil eq_refl), free_cluster_chain_stop by reflexivity.
        unfold bind. eauto.
      * assert (Hne : a :: done' <> []) by discriminate.
        destruct (Hcons Hne) as [Hfirst _].
        destruct (free_cluster_chain_of_chain (a :: done') (g_fat_table st)
                    FAT_ENTRY_EOF) as (fat' & Hfree' & _);
          [discriminate|exact Hnd|exact Hch|reflexivity|].
        rewrite Hfirst, Hfree'. unfold bind. eauto.
    + assert (Hnz : find_free_cluster (g_fat_table st) <> 0).
      { unfold data_cluster, DATA_CLUSTER_START in Hdc. lia. }
      rewrite (write_loop_alloc _ _ _ _ _ Hnz).
      destruct (write_iteration st done current first slice Hnil Hcons Hnd
                  Hdata Hch Hdc Hfree)
        as (st3 & Hwc & _ & Hhd & Hlast & Hnd3 & Hch3 & _).
      rewrite Hwc.
      apply (IH st3 (done ++ [find_free_cluster (g_fat_table st)])).
      * intros Habs. destruct done; discriminate.
      * intros _. split; [exact Hhd|exact Hlast].
      * exact Hnd3.
      * intros c Hin. apply in_app_or in Hin. destruct Hin as [Hin|[<-|[]]];
          [now apply Hdata|exact Hdc].
      * exact Hch3.
Qed.

(** There are 4086 data clusters. *)
Lemma data_clusters_bound l :
  NoDup l -> (forall c, In c l -> data_cluster c) -> (length l <= 4086)%nat.
Proof.
  intros Hnd Hdata.
  apply Nat.le_trans with (length (map Z.of_nat (seq 10 4086)));
    [|rewrite length_map, length_seq; apply Nat.le_refl].
  apply NoDup_incl_length; [exact Hnd|].
  intros c Hc. specialize (Hdata c Hc).
  unfold data_cluster, DATA_CLUSTER_START, CLUSTER_COUNT in Hdata.
  apply in_map_iff. exists (Z.to_nat c). split; [lia|].
  apply in_seq. lia.
Qed.

(** A content larger than the data area makes [fs_write] fail with
    no-space after it has filled every free cluster; the first slice went
    to the first free cluster at the time the old chain was released. *)
Lemma write_no_space_first_slice st path content r fat1 :
  find_entry_by_path st path = Done (0, r) -> found r = true ->
  attributes (entry r) = ATTR_ARCHIVE ->
  free_cluster_chain (g_fat_table st) (first_block (entry r)) = Done fat1 ->
  find_free_cluster fat1 <> 0 ->
  4086 * 1024 < Z.of_nat (length content) < 4294967296 ->
  exists rep,
    fs_write st path content = Done rep
    /\ code rep = -1 /\ msg rep = NoSpace
    /\ partition (after rep) (find_free_cluster fat1)
       = poke zero_buffer 0 (firstn 1024 content).
Proof.
  intros Hfind Hf Hattr Hfree Hnz Hlen.
  rewrite fs_write_unfold, Hfind. unfold bind at 1. cbv beta iota.
  cbn [fst snd]. rewrite Hf, Hattr. cbn [Z.eqb negb orb].
  change (ATTR_ARCHIVE =? ATTR_ARCHIVE) with true. cbn [negb].
  rewrite Hfree. unfold bind at 1. cbv beta iota.
  rewrite (uint32_small (Z.of_nat (length content))) by lia.
  assert (Hpos : (0 <? Z.of_nat (length content)) = true)
    by (apply Z.ltb_lt; lia).
  rewrite Hpos, Nat2Z.id, firstn_all.
  pose proof (chunks_cover content) as Hcover.
  pose proof (chunks_nth content 0) as Hfirst. cbn [Nat.mul skipn] in Hfirst.
  destruct (chunks content) as [|slice rest] eqn:Hchunks;
    [cbn [length] in Hcover; lia|].
  cbn [nth] in Hfirst. subst slice. cbn [length] in Hcover.
  set (st1 := mkState fat1 (partition st)).
  set (new := find_free_cluster fat1) in *.
  assert (Hdc : data_cluster new /\ fat1 new = FAT_ENTRY_FREE).
  { destruct (find_free_cluster_spec fat1) as [[H0 _]|H]; [contradiction|].
    exact H. }
  destruct Hdc as [Hdc Hz].
  destruct (write_iteration st1 [] 0 0 (firstn 1024 content))
    as (st3 & Hwc & Hpart & _ & _ & Hnd3 & Hch3 & _);
    [reflexivity|congruence|constructor|intros c []|exact I|exact Hdc|exact Hz|].
  cbn [app Z.eqb g_fat_table st1] in Hwc, Hpart, Hnd3, Hch3.
  fold new in Hwc, Hpart, Hnd3, Hch3.
  rewrite (write_loop_alloc st1 _ _ 0 0) by exact Hnz.
  cbn [Z.eqb g_fat_table st1]. fold new. rewrite Hwc.
  assert (Hinv1 : [new] = [] -> new = 0) by discriminate.
  assert (Hinv2 : [new] <> [] -> new = hd 0 [new] /\ new = last [new] 0)
    by (intros _; split; reflexivity).
  assert (Hinv3 : forall c, In c [new] -> data_cluster c)
    by (intros c [<-|[]]; exact Hdc).
  destruct (write_loop_returns rest st3 [new] new new Hinv1 Hinv2 Hnd3 Hinv3
              Hch3) as (rc & first' & st' & Hloop).
  rewrite Hloop.
  destruct (write_loop_gen rest st3 [new] new new rc first' st' Hinv1 Hinv2
              Hnd3 Hinv3 Hch3 Hloop)
    as (more & Hnd' & Hmore & Hkeep & _ & _ & _ & _ & Hrc).
  assert (Hbound : (length ([new] ++ more) <= 4086)%nat).
  { apply data_clusters_bound; [exact Hnd'|].
    intros c Hc. apply in_app_or in Hc. destruct Hc as [Hc|Hc];
      [now apply Hinv3|now apply Hmore]. }
  cbn [app length] in Hbound.
  destruct Hrc as [(_ & Hlm & _)|(-> & _ & _)]; [lia|].
  unfold bind. cbn [fst snd Z.eqb]. unfold fail.
  eexists. split; [reflexivity|]. cbn [code msg after].
  split; [reflexivity|]. split; [reflexivity|].
  rewrite Hkeep.
  - rewrite Hpart. apply upd_same.
  - intros Hin. apply NoDup_cons_iff in Hnd'. now destruct Hnd'.
Qed.

Lemma first_slice_of_repeat b n j :
  (1024 <= n)%nat -> 0 <= j < 1024 ->
  poke zero_buffer 0 (firstn 1024 (repeat b n)) j = b.
Proof.
  intros Hn Hj.
  rewrite poke_in by (rewrite length_firstn, repeat_length; lia).
  rewrite nth_firstn.
  assert (Hlt : (Z.to_nat (j - 0) <? 1024)%nat = true)
    by (apply Nat.ltb_lt; lia).
  rewrite Hlt. apply nth_repeat_lt. lia.
Qed.

(** C3, as stated, fails.  After [free_directory_script] (every command
    returning 0) cluster 10, the directory [/d], is free in the FAT while
    [/d/x] still resolves to a regular file whose entry, slot 0 of cluster
    10, has first cluster 11.  The write to [/d/x] of a content larger than
    the data area fails with no-space in the allocation loop, after the
    loop has given cluster 10 to the first slice: the chain is freed, but
    the bytes of the entry on disk are now those of the content, and its
    first-cluster field reads 16705. *)
Lemma write_no_space_overwrites_freed_directory :
  session_codes free_directory_script = Done [0; 0; 0; 0; 0]
  /\ (exists r,
        find_entry_by_path (session_state free_directory_script)
                           (bytes_of_string "/d/x") = Done (0, r)
        /\ found r = true /\ attributes (entry r) = ATTR_ARCHIVE
        /\ parent_cluster r = 10 /\ entry_index r = 0)
  /\ first_block (entry_at (partition (session_state free_directory_script) 10)
                           0) = 11
  /\ exists rep,
       fs_write (session_state free_directory_script)
                (bytes_of_string "/d/x") oversized_content = Done rep
       /\ code rep = -1 /\ msg rep = NoSpace
       /\ first_block (entry_at (partition (after rep) 10) 0) = 16705.
Proof.
  split; [vm_compute; reflexivity|]. split.
  { eexists. split; [vm_compute; reflexivity|]. repeat split; reflexivity. }
  split; [vm_compute; reflexivity|].
  set (st := session_state free_directory_script).
  assert (Hfind : find_entry_by_path st (bytes_of_string "/d/x")
                  = Done (0, mkResult (strncpy17 (bytes_of_string "x")) true
                                10 11 0 (entry_at (partition st 10) 0)))
    by (vm_compute; reflexivity).
  assert (Hfb : first_block (entry_at (partition st 10) 0) = 11)
    by (vm_compute; reflexivity).
  assert (H11 : g_fat_table st 11 = FAT_ENTRY_EOF) by (vm_compute; reflexivity).
  assert (Hfree : free_cluster_chain (g_fat_table st)
                    (first_block (entry_at (partition st 10) 0))
                  = Done (upd (g_fat_table st) 11 FAT_ENTRY_FREE)).
  { rewrite Hfb, free_cluster_chain_step by reflexivity.
    rewrite H11. apply free_cluster_chain_stop. reflexivity. }
  assert (Hnew : find_free_cluster (upd (g_fat_table st) 11 FAT_ENTRY_FREE) = 10)
    by (vm_compute; reflexivity).
  assert (Hbig : (1024 <= 4200 * 1024)%nat).
  { apply (Nat.mul_le_mono_r 1 4200 1024). apply Nat.lt_0_succ. }
  destruct (write_no_space_first_slice st (bytes_of_string "/d/x")
              oversized_content _ (upd (g_fat_table st) 11 FAT_ENTRY_FREE)
              Hfind) as (rep & Hw & Hcode & Hmsg & Hpart).
  - reflexivity.
  - vm_compute. reflexivity.
  - exact Hfree.
  - rewrite Hnew. discriminate.
  - unfold oversized_content. rewrite repeat_length, Nat2Z.inj_mul.
    split; reflexivity.
  - exists rep. split; [exact Hw|]. split; [exact Hcode|].
    split; [exact Hmsg|].
    rewrite Hnew in Hpart. unfold entry_at. cbn [first_block].
    rewrite Hpart. unfold oversized_content.
    rewrite !first_slice_of_repeat;
      [reflexivity|exact Hbig|vm_compute; split; [discriminate|reflexivity]
      |exact Hbig|vm_compute; split; [discriminate|reflexivity]].
Qed.

(** * Further properties of the code *)

(** ** The allocator and the FAT *)

(** X1: [find_free_cluster] is first-fit over the data area: it returns 0
    exactly when no data cluster is free, and otherwise the lowest free
    data cluster; it never returns a cluster of the system area. *)
Theorem find_free_cluster_first_fit (fat : fat_table) :
  (find_free_cluster fat = 0
   /\ forall j, data_cluster j -> fat j <> FAT_ENTRY_FREE)
  \/ (data_cluster (find_free_cluster fat)
      /\ fat (find_free_cluster fat) = FAT_ENTRY_FREE
      /\ forall j, data_cluster j -> j < find_free_cluster fat ->
                   fat j <> FAT_ENTRY_FREE).
Proof.
  unfold find_free_cluster, data_cluster.
  destruct (find_free_from_spec fat
              (Z.to_nat (CLUSTER_COUNT - DATA_CLUSTER_START))
              DATA_CLUSTER_START) as [[H0 Hall]|(Hr & Hf & Hlow)].
  - unfold DATA_CLUSTER_START. lia.
  - left. split; [exact H0|]. intros j Hj. apply Hall.
    unfold CLUSTER_COUNT, DATA_CLUSTER_START in *. lia.
  - right. split; [|split; [exact Hf|]].
    + unfold CLUSTER_COUNT, DATA_CLUSTER_START in *. lia.
    + intros j Hj Hlt. apply Hlow. lia.
Qed.

(** X2: [free_cluster_chain] never allocates: when it returns, every entry
    of the table either kept its value or became free. *)
Theorem free_cluster_chain_only_frees (fat fat' : fat_table) (start : Z) :
  free_cluster_chain fat start = Done fat' ->
  forall e, fat' e = fat e \/ fat' e = FAT_ENTRY_FREE.
Proof. apply free_cluster_chain_clears. Qed.

Lemma free_cluster_chain_only_frees_witness :
  free_cluster_chain (upd format_fat 10 FAT_ENTRY_EOF) 10
  = Done (upd (upd format_fat 10 FAT_ENTRY_EOF) 10 FAT_ENTRY_FREE)
  /\ forall e,
       upd (upd format_fat 10 FAT_ENTRY_EOF) 10 FAT_ENTRY_FREE e
       = upd format_fat 10 FAT_ENTRY_EOF e
       \/ upd (upd format_fat 10 FAT_ENTRY_EOF) 10 FAT_ENTRY_FREE e
          = FAT_ENTRY_FREE.
Proof.
  assert (H : free_cluster_chain (upd format_fat 10 FAT_ENTRY_EOF) 10
              = Done (upd (upd format_fat 10 FAT_ENTRY_EOF) 10 FAT_ENTRY_FREE)).
  { rewrite free_cluster_chain_step by reflexivity.
    rewrite upd_same. apply free_cluster_chain_stop. reflexivity. }
  split; [exact H|].
  exact (free_cluster_chain_only_frees _ _ _ H).
Defined.

(** X3: on a chain without repetition that ends on 0 or on the
    end-of-chain marker, [free_cluster_chain] returns, frees every cluster
    of the chain and leaves every other entry of the table alone. *)
Theorem free_cluster_chain_frees_chain (fat : fat_table) (cs : list Z)
    (end_value : Z) :
  cs <> [] -> NoDup cs -> chain_at fat cs end_value ->
  end_value = 0 \/ FAT_ENTRY_EOF <= end_value ->
  exists fat',
    free_cluster_chain fat (hd 0 cs) = Done fat'
    /\ (forall c, In c cs -> fat' c = FAT_ENTRY_FREE)
    /\ (forall c, ~ In c cs -> fat' c = fat c).
Proof.
  intros Hne Hnd Hch Hend.
  apply (free_cluster_chain_of_chain cs fat end_value Hne Hnd Hch).
  now apply chain_continues_false.
Qed.

Lemma free_cluster_chain_frees_chain_witness :
  exists fat',
    free_cluster_chain (upd (upd format_fat 10 11) 11 FAT_ENTRY_EOF) 10
    = Done fat'
    /\ (forall c, In c [10; 11] -> fat' c = FAT_ENTRY_FREE)
    /\ (forall c, ~ In c [10; 11] ->
                  fat' c = upd (upd format_fat 10 11) 11 FAT_ENTRY_EOF c).
Proof.
  apply (free_cluster_chain_frees_chain
           (upd (upd format_fat 10 11) 11 FAT_ENTRY_EOF) [10; 11]
           FAT_ENTRY_EOF).
  - discriminate.
  - repeat constructor; cbn; intuition discriminate.
  - cbn. repeat split; reflexivity.
  - right. reflexivity.
Defined.

(** ** Persisting and loading the FAT *)

Lemma fat_bytes_decode fat e :
  0 <= e ->
  le16 (fat_bytes fat (e / 512) (2 * (e mod 512)))
       (fat_bytes fat (e / 512) (2 * (e mod 512) + 1))
  = fat e mod 65536.
Proof.
  intros He. unfold fat_bytes, le16.
  assert (Hm : 0 <= e mod 512 < 512) by (apply Z.mod_pos_bound; lia).
  replace (Z.even (2 * (e mod 512))) with true
    by (symmetry; rewrite Z.even_mul; reflexivity).
  replace (Z.even (2 * (e mod 512) + 1)) with false
    by (symmetry; rewrite Z.even_add, Z.even_mul; reflexivity).
  replace (2 * (e mod 512) / 2) with (e mod 512)
    by (Z.div_mod_to_equations; lia).
  replace ((2 * (e mod 512) + 1) / 2) with (e mod 512)
    by (Z.div_mod_to_equations; lia).
  replace (512 * (e / 512) + e mod 512) with e
    by (Z.div_mod_to_equations; lia).
  generalize (fat e). intros v. Z.div_mod_to_equations. lia.
Qed.

Lemma load_of_persisted st st' :
  g_fat_table st' = g_fat_table st ->
  (forall c, fat_region c = true ->
             partition st' c = fat_bytes (g_fat_table st) (c - FAT_CLUSTER_START)) ->
  forall e, g_fat_table (after (fs_load_fat st')) e
            = if in_table e then g_fat_table st e mod 65536 else g_fat_table st e.
Proof.
  intros Hfat Hpart e. unfold fs_load_fat. cbn [after g_fat_table].
  destruct (in_table e) eqn:Hin; [|now rewrite Hfat].
  apply in_table_iff in Hin. unfold CLUSTER_COUNT in Hin.
  assert (Hq : 0 <= e / 512 < 8) by (Z.div_mod_to_equations; lia).
  rewrite Hpart.
  - unfold FAT_CLUSTER_START.
    replace (1 + e / 512 - 1) with (e / 512) by lia.
    apply fat_bytes_decode. lia.
  - unfold fat_region, FAT_CLUSTER_START, FAT_CLUSTER_COUNT.
    apply andb_true_iff. split; [apply Z.leb_le|apply Z.ltb_lt]; lia.
Qed.

(** X4: the FAT round trip.  A table of 16-bit entries written by the
    persist loop and read back by [fs_load_fat] is the table that was in
    memory; the clusters outside the FAT region are not touched. *)
Theorem persist_then_load (st : fs_state) :
  (forall e, in_table e = true -> 0 <= g_fat_table st e < 65536) ->
  exists st',
    persist_fat st = Some st'
    /\ (forall e, g_fat_table (after (fs_load_fat st')) e = g_fat_table st e)
    /\ (forall c, fat_region c = false ->
                  partition (after (fs_load_fat st')) c = partition st c).
Proof.
  intros H16.
  destruct (persist_fat_spec st) as (st' & Hp & Hfat & Hpart).
  exists st'. split; [exact Hp|]. split.
  - intros e. rewrite (load_of_persisted st st' Hfat).
    + destruct (in_table e) eqn:Hin; [|reflexivity].
      apply Z.mod_small. now apply H16.
    + intros c Hc. now rewrite Hpart, Hc.
  - intros c Hc. unfold fs_load_fat. cbn [after partition].
    now rewrite Hpart, Hc.
Qed.

Lemma format_fat_16 e : 0 <= format_fat e < 65536.
Proof.
  unfold format_fat.
  destruct (e =? ROOT_DIR_CLUSTER); [vm_compute; split; [discriminate|reflexivity]|].
  destruct ((FAT_CLUSTER_START <=? e) && (e <? FAT_CLUSTER_START + FAT_CLUSTER_COUNT));
    [vm_compute; split; [discriminate|reflexivity]|].
  destruct (e =? BOOT_BLOCK_CLUSTER);
    vm_compute; split; try discriminate; reflexivity.
Qed.

Lemma persist_then_load_witness :
  exists st',
    persist_fat (mkState format_fat (fun _ => zero_buffer)) = Some st'
    /\ (forall e, g_fat_table (after (fs_load_fat st')) e = format_fat e)
    /\ (forall c, fat_region c = false ->
                  partition (after (fs_load_fat st')) c = zero_buffer).
Proof.
  apply (persist_then_load (mkState format_fat (fun _ => zero_buffer))).
  intros e _. apply format_fat_16.
Defined.

(** X5: [init] then [load], from any previous state: the format returns 0
    and the table then loaded marks the boot block, reserves the eight FAT
    clusters, ends the root directory's chain and leaves every data cluster
    free, so that the first allocation gets cluster 10; on disk the boot
    block is filled with 0xBB and the root directory and the data area are
    zero. *)
Theorem format_then_load (st : fs_state) :
  exists rep,
    fs_format st = Done rep /\ code rep = 0
    /\ g_fat_table (after (fs_load_fat (after rep))) BOOT_BLOCK_CLUSTER
       = FAT_ENTRY_BOOT
    /\ (forall e, FAT_CLUSTER_START <= e < FAT_CLUSTER_START + FAT_CLUSTER_COUNT ->
                  g_fat_table (after (fs_load_fat (after rep))) e
                  = FAT_ENTRY_RESERVED)
    /\ g_fat_table (after (fs_load_fat (after rep))) ROOT_DIR_CLUSTER
       = FAT_ENTRY_EOF
    /\ (forall e, data_cluster e ->
                  g_fat_table (after (fs_load_fat (after rep))) e
                  = FAT_ENTRY_FREE)
    /\ find_free_cluster (g_fat_table (after (fs_load_fat (after rep))))
       = DATA_CLUSTER_START
    /\ (forall off,
          partition (after (fs_load_fat (after rep))) BOOT_BLOCK_CLUSTER off
          = 0xBB)
    /\ (forall c off, c = ROOT_DIR_CLUSTER \/ data_cluster c ->
          partition (after (fs_load_fat (after rep))) c off = 0).
Proof.
  unfold fs_format.
  rewrite (write_cluster_in _ BOOT_BLOCK_CLUSTER) by reflexivity.
  cbv zeta. cbn [g_fat_table partition].
  rewrite (write_cluster_in _ FAT_CLUSTER_START) by reflexivity.
  cbn [g_fat_table partition].
  match goal with
  | |- context [persist_fat ?s] =>
      destruct (persist_fat_spec s) as (st3 & Hp & Hfat & Hpart)
  end.
  rewrite Hp. rewrite (write_cluster_in _ ROOT_DIR_CLUSTER) by reflexivity.
  cbn [g_fat_table partition] in Hfat, Hpart.
  eexists. split; [reflexivity|]. cbn [code after].
  split; [reflexivity|].
  assert (Hload : forall e,
            g_fat_table
              (after (fs_load_fat
                        (mkState (g_fat_table st3)
                           (upd (partition st3) ROOT_DIR_CLUSTER zero_buffer)))) e
            = format_fat e).
  { intros e.
    rewrite (load_of_persisted (mkState format_fat (fun _ => zero_buffer)) _);
      cbn [g_fat_table partition].
    - destruct (in_table e); [|reflexivity].
      apply Z.mod_small. apply format_fat_16.
    - exact Hfat.
    - intros c Hc. rewrite upd_other.
      + now rewrite Hpart, Hc.
      + intros ->. discriminate Hc. }
  assert (Hdata : forall e, data_cluster e -> format_fat e = FAT_ENTRY_FREE).
  { intros e He. unfold data_cluster, DATA_CLUSTER_START, CLUSTER_COUNT in He.
    unfold format_fat, ROOT_DIR_CLUSTER, FAT_CLUSTER_START, FAT_CLUSTER_COUNT,
      BOOT_BLOCK_CLUSTER.
    destruct (Z.eqb_spec e 9); [lia|].
    destruct (Z.ltb_spec e (1 + 8)); [lia|]. rewrite andb_false_r.
    destruct (Z.eqb_spec e 0); [lia|reflexivity]. }
  split; [now rewrite Hload|]. split.
  { intros e He. rewrite Hload.
    unfold format_fat, ROOT_DIR_CLUSTER, FAT_CLUSTER_START, FAT_CLUSTER_COUNT in *.
    destruct (Z.eqb_spec e 9); [lia|].
    destruct (Z.leb_spec 1 e); [|lia].
    destruct (Z.ltb_spec e (1 + 8)); [reflexivity|lia]. }
  split; [now rewrite Hload|].
  split; [intros e He; rewrite Hload; now apply Hdata|].
  split.
  { match goal with |- find_free_cluster ?f = _ => set (fat := f) in * end.
    unfold find_free_cluster.
    destruct (find_free_from_spec fat
                (Z.to_nat (CLUSTER_COUNT - DATA_CLUSTER_START))
                DATA_CLUSTER_START) as [[_ Hall]|(Hr & _ & Hlow)].
    - reflexivity.
    - exfalso. apply (Hall 10); [vm_compute; split; [discriminate|reflexivity]|].
      rewrite Hload. reflexivity.
    - destruct (Z.eq_dec
                  (find_free_from fat
                     (Z.to_nat (CLUSTER_COUNT - DATA_CLUSTER_START))
                     DATA_CLUSTER_START) DATA_CLUSTER_START) as [E|E];
        [exact E|].
      exfalso. apply (Hlow 10); [unfold DATA_CLUSTER_START in *; lia|].
      rewrite Hload. reflexivity. }
  unfold fs_load_fat. cbn [after partition]. split.
  - intros off. rewrite upd_other by discriminate.
    rewrite Hpart. cbn [fat_region]. reflexivity.
  - intros c off [->|Hc]; [now rewrite upd_same|].
    rewrite upd_other.
    + rewrite Hpart, (data_cluster_not_fat_region _ Hc).
      unfold upd.
      unfold data_cluster, DATA_CLUSTER_START in Hc.
      destruct (Z.eqb_spec c FAT_CLUSTER_START); [unfold FAT_CLUSTER_START in *; lia|].
      destruct (Z.eqb_spec c BOOT_BLOCK_CLUSTER);
        [unfold BOOT_BLOCK_CLUSTER in *; lia|reflexivity].
    + unfold data_cluster, DATA_CLUSTER_START, ROOT_DIR_CLUSTER in *. lia.
Qed.

(** ** The path resolver *)

Lemma split_on_slashes s :
  Forall (fun b => b = SLASH) s -> Forall (fun f => f = []) (split_on SLASH s).
Proof.
  induction 1 as [|b s Hb _ IH]; cbn [split_on].
  - repeat constructor.
  - subst b. rewrite Z.eqb_refl. constructor; [reflexivity|exact IH].
Qed.

Lemma strtok_all_slashes s :
  Forall (fun b => b = SLASH) s -> strtok_all s = [].
Proof.
  intros H. apply split_on_slashes in H. unfold strtok_all.
  induction H as [|f fs Hf _ IH]; [reflexivity|].
  subst f. cbn [filter is_nil negb]. exact IH.
Qed.

Lemma list_eqb_false a b : a <> b -> list_eqb a b = false.
Proof. unfold list_eqb. destruct (list_eq_dec Z.eq_dec a b); congruence. Qed.

Lemma list_eqb_refl a : list_eqb a a = true.
Proof. unfold list_eqb. destruct (list_eq_dec Z.eq_dec a a); congruence. Qed.

Lemma firstn_not_single (n : nat) (p : list Z) (x : Z) :
  (2 <= n)%nat -> length p <> 1%nat -> firstn n p <> [x].
Proof.
  intros Hn Hp Heq. apply (f_equal (@length Z)) in Heq.
  rewrite length_firstn in Heq. cbn [length] in Heq. lia.
Qed.

(** X6: a path made of slashes only, other than the single slash, and the
    empty path name nothing: the resolver returns 0 with [found] false,
    whatever the disk holds.  In particular [//] is not the root. *)
Theorem resolver_slashes_only (st : fs_state) (path : list Z) :
  Forall (fun b => b = SLASH) path -> length path <> 1%nat ->
  find_entry_by_path st path = Done (0, initial_result)
  /\ found initial_result = false.
Proof.
  intros Hall Hlen. split; [|reflexivity].
  unfold find_entry_by_path. cbv zeta.
  rewrite list_eqb_false by (apply firstn_not_single; [lia|exact Hlen]).
  rewrite strtok_all_slashes; [reflexivity|].
  apply Forall_forall. intros b Hb. rewrite Forall_forall in Hall.
  apply Hall. rewrite <- (firstn_skipn 511 path). apply in_or_app. now left.
Qed.

Lemma resolver_slashes_only_witness :
  find_entry_by_path (mkState format_fat (fun _ => zero_buffer)) [SLASH; SLASH]
  = Done (0, initial_result)
  /\ found initial_result = false.
Proof.
  apply (resolver_slashes_only _ [SLASH; SLASH]).
  - repeat constructor.
  - cbn. lia.
Defined.

Lemma strtok_all_cons_slash s : strtok_all (SLASH :: s) = strtok_all s.
Proof.
  unfold strtok_all. cbn [split_on]. rewrite Z.eqb_refl. reflexivity.
Qed.

Lemma strtok_all_trailing_slash s : strtok_all (s ++ [SLASH]) = strtok_all s.
Proof.
  unfold strtok_all. rewrite split_on_app, filter_app. cbn. apply app_nil_r.
Qed.

(** X7: the resolver treats every path as rooted and ignores a trailing
    slash: for a path that is neither empty nor the single slash, and short
    enough for the 511-byte copy, a slash put in front or at the end gives
    the same result. *)
Theorem resolver_ignores_outer_slashes (st : fs_state) (path : list Z) :
  path <> [] -> path <> [SLASH] -> (length path <= 510)%nat ->
  find_entry_by_path st (SLASH :: path) = find_entry_by_path st path
  /\ find_entry_by_path st (path ++ [SLASH]) = find_entry_by_path st path.
Proof.
  intros Hne Hroot Hlen. unfold find_entry_by_path. cbv zeta.
  rewrite (@firstn_all2 Z 511 path) by lia.
  rewrite (@firstn_all2 Z 511 (SLASH :: path)) by (cbn [length]; lia).
  rewrite (@firstn_all2 Z 511 (path ++ [SLASH]))
    by (rewrite length_app; cbn [length]; lia).
  rewrite (list_eqb_false path) by exact Hroot.
  rewrite strtok_all_cons_slash, strtok_all_trailing_slash.
  rewrite (list_eqb_false (SLASH :: path)) by congruence.
  rewrite (list_eqb_false (path ++ [SLASH])).
  - split; reflexivity.
  - intros Heq. destruct path as [|a [|b p]]; [congruence|discriminate|discriminate].
Qed.

Lemma resolver_ignores_outer_slashes_witness :
  find_entry_by_path (mkState format_fat (fun _ => zero_buffer))
                     (SLASH :: bytes_of_string "a/b")
  = find_entry_by_path (mkState format_fat (fun _ => zero_buffer))
                       (bytes_of_string "a/b")
  /\ find_entry_by_path (mkState format_fat (fun _ => zero_buffer))
                        (bytes_of_string "a/b" ++ [SLASH])
     = find_entry_by_path (mkState format_fat (fun _ => zero_buffer))
                          (bytes_of_string "a/b").
Proof.
  apply (resolver_ignores_outer_slashes _ (bytes_of_string "a/b")).
  - discriminate.
  - discriminate.
  - cbn. lia.
Defined.

Lemma scan_dir_first buf token n : forall i k,
  scan_dir buf token n i = Done (Some k) ->
  i <= k < i + Z.of_nat n
  /\ buf (slot_offset k) <> 0
  /\ strcmp_at buf (slot_offset k) token = Done true
  /\ forall j, i <= j < k ->
               buf (slot_offset j) = 0
               \/ strcmp_at buf (slot_offset j) token = Done false.
Proof.
  induction n as [|n IH]; intros i k Hs; [discriminate|].
  rewrite scan_dir_S in Hs.
  destruct (Z.eqb_spec (buf (slot_offset i)) 0) as [Hz|Hnz]; cbn [negb] in Hs.
  - destruct (IH _ _ Hs) as (Hr & Hocc & Heq & Hlow).
    split; [lia|]. split; [exact Hocc|]. split; [exact Heq|].
    intros j Hj. destruct (Z.eq_dec j i) as [->|Hne]; [now left|].
    apply Hlow. lia.
  - destruct (strcmp_at buf (slot_offset i) token) as [[|]| |] eqn:Hcmp;
      cbn [bind] in Hs; try discriminate.
    + apply Done_inj in Hs. injection Hs as <-.
      split; [lia|]. split; [exact Hnz|]. split; [exact Hcmp|].
      intros j Hj. lia.
    + destruct (IH _ _ Hs) as (Hr & Hocc & Heq & Hlow).
      split; [lia|]. split; [exact Hocc|]. split; [exact Heq|].
      intros j Hj. destruct (Z.eq_dec j i) as [->|Hne]; [now right|].
      apply Hlow. lia.
Qed.

Lemma resolve_loop_first_match st tokens : forall current result r,
  tokens <> [] ->
  resolve_loop st tokens current result = Done (0, r) -> found r = true ->
  0 <= entry_index r < DIR_ENTRIES_PER_CLUSTER
  /\ partition st (parent_cluster r) (slot_offset (entry_index r)) <> 0
  /\ entry_cluster r = first_block (entry r)
  /\ name r = strncpy17 (last tokens [])
  /\ strcmp_at (partition st (parent_cluster r)) (slot_offset (entry_index r))
               (last tokens []) = Done true
  /\ forall j, 0 <= j < entry_index r ->
       partition st (parent_cluster r) (slot_offset j) = 0
       \/ strcmp_at (partition st (parent_cluster r)) (slot_offset j)
                    (last tokens []) = Done false.
Proof.
  induction tokens as [|token rest IH]; intros current result r Hne Hres Hf;
    [congruence|].
  rewrite resolve_loop_cons in Hres. cbv zeta in Hres.
  destruct (read_cluster st current) as [buf|] eqn:Hread; [|discriminate].
  apply read_cluster_some in Hread. destruct Hread as [Htab ->].
  destruct (scan_dir (partition st current) token
              (Z.to_nat DIR_ENTRIES_PER_CLUSTER) 0)
    as [[i|]| |] eqn:Hscan; cbn [bind] in Hres; try discriminate.
  - destruct rest as [|t2 rest'].
    + rewrite resolve_loop_nil in Hres. apply Done_inj in Hres.
      injection Hres as <-.
      cbn [parent_cluster entry_index entry entry_cluster name last].
      destruct (scan_dir_first _ _ _ _ _ Hscan) as (Hr & Hocc & Heq & Hlow).
      split; [unfold DIR_ENTRIES_PER_CLUSTER in *; lia|].
      split; [exact Hocc|]. split; [reflexivity|]. split; [reflexivity|].
      split; [exact Heq|exact Hlow].
    + assert (Hne' : t2 :: rest' <> []) by discriminate.
      change (last (token :: t2 :: rest') []) with (last (t2 :: rest') []).
      apply (IH _ _ _ Hne' Hres Hf).
  - apply Done_inj in Hres. injection Hres as <-. discriminate.
Qed.

Lemma lookup_returns_first_match_core st path r :
  strtok_all (firstn 511 path) <> [] ->
  find_entry_by_path st path = Done (0, r) -> found r = true ->
  0 <= entry_index r < DIR_ENTRIES_PER_CLUSTER
  /\ forall j, 0 <= j < entry_index r ->
       partition st (parent_cluster r) (slot_offset j) = 0
       \/ strcmp_at (partition st (parent_cluster r)) (slot_offset j)
                    (last (strtok_all (firstn 511 path)) []) = Done false.
Proof.
  intros Hne Hfind Hf.
  rewrite find_entry_by_path_loop in Hfind by exact Hne.
  destruct (resolve_loop_first_match _ _ _ _ _ Hne Hfind Hf)
    as (Hr & _ & _ & _ & _ & Hlow).
  split; [exact Hr|exact Hlow].
Qed.

(** X8: what a successful lookup returns.  The entry found for a path with
    at least one component sits in an occupied slot 0..31 of
    [parent_cluster], [entry] is that slot decoded and [entry_cluster] its
    first block; the slot is the first one whose name matches the last
    component, every slot before it being free or holding another name, so
    an entry of the same name further down the directory is never
    reached. *)
Theorem lookup_returns_first_match (st : fs_state) (path : list Z)
    (r : path_search_result_t) :
  strtok_all (firstn 511 path) <> [] ->
  find_entry_by_path st path = Done (0, r) -> found r = true ->
  in_table (parent_cluster r) = true
  /\ 0 <= entry_index r < DIR_ENTRIES_PER_CLUSTER
  /\ partition st (parent_cluster r) (slot_offset (entry_index r)) <> 0
  /\ entry r = entry_at (partition st (parent_cluster r)) (entry_index r)
  /\ entry_cluster r = first_block (entry r)
  /\ strcmp_at (partition st (parent_cluster r)) (slot_offset (entry_index r))
               (last (strtok_all (firstn 511 path)) []) = Done true
  /\ forall j, 0 <= j < entry_index r ->
       partition st (parent_cluster r) (slot_offset j) = 0
       \/ strcmp_at (partition st (parent_cluster r)) (slot_offset j)
                    (last (strtok_all (firstn 511 path)) []) = Done false.
Proof.
  intros Hne Hfind Hf.
  rewrite find_entry_by_path_loop in Hfind by exact Hne.
  destruct (resolve_loop_entry _ _ _ _ _ Hne Hfind Hf) as [Hentry Htab].
  destruct (resolve_loop_first_match _ _ _ _ _ Hne Hfind Hf)
    as (Hr & Hocc & Hec & _ & Heq & Hlow).
  split; [exact Htab|]. split; [exact Hr|]. split; [exact Hocc|].
  split; [exact Hentry|]. split; [exact Hec|]. split; [exact Heq|exact Hlow].
Qed.

Lemma lookup_returns_first_match_witness :
  in_table 10 = true
  /\ 0 <= 0 < DIR_ENTRIES_PER_CLUSTER
  /\ partition (session_state hello_script) 10 (slot_offset 0) <> 0
  /\ entry_at (partition (session_state hello_script) 10) 0
     = entry_at (partition (session_state hello_script) 10) 0
  /\ 11 = first_block (entry_at (partition (session_state hello_script) 10) 0)
  /\ strcmp_at (partition (session_state hello_script) 10) (slot_offset 0)
       (last (strtok_all (firstn 511 (bytes_of_string "/docs/hello.txt"))) [])
     = Done true
  /\ forall j, 0 <= j < 0 ->
       partition (session_state hello_script) 10 (slot_offset j) = 0
       \/ strcmp_at (partition (session_state hello_script) 10) (slot_offset j)
            (last (strtok_all (firstn 511 (bytes_of_string "/docs/hello.txt")))
                  []) = Done false.
Proof.
  apply (lookup_returns_first_match (session_state hello_script)
           (bytes_of_string "/docs/hello.txt")
           (mkResult (strncpy17 (bytes_of_string "hello.txt")) true 10 11 0
              (entry_at (partition (session_state hello_script) 10) 0))).
  - vm_compute. discriminate.
  - vm_compute. reflexivity.
  - reflexivity.
Defined.

(** ** [fs_mkdir], [fs_create] and [fs_unlink] *)

Ltac fail_branch H :=
  apply Done_inj in H; rewrite <- H; reflexivity.

(** The allocation part shared by [fs_mkdir] and [fs_create]: it either
    fails without touching the state or returns 0. *)
Lemma make_tail_atomic (directory : bool) st ec new_name attr rep :
  (let '(free_entry_index, parent_cluster_data) := find_free_dir_entry st ec in
   if free_entry_index <? 0 then fail DirectoryFull st
   else
     let new_cluster_idx := find_free_cluster (g_fat_table st) in
     if new_cluster_idx =? 0 then fail NoSpace st
     else
       let parent_cluster_data :=
         fill_entry parent_cluster_data free_entry_index new_name attr
                    new_cluster_idx in
       let st1 := set_fat st new_cluster_idx FAT_ENTRY_EOF in
       match write_cluster st1 ec parent_cluster_data with
       | None => fail IOError st1
       | Some st2 =>
           if directory then
             match write_cluster st2 new_cluster_idx zero_buffer with
             | None => fail IOError st2
             | Some st3 => persist_and_return st3
             end
           else persist_and_return st2
       end) = Done rep ->
  code rep <> 0 -> after rep = st.
Proof.
  intros Hm Hcode. unfold find_free_dir_entry in Hm.
  destruct (read_cluster st ec) as [buf|] eqn:Hread.
  - apply read_cluster_some in Hread. destruct Hread as [Htab ->].
    destruct (first_free_slot (partition st ec)
                (Z.to_nat DIR_ENTRIES_PER_CLUSTER) 0 <? 0);
      [fail_branch Hm|].
    cbv zeta in Hm.
    destruct (find_free_cluster_spec (g_fat_table st)) as [[H0 _]|[Hdc _]].
    + rewrite H0 in Hm. cbn [Z.eqb] in Hm. fail_branch Hm.
    + assert (Hnz : (find_free_cluster (g_fat_table st) =? 0) = false).
      { apply Z.eqb_neq. unfold data_cluster, DATA_CLUSTER_START in Hdc. lia. }
      rewrite Hnz in Hm. exfalso. apply Hcode.
      rewrite write_cluster_in in Hm by exact Htab.
      destruct directory.
      * rewrite write_cluster_in in Hm by (now apply data_cluster_in_table).
        match type of Hm with
        | persist_and_return ?s = _ =>
            destruct (persist_and_return_spec s) as (st4 & Hp & _)
        end.
        rewrite Hp in Hm. apply Done_inj in Hm. now rewrite <- Hm.
      * match type of Hm with
        | persist_and_return ?s = _ =>
            destruct (persist_and_return_spec s) as (st4 & Hp & _)
        end.
        rewrite Hp in Hm. apply Done_inj in Hm. now rewrite <- Hm.
  - cbn [Z.ltb Z.compare] in Hm. fail_branch Hm.
Qed.

(** X9: [fs_mkdir] and [fs_create] are all-or-nothing: a call that returns
    a failure (invalid path, parent missing or not a directory, directory
    full, no space) leaves the FAT in memory and the whole partition as
    they were. *)
Theorem make_failure_changes_nothing (directory : bool) (st : fs_state)
    (path : list Z) (rep : reply) :
  make directory st path = Done rep -> code rep <> 0 -> after rep = st.
Proof.
  intros Hm Hcode. unfold make in Hm. destruct directory.
  - unfold fs_mkdir in Hm.
    destruct (split_path path) as [[[pp nn]|]| |]; cbn [bind] in Hm;
      try discriminate; [|fail_branch Hm].
    destruct (find_entry_by_path st pp) as [[rc pinfo]| |];
      cbn [bind fst snd] in Hm; try discriminate.
    destruct (negb (rc =? 0) || negb (found pinfo)); [fail_branch Hm|].
    destruct (negb (attributes (entry pinfo) =? ATTR_DIRECTORY));
      [fail_branch Hm|].
    apply (make_tail_atomic true st (entry_cluster pinfo) nn ATTR_DIRECTORY rep);
      assumption.
  - unfold fs_create in Hm.
    destruct (split_path path) as [[[pp nn]|]| |]; cbn [bind] in Hm;
      try discriminate; [|fail_branch Hm].
    destruct (find_entry_by_path st pp) as [[rc pinfo]| |];
      cbn [bind fst snd] in Hm; try discriminate.
    destruct (negb (rc =? 0) || negb (found pinfo)
              || negb (attributes (entry pinfo) =? ATTR_DIRECTORY));
      [fail_branch Hm|].
    apply (make_tail_atomic false st (entry_cluster pinfo) nn ATTR_ARCHIVE rep);
      assumption.
Qed.

Lemma make_failure_changes_nothing_witness :
  after (mkReply (-1) InvalidPath (session_state hello_script))
  = session_state hello_script.
Proof.
  apply (make_failure_changes_nothing true (session_state hello_script)
           (bytes_of_string "docs") _).
  - reflexivity.
  - discriminate.
Defined.

(** [strcmp] reads the buffer no further than the terminator of the token. *)
Lemma strcmp_at_ext buf buf' token : forall off,
  (forall j, off <= j <= off + Z.of_nat (length token) -> buf' j = buf j) ->
  strcmp_at buf' off token = strcmp_at buf off token.
Proof.
  induction token as [|t token IH]; intros off H; cbn [strcmp_at].
  - rewrite H by (cbn [length]; lia). reflexivity.
  - rewrite H by (cbn [length]; lia).
    destruct (off <? CLUSTER_SIZE); [|reflexivity].
    destruct (buf off =? t); [|reflexivity].
    apply IH. intros j Hj. apply H. cbn [length]. lia.
Qed.

Lemma strcmp_at_match buf token : forall off,
  (forall k, (k < length token)%nat -> buf (off + Z.of_nat k) = nth k token 0) ->
  buf (off + Z.of_nat (length token)) = 0 ->
  off + Z.of_nat (length token) < CLUSTER_SIZE ->
  strcmp_at buf off token = Done true.
Proof.
  induction token as [|t token IH]; intros off Hb Hz Hlt; cbn [strcmp_at].
  - cbn [length] in *. rewrite Z.add_0_r in *.
    destruct (Z.ltb_spec off CLUSTER_SIZE); [|lia]. now rewrite Hz.
  - cbn [length] in *.
    destruct (Z.ltb_spec off CLUSTER_SIZE); [|lia].
    pose proof (Hb O ltac:(lia)) as H0. cbn [nth] in H0.
    rewrite Z.add_0_r in H0. rewrite H0, Z.eqb_refl.
    apply IH.
    + intros k Hk. specialize (Hb (S k) ltac:(lia)). cbn [nth] in Hb.
      rewrite <- Hb. f_equal. lia.
    + rewrite <- Hz. f_equal. lia.
    + lia.
Qed.

Lemma scan_dir_none buf token n : forall i,
  scan_dir buf token n i = Done None ->
  forall j, i <= j < i + Z.of_nat n ->
            buf (slot_offset j) = 0
            \/ strcmp_at buf (slot_offset j) token = Done false.
Proof.
  induction n as [|n IH]; intros i Hs j Hj; [lia|].
  rewrite scan_dir_S in Hs.
  destruct (Z.eqb_spec (buf (slot_offset i)) 0) as [Hz|Hnz]; cbn [negb] in Hs.
  - destruct (Z.eq_dec j i) as [->|Hne]; [now left|].
    apply (IH _ Hs). lia.
  - destruct (strcmp_at buf (slot_offset i) token) as [[|]| |] eqn:Hcmp;
      cbn [bind] in Hs; try discriminate.
    destruct (Z.eq_dec j i) as [->|Hne]; [now right|].
    apply (IH _ Hs). lia.
Qed.

(** The scan reaches slot [i] when the slots before it are free or hold
    another name, and matches there. *)
Lemma scan_dir_reaches buf token i n : forall k,
  0 <= k -> k <= i < k + Z.of_nat n ->
  (forall j, k <= j < i ->
             buf (slot_offset j) = 0
             \/ strcmp_at buf (slot_offset j) token = Done false) ->
  buf (slot_offset i) <> 0 ->
  strcmp_at buf (slot_offset i) token = Done true ->
  scan_dir buf token n k = Done (Some i).
Proof.
  induction n as [|n IH]; intros k Hk Hi Hlow Hocc Heq; [lia|].
  rewrite scan_dir_S.
  destruct (Z.eq_dec k i) as [->|Hne].
  - destruct (Z.eqb_spec (buf (slot_offset i)) 0); [contradiction|].
    cbn [negb]. rewrite Heq. reflexivity.
  - assert (Hrec : scan_dir buf token n (k + 1) = Done (Some i)).
    { apply IH; try assumption; [lia|lia|]. intros j Hj. apply Hlow. lia. }
    destruct (Hlow k ltac:(lia)) as [Hz|Hf].
    + rewrite Hz. cbn [Z.eqb negb]. exact Hrec.
    + destruct (negb (buf (slot_offset k) =? 0)); [|exact Hrec].
      rewrite Hf. cbn [bind]. exact Hrec.
Qed.

Lemma strncpy17_short src :
  (length src <= 17)%nat ->
  strncpy17 src = src ++ repeat 0 (18 - length src).
Proof.
  intros H. unfold strncpy17. rewrite firstn_all2 by exact H.
  f_equal. replace (18 - length src)%nat with (S (17 - length src)) by lia.
  cbn [repeat]. symmetry. apply repeat_cons.
Qed.

Lemma nth_strncpy17 src k :
  (length src <= 17)%nat ->
  nth k (strncpy17 src) 0 = nth k src 0.
Proof.
  intros H. rewrite strncpy17_short by exact H.
  destruct (Nat.lt_ge_cases k (length src)) as [Hlt|Hge].
  - now apply app_nth1.
  - rewrite app_nth2 by exact Hge. rewrite nth_repeat.
    symmetry. now apply nth_overflow.
Qed.

(** The slot filled by [fs_mkdir] / [fs_create], decoded. *)
Lemma entry_at_fill_entry buf i new_name attr new :
  0 <= new < 65536 ->
  entry_at (fill_entry buf i new_name attr new) i
  = mkEntry (strncpy17 new_name) attr (bytes_at buf (slot_offset i + 19) 7)
            new 0.
Proof.
  intros Hnew. unfold entry_at. cbv zeta. rewrite fill_entry_stored.
  f_equal.
  - unfold fill_entry. cbv zeta.
    rewrite !poke_out by (cbn [length bytes_le16 bytes_le32]; lia).
    rewrite poke_in by (cbn [length]; lia).
    replace (slot_offset i + 18 - (slot_offset i + 18)) with 0 by lia.
    reflexivity.
  - unfold bytes_at. apply map_ext_in. intros k Hk. apply in_seq in Hk.
    unfold fill_entry. cbv zeta.
    rewrite !poke_out; [reflexivity| | | |];
      try rewrite strncpy17_length; cbn [length bytes_le16 bytes_le32]; lia.
  - unfold fill_entry. cbv zeta.
    rewrite !(poke_out _ (slot_offset i + 28))
      by (cbn [length bytes_le32]; lia).
    rewrite !poke_in by (cbn [length bytes_le16]; lia).
    replace (slot_offset i + 26 - (slot_offset i + 26)) with 0 by lia.
    replace (slot_offset i + 27 - (slot_offset i + 26)) with 1 by lia.
    cbn [Z.to_nat nth bytes_le16]. now apply le16_bytes.
  - unfold fill_entry. cbv zeta.
    rewrite !poke_in by (cbn [length bytes_le32]; lia).
    replace (slot_offset i + 28 - (slot_offset i + 28)) with 0 by lia.
    replace (slot_offset i + 29 - (slot_offset i + 28)) with 1 by lia.
    replace (slot_offset i + 30 - (slot_offset i + 28)) with 2 by lia.
    replace (slot_offset i + 31 - (slot_offset i + 28)) with 3 by lia.
    reflexivity.
Qed.

Lemma resolve_single st token c result :
  in_table c = true ->
  resolve_loop st [token] c result =
  (do hit <- scan_dir (partition st c) token (Z.to_nat DIR_ENTRIES_PER_CLUSTER) 0;
   match hit with
   | Some i =>
       Done (0, mkResult (strncpy17 token) true c
                  (first_block (entry_at (partition st c) i)) i
                  (entry_at (partition st c) i))
   | None =>
       Done (0, mkResult (strncpy17 token) false (parent_cluster result)
                  (entry_cluster result) (entry_index result) (entry result))
   end).
Proof.
  intros Htab. rewrite resolve_loop_cons. cbv zeta.
  unfold read_cluster. rewrite Htab.
  destruct (scan_dir (partition st c) token (Z.to_nat DIR_ENTRIES_PER_CLUSTER) 0)
    as [[i|]| |]; reflexivity.
Qed.

Lemma resolve_single_not_found st token c result r0 :
  in_table c = true ->
  resolve_loop st [token] c result = Done (0, r0) -> found r0 = false ->
  scan_dir (partition st c) token (Z.to_nat DIR_ENTRIES_PER_CLUSTER) 0
  = Done None.
Proof.
  intros Htab Hres Hf. rewrite resolve_single in Hres by exact Htab.
  destruct (scan_dir (partition st c) token (Z.to_nat DIR_ENTRIES_PER_CLUSTER) 0)
    as [[i|]| |]; cbn [bind] in Hres; try discriminate; [|reflexivity].
  apply Done_inj in Hres. injection Hres as <-. discriminate.
Qed.

(** The scan of a directory buffer for a short name just stored in slot
    [i], when no slot bore the name before. *)
Lemma scan_dir_after_fill buf i new_name attr new :
  0 <= i < DIR_ENTRIES_PER_CLUSTER ->
  c_string new_name -> (0 < length new_name <= 17)%nat ->
  scan_dir buf new_name (Z.to_nat DIR_ENTRIES_PER_CLUSTER) 0 = Done None ->
  scan_dir (fill_entry buf i new_name attr new) new_name
           (Z.to_nat DIR_ENTRIES_PER_CLUSTER) 0 = Done (Some i).
Proof.
  intros Hi Hcs Hlen Hnone. unfold DIR_ENTRIES_PER_CLUSTER in *.
  assert (Hname : forall k, 0 <= k < 18 ->
            fill_entry buf i new_name attr new (slot_offset i + k)
            = nth (Z.to_nat k) new_name 0).
  { intros k Hk. rewrite fill_entry_name by exact Hk.
    apply nth_strncpy17. lia. }
  apply scan_dir_reaches.
  - lia.
  - lia.
  - intros j Hj.
    assert (Hout : forall k, 0 <= k < 18 ->
              ~ (slot_offset i <= slot_offset j + k < slot_offset i + 32)).
    { intros k Hk. unfold slot_offset, DIR_ENTRY_SIZE. lia. }
    destruct (scan_dir_none _ _ _ _ Hnone j ltac:(lia)) as [Hz|Hf].
    + left. rewrite <- (Z.add_0_r (slot_offset j)).
      rewrite fill_entry_other by (apply Hout; lia).
      now rewrite Z.add_0_r.
    + right. rewrite <- Hf. apply strcmp_at_ext. intros x Hx.
      replace x with (slot_offset j + (x - slot_offset j)) by lia.
      apply fill_entry_other. apply Hout. lia.
  - rewrite <- (Z.add_0_r (slot_offset i)), Hname by lia.
    destruct new_name as [|b bs]; [cbn in Hlen; lia|].
    cbn [Z.to_nat nth]. inversion Hcs; subst. lia.
  - apply strcmp_at_match.
    + intros k Hk. rewrite Hname by lia. now rewrite Nat2Z.id.
    + rewrite Hname by lia. rewrite Nat2Z.id. now apply nth_overflow.
    + unfold slot_offset, DIR_ENTRY_SIZE, CLUSTER_SIZE. lia.
Qed.

(** What a lookup of [tokens ++ [last]] amounts to once the parent path is
    known to resolve as before: the scan of the parent's cluster. *)
Lemma find_through_parent st st' parent_path new_name parent_info path :
  split_path path = Done (Some (parent_path, new_name)) -> new_name <> [] ->
  find_entry_by_path st parent_path = Done (0, parent_info) ->
  found parent_info = true ->
  (forall x, In x (resolve_trace st (strtok_all (firstn 511 parent_path))
                                 ROOT_DIR_CLUSTER) ->
             partition st' x = partition st x) ->
  exists result,
    find_entry_by_path st' path
    = resolve_loop st' [new_name] (entry_cluster parent_info) result.
Proof.
  intros Hsp Hne Hfind Hfound Hsame.
  destruct (split_path_tokens _ _ _ Hsp Hne) as [Htok _].
  set (tp := strtok_all (firstn 511 parent_path)) in *.
  rewrite find_entry_by_path_loop
    by (rewrite Htok; intros Habs; apply app_eq_nil in Habs;
        destruct Habs; discriminate).
  rewrite Htok.
  unfold find_entry_by_path in Hfind. cbv zeta in Hfind. fold tp in Hfind.
  destruct (list_eqb (firstn 511 parent_path) [SLASH]) eqn:Hroot.
  - apply list_eqb_true in Hroot.
    assert (Htp : tp = []) by (unfold tp; rewrite Hroot; reflexivity).
    apply Done_inj in Hfind. injection Hfind as Hpi.
    rewrite Htp, <- Hpi. cbn [app entry_cluster root_result]. eauto.
  - destruct tp as [|t ts] eqn:Htp.
    + apply Done_inj in Hfind. injection Hfind as Hpi.
      rewrite <- Hpi in Hfound. discriminate.
    + assert (Hne' : t :: ts <> []) by discriminate.
      assert (Hres : resolve_loop st' (t :: ts) ROOT_DIR_CLUSTER initial_result
                     = Done (0, parent_info)).
      { rewrite <- Hfind. apply resolve_loop_same. exact Hsame. }
      rewrite (resolve_loop_app st' (t :: ts) [new_name]
                 ROOT_DIR_CLUSTER initial_result parent_info Hne' Hres Hfound).
      eauto.
Qed.

(** X10: the create / lookup round trip.  Let [mkdir] or [create] succeed
    on a path of non-zero bytes that did not resolve before, with a final
    component of 1 to 17 bytes, and let the clusters searched to resolve
    the parent path, together with the cluster of the parent directory, be
    pairwise distinct, in use in the FAT and outside the FAT region.  Then
    the path resolves afterwards, to an entry of the parent directory that
    holds the name, the attribute asked for, size 0 and, as first block,
    the cluster that was the lowest free one; and reading a file just
    created returns 0 and emits only the newline. *)
Theorem make_then_lookup (directory : bool) (st : fs_state)
    (path parent_path new_name : list Z)
    (parent_info r0 : path_search_result_t) (rep : reply) :
  c_string path ->
  split_path path = Done (Some (parent_path, new_name)) ->
  (0 < length new_name <= 17)%nat ->
  find_entry_by_path st parent_path = Done (0, parent_info) ->
  NoDup (resolve_trace st (strtok_all (firstn 511 parent_path)) ROOT_DIR_CLUSTER
         ++ [entry_cluster parent_info]) ->
  (forall c,
     In c (resolve_trace st (strtok_all (firstn 511 parent_path)) ROOT_DIR_CLUSTER
           ++ [entry_cluster parent_info]) ->
     fat_region c = false /\ g_fat_table st c <> FAT_ENTRY_FREE) ->
  find_entry_by_path st path = Done (0, r0) -> found r0 = false ->
  make directory st path = Done rep -> code rep = 0 ->
  exists r,
    find_entry_by_path (after rep) path = Done (0, r)
    /\ found r = true
    /\ parent_cluster r = entry_cluster parent_info
    /\ entry_cluster r = find_free_cluster (g_fat_table st)
    /\ filename (entry r) = strncpy17 new_name
    /\ attributes (entry r) = (if directory then ATTR_DIRECTORY else ATTR_ARCHIVE)
    /\ first_block (entry r) = find_free_cluster (g_fat_table st)
    /\ size (entry r) = 0
    /\ (directory = false -> fs_read (after rep) path = Done (0, [10])).
Proof.
  intros Hpath Hsp Hlen Hfind Hnd Htrace Hfind0 Hf0 Hm Hcode.
  destruct (make_success _ _ _ _ Hm Hcode)
    as (pp & nn & pinfo & i & new & Hsp' & Hfind' & Hfound & Hattr & Htab & Hi
        & Hi0 & Hnew & Hd & Hfree & Hfat & Hpart).
  rewrite Hsp in Hsp'. apply Done_inj in Hsp'. injection Hsp' as <- <-.
  rewrite Hfind in Hfind'. apply Done_inj in Hfind'. injection Hfind' as <-.
  rewrite <- Hnew.
  set (c := entry_cluster parent_info) in *.
  assert (Hne : new_name <> []) by (destruct new_name; [cbn in Hlen; lia|discriminate]).
  destruct (split_path_tokens _ _ _ Hsp Hne) as [_ Hin].
  assert (Hcs : c_string new_name).
  { apply Forall_forall. intros b Hb. unfold c_string in Hpath.
    rewrite Forall_forall in Hpath. apply Hpath. now apply Hin. }
  assert (Hc : fat_region c = false /\ g_fat_table st c <> FAT_ENTRY_FREE).
  { apply Htrace. apply in_or_app. right. now left. }
  destruct Hc as [Hcreg Hcused].
  assert (Hcnew : (c =? new) = false).
  { apply Z.eqb_neq. intros Heq. apply Hcused. rewrite Heq. exact Hfree. }
  assert (Hi32 : 0 <= i < DIR_ENTRIES_PER_CLUSTER).
  { destruct (first_free_slot_range (partition st c)
                (Z.to_nat DIR_ENTRIES_PER_CLUSTER) 0) as [H|[H _]];
      rewrite <- Hi in H; unfold DIR_ENTRIES_PER_CLUSTER in *; lia. }
  assert (Hc' : partition (after rep) c
                = fill_entry (partition st c) i new_name
                    (if directory then ATTR_DIRECTORY else ATTR_ARCHIVE) new).
  { rewrite Hpart, Hcreg, Hcnew, andb_false_r. apply upd_same. }
  destruct (find_through_parent st st _ _ _ _ Hsp Hne Hfind Hfound)
    as (res0 & Hbefore); [reflexivity|].
  rewrite Hbefore in Hfind0.
  pose proof (resolve_single_not_found _ _ _ _ _ Htab Hfind0 Hf0) as Hnone.
  destruct (find_through_parent st (after rep) _ _ _ _ Hsp Hne Hfind Hfound)
    as (res1 & Hafter).
  { intros x Hx.
    assert (Hx' : In x (resolve_trace st (strtok_all (firstn 511 parent_path))
                                      ROOT_DIR_CLUSTER ++ [c]))
      by (apply in_or_app; now left).
    destruct (Htrace x Hx') as [Hxreg Hxused].
    rewrite Hpart, Hxreg.
    assert (Hxnew : (x =? new) = false).
    { apply Z.eqb_neq. intros Heq. apply Hxused. rewrite Heq. exact Hfree. }
    rewrite Hxnew, andb_false_r. apply upd_other.
    intros Heq. apply NoDup_remove_2 in Hnd. apply Hnd.
    rewrite app_nil_r. rewrite <- Heq. exact Hx. }
  fold c in Hafter.
  rewrite resolve_single in Hafter by exact Htab.
  rewrite Hc' in Hafter.
  rewrite (scan_dir_after_fill _ _ _ _ _ Hi32 Hcs Hlen Hnone) in Hafter.
  cbn [bind] in Hafter.
  assert (Hnew16 : 0 <= new < 65536).
  { unfold data_cluster, DATA_CLUSTER_START, CLUSTER_COUNT in Hd. lia. }
  rewrite (entry_at_fill_entry _ _ _ _ _ Hnew16) in Hafter.
  cbn [first_block] in Hafter.
  eexists. split; [exact Hafter|].
  cbn [found parent_cluster entry_cluster entry filename attributes
       first_block size].
  repeat (split; [reflexivity|]).
  intros ->. rewrite fs_read_unfold, Hafter.
  cbn [bind fst snd found entry attributes first_block size negb orb].
  change (ATTR_ARCHIVE =? ATTR_ARCHIVE) with true. cbn [negb].
  apply read_loop_zero.
Qed.

Lemma make_then_lookup_witness :
  exists rep,
    make false (session_state hello_script) (bytes_of_string "/docs/notes")
    = Done rep
    /\ exists r,
         find_entry_by_path (after rep) (bytes_of_string "/docs/notes")
         = Done (0, r)
         /\ found r = true
         /\ parent_cluster r = 10
         /\ entry_cluster r
            = find_free_cluster (g_fat_table (session_state hello_script))
         /\ filename (entry r) = strncpy17 (bytes_of_string "notes")
         /\ attributes (entry r) = ATTR_ARCHIVE
         /\ first_block (entry r)
            = find_free_cluster (g_fat_table (session_state hello_script))
         /\ size (entry r) = 0
         /\ (false = false ->
             fs_read (after rep) (bytes_of_string "/docs/notes")
             = Done (0, [10])).
Proof.
  assert (Hobs : observe code
                   (make false (session_state hello_script)
                      (bytes_of_string "/docs/notes")) = Done 0)
    by (vm_compute; reflexivity).
  destruct (make false (session_state hello_script)
              (bytes_of_string "/docs/notes")) as [rep| |] eqn:Hm;
    [|discriminate Hobs|discriminate Hobs].
  exists rep. split; [reflexivity|].
  assert (Hcode : code rep = 0).
  { unfold observe, bind in Hobs. apply Done_inj in Hobs. exact Hobs. }
  assert (Htr : resolve_trace (session_state hello_script)
                  (strtok_all (firstn 511 (bytes_of_string "/docs")))
                  ROOT_DIR_CLUSTER = [9]) by (vm_compute; reflexivity).
  eapply (make_then_lookup false (session_state hello_script)
            (bytes_of_string "/docs/notes") (bytes_of_string "/docs")
            (bytes_of_string "notes")
            (mkResult (strncpy17 (bytes_of_string "docs")) true 9 10 0
               (entry_at (partition (session_state hello_script) 9) 0))).
  - apply c_string_bytes. reflexivity.
  - vm_compute. reflexivity.
  - cbn. lia.
  - vm_compute. reflexivity.
  - rewrite Htr. repeat constructor; cbn; intuition discriminate.
  - intros c Hc. rewrite Htr in Hc. destruct Hc as [<-|[<-|[]]];
      (split; [reflexivity|vm_compute; discriminate]).
  - vm_compute. reflexivity.
  - reflexivity.
  - exact Hm.
  - exact Hcode.
Defined.

(** X11: what a successful [fs_mkdir] or [fs_create] changes.  It takes the
    lowest free data cluster and marks it end-of-chain, leaving every other
    FAT entry alone, and writes the FAT to its region of the disk.  Outside
    the FAT region the disk changes only in the parent directory's cluster
    and, for [mkdir], in the new cluster, which is zeroed; [create] does
    not write the cluster it allocates, whose old bytes stay on disk. *)
Theorem make_success_effects (directory : bool) (st : fs_state)
    (path : list Z) (rep : reply) :
  make directory st path = Done rep -> code rep = 0 ->
  data_cluster (find_free_cluster (g_fat_table st))
  /\ g_fat_table st (find_free_cluster (g_fat_table st)) = FAT_ENTRY_FREE
  /\ (forall e, g_fat_table (after rep) e
                = if e =? find_free_cluster (g_fat_table st)
                  then FAT_ENTRY_EOF else g_fat_table st e)
  /\ (forall c, fat_region c = true ->
                partition (after rep) c
                = fat_bytes (g_fat_table (after rep)) (c - FAT_CLUSTER_START))
  /\ exists parent,
       in_table parent = true
       /\ (forall c, fat_region c = false -> c <> parent ->
                     c <> find_free_cluster (g_fat_table st) ->
                     partition (after rep) c = partition st c)
       /\ (directory = true ->
           forall off,
             partition (after rep) (find_free_cluster (g_fat_table st)) off = 0)
       /\ (directory = false ->
           parent <> find_free_cluster (g_fat_table st) ->
           partition (after rep) (find_free_cluster (g_fat_table st))
           = partition st (find_free_cluster (g_fat_table st))).
Proof.
  intros Hm Hcode.
  destruct (make_success _ _ _ _ Hm Hcode)
    as (pp & nn & pinfo & i & new & _ & _ & _ & _ & Htab & _
        & _ & Hnew & Hd & Hfree & Hfat & Hpart).
  rewrite <- Hnew.
  pose proof (data_cluster_not_fat_region _ Hd) as Hreg.
  split; [exact Hd|]. split; [exact Hfree|]. split.
  { intros e. rewrite Hfat. reflexivity. }
  split.
  { intros c Hc. now rewrite Hpart, Hc. }
  exists (entry_cluster pinfo). split; [exact Htab|]. split.
  { intros c Hc Hp Hn. rewrite Hpart, Hc.
    apply Z.eqb_neq in Hn. rewrite Hn, andb_false_r. now apply upd_other. }
  split.
  - intros -> off. now rewrite Hpart, Hreg, Z.eqb_refl.
  - intros -> Hp. rewrite Hpart, Hreg. cbn [andb]. apply upd_other.
    congruence.
Qed.

Lemma make_success_effects_witness :
  exists rep,
    make true (state_of fresh) (bytes_of_string "/docs") = Done rep
    /\ data_cluster (find_free_cluster (g_fat_table (state_of fresh)))
    /\ g_fat_table (state_of fresh)
         (find_free_cluster (g_fat_table (state_of fresh))) = FAT_ENTRY_FREE
    /\ (forall e, g_fat_table (after rep) e
                  = if e =? find_free_cluster (g_fat_table (state_of fresh))
                    then FAT_ENTRY_EOF else g_fat_table (state_of fresh) e)
    /\ (forall c, fat_region c = true ->
                  partition (after rep) c
                  = fat_bytes (g_fat_table (after rep)) (c - FAT_CLUSTER_START))
    /\ exists parent,
         in_table parent = true
         /\ (forall c, fat_region c = false -> c <> parent ->
                       c <> find_free_cluster (g_fat_table (state_of fresh)) ->
                       partition (after rep) c = partition (state_of fresh) c)
         /\ (true = true ->
             forall off,
               partition (after rep)
                 (find_free_cluster (g_fat_table (state_of fresh))) off = 0)
         /\ (true = false ->
             parent <> find_free_cluster (g_fat_table (state_of fresh)) ->
             partition (after rep)
               (find_free_cluster (g_fat_table (state_of fresh)))
             = partition (state_of fresh)
                 (find_free_cluster (g_fat_table (state_of fresh)))).
Proof.
  assert (Hobs : observe code
                   (make true (state_of fresh) (bytes_of_string "/docs"))
                 = Done 0) by (vm_compute; reflexivity).
  destruct (make true (state_of fresh) (bytes_of_string "/docs"))
    as [rep| |] eqn:Hm; [|discriminate Hobs|discriminate Hobs].
  exists rep. split; [reflexivity|].
  apply (make_success_effects true (state_of fresh) (bytes_of_string "/docs")).
  - exact Hm.
  - unfold observe, bind in Hobs. apply Done_inj in Hobs. exact Hobs.
Defined.

Lemma first_free_slot_none buf n : forall i,
  (forall j, i <= j < i + Z.of_nat n -> buf (slot_offset j) <> 0) ->
  first_free_slot buf n i = -2.
Proof.
  induction n as [|n IH]; intros i H; [reflexivity|].
  cbn [first_free_slot].
  destruct (Z.eqb_spec (buf (slot_offset i)) 0) as [Hz|_].
  - exfalso. apply (H i); [lia|exact Hz].
  - apply IH. intros j Hj. apply H. lia.
Qed.

(** X12: a directory holds at most 32 entries.  When the parent path
    resolves to a directory whose 32 slots are all in use, [mkdir] and
    [create] fail with directory-full and leave the state as it was, even
    if the disk has free clusters. *)
Theorem make_in_full_directory (directory : bool) (st : fs_state)
    (path parent_path new_name : list Z) (parent_info : path_search_result_t) :
  split_path path = Done (Some (parent_path, new_name)) ->
  find_entry_by_path st parent_path = Done (0, parent_info) ->
  found parent_info = true ->
  attributes (entry parent_info) = ATTR_DIRECTORY ->
  (forall i, 0 <= i < DIR_ENTRIES_PER_CLUSTER ->
             partition st (entry_cluster parent_info) (slot_offset i) <> 0) ->
  make directory st path = Done (mkReply (-1) DirectoryFull st).
Proof.
  intros Hsp Hfind Hf Hattr Hfull.
  assert (Hslot : (fst (find_free_dir_entry st (entry_cluster parent_info)) <? 0)
                  = true).
  { unfold find_free_dir_entry.
    destruct (read_cluster st (entry_cluster parent_info)) as [buf|] eqn:Hr;
      [|reflexivity].
    apply read_cluster_some in Hr. destruct Hr as [_ ->]. cbn [fst].
    rewrite first_free_slot_none; [reflexivity|].
    intros j Hj. apply Hfull. unfold DIR_ENTRIES_PER_CLUSTER in *. lia. }
  destruct (find_free_dir_entry st (entry_cluster parent_info))
    as [idx pbuf] eqn:Hfd. cbn [fst] in Hslot.
  unfold make. destruct directory.
  - unfold fs_mkdir. rewrite Hsp. cbn [bind]. rewrite Hfind.
    cbn [bind fst snd]. rewrite Hf, Hattr, Hfd, Hslot. reflexivity.
  - unfold fs_create. rewrite Hsp. cbn [bind]. rewrite Hfind.
    cbn [bind fst snd]. rewrite Hf, Hattr, Hfd, Hslot. reflexivity.
Qed.

Lemma make_in_full_directory_witness :
  make true st_full_root (bytes_of_string "/more")
  = Done (mkReply (-1) DirectoryFull st_full_root).
Proof.
  apply (make_in_full_directory true st_full_root
           (bytes_of_string "/more") [SLASH] (bytes_of_string "more")
           root_result).
  - vm_compute. reflexivity.
  - reflexivity.
  - reflexivity.
  - reflexivity.
  - intros i Hi. discriminate.
Defined.

Lemma found_parent_in_table st path rc r :
  find_entry_by_path st path = Done (rc, r) -> rc = 0 -> found r = true ->
  in_table (parent_cluster r) = true.
Proof.
  intros Hfind -> Hf. unfold find_entry_by_path in Hfind. cbv zeta in Hfind.
  destruct (list_eqb (firstn 511 path) [SLASH]).
  - apply Done_inj in Hfind. injection Hfind as <-. reflexivity.
  - destruct (strtok_all (firstn 511 path)) as [|t ts] eqn:Htok.
    + apply Done_inj in Hfind. injection Hfind as <-. discriminate.
    + assert (Hne : t :: ts <> []) by discriminate.
      now destruct (resolve_loop_entry _ _ _ _ _ Hne Hfind Hf).
Qed.

(** The two ways [fs_unlink] returns: a failure that changed nothing, or a
    success that freed the chain and zeroed the slot. *)
Lemma fs_unlink_done st path rep :
  fs_unlink st path = Done rep ->
  (code rep = -1 /\ after rep = st)
  \/ exists r fat1,
       find_entry_by_path st path = Done (0, r) /\ found r = true
       /\ in_table (parent_cluster r) = true
       /\ (attributes (entry r) = ATTR_DIRECTORY ->
           in_table (entry_cluster r) = true
           /\ has_entry (partition st (entry_cluster r))
                        (Z.to_nat DIR_ENTRIES_PER_CLUSTER) 0 = false)
       /\ free_cluster_chain (g_fat_table st) (first_block (entry r)) = Done fat1
       /\ code rep = 0
       /\ g_fat_table (after rep) = fat1
       /\ forall c,
            partition (after rep) c =
            if fat_region c then fat_bytes fat1 (c - FAT_CLUSTER_START)
            else upd (partition st) (parent_cluster r)
                   (poke (partition st (parent_cluster r))
                         (slot_offset (entry_index r))
                         (repeat 0 (Z.to_nat DIR_ENTRY_SIZE))) c.
Proof.
  intros Hu. unfold fs_unlink in Hu.
  destruct (find_entry_by_path st path) as [[rc r]| |] eqn:Hfind;
    cbn [bind fst snd] in Hu; try discriminate.
  destruct (Z.eqb_spec rc 0) as [->|Hrc]; cbn [negb orb] in Hu;
    [|left; apply Done_inj in Hu; rewrite <- Hu; split; reflexivity].
  destruct (found r) eqn:Hf; cbn [negb] in Hu;
    [|left; apply Done_inj in Hu; rewrite <- Hu; split; reflexivity].
  cbv zeta in Hu.
  pose proof (found_parent_in_table _ _ _ _ Hfind eq_refl Hf) as Htab.
  assert (Hcheck :
    (exists d,
       (if attributes (entry r) =? ATTR_DIRECTORY
        then match read_cluster st (entry_cluster r) with
             | None => Some IOError
             | Some dir_content =>
                 if has_entry dir_content (Z.to_nat DIR_ENTRIES_PER_CLUSTER) 0
                 then Some DirectoryNotEmpty else None
             end
        else None) = Some d)
    \/ ((if attributes (entry r) =? ATTR_DIRECTORY
         then match read_cluster st (entry_cluster r) with
              | None => Some IOError
              | Some dir_content =>
                  if has_entry dir_content (Z.to_nat DIR_ENTRIES_PER_CLUSTER) 0
                  then Some DirectoryNotEmpty else None
              end
         else None) = None
        /\ (attributes (entry r) = ATTR_DIRECTORY ->
            in_table (entry_cluster r) = true
            /\ has_entry (partition st (entry_cluster r))
                         (Z.to_nat DIR_ENTRIES_PER_CLUSTER) 0 = false))).
  { destruct (Z.eqb_spec (attributes (entry r)) ATTR_DIRECTORY) as [Ha|Ha];
      [|right; split; [reflexivity|contradiction]].
    destruct (read_cluster st (entry_cluster r)) as [buf|] eqn:Hr;
      [|left; eauto].
    apply read_cluster_some in Hr. destruct Hr as [Hin ->].
    destruct (has_entry (partition st (entry_cluster r))
                (Z.to_nat DIR_ENTRIES_PER_CLUSTER) 0) eqn:Hh;
      [left; eauto|right; auto]. }
  destruct Hcheck as [[d Hd]|[Hnone Hdir]].
  { rewrite Hd in Hu. left. apply Done_inj in Hu. rewrite <- Hu.
    split; reflexivity. }
  rewrite Hnone in Hu.
  destruct (free_cluster_chain (g_fat_table st) (first_block (entry r)))
    as [fat1| |] eqn:Hfree; cbn [bind] in Hu; try discriminate.
  unfold read_cluster in Hu. cbn [partition] in Hu. rewrite Htab in Hu.
  rewrite write_cluster_in in Hu by exact Htab.
  match type of Hu with
  | persist_and_return ?s = _ =>
      destruct (persist_and_return_spec s) as (st4 & Hp & Hfat & Hpart)
  end.
  rewrite Hp in Hu. apply Done_inj in Hu. rewrite <- Hu. cbn [code after].
  right. exists r, fat1.
  split; [first [exact Hfind|reflexivity]|]. split; [exact Hf|].
  split; [exact Htab|]. split; [exact Hdir|].
  split; [first [exact Hfree|reflexivity]|]. split; [reflexivity|].
  split; [exact Hfat|exact Hpart].
Qed.

(** X13: [fs_unlink] is all-or-nothing as well: a call that returns a
    failure (no such entry, directory not empty) leaves the FAT in memory
    and the whole partition as they were. *)
Theorem unlink_failure_changes_nothing (st : fs_state) (path : list Z)
    (rep : reply) :
  fs_unlink st path = Done rep -> code rep <> 0 -> after rep = st.
Proof.
  intros Hu Hcode.
  destruct (fs_unlink_done _ _ _ Hu) as [[_ H]|(r & fat1 & H)]; [exact H|].
  exfalso. apply Hcode. tauto.
Qed.

Lemma unlink_failure_changes_nothing_witness :
  exists rep,
    fs_unlink (session_state hello_script) (bytes_of_string "/docs") = Done rep
    /\ after rep = session_state hello_script.
Proof.
  assert (Hobs : observe (fun r => (code r, msg r))
                   (fs_unlink (session_state hello_script)
                      (bytes_of_string "/docs"))
                 = Done (-1, DirectoryNotEmpty)) by (vm_compute; reflexivity).
  destruct (fs_unlink (session_state hello_script) (bytes_of_string "/docs"))
    as [rep| |] eqn:Hu; [|discriminate Hobs|discriminate Hobs].
  exists rep. split; [reflexivity|].
  apply (unlink_failure_changes_nothing (session_state hello_script)
           (bytes_of_string "/docs")).
  - exact Hu.
  - unfold observe, bind in Hobs. apply Done_inj in Hobs.
    injection Hobs as Hc _. rewrite Hc. discriminate.
Defined.

Lemma has_entry_false_all buf n : forall i,
  has_entry buf n i = false ->
  forall j, i <= j < i + Z.of_nat n -> buf (slot_offset j) = 0.
Proof.
  induction n as [|n IH]; intros i H j Hj; [lia|].
  cbn [has_entry] in H. apply orb_false_iff in H. destruct H as [H0 Hrest].
  apply negb_false_iff, Z.eqb_eq in H0.
  destruct (Z.eq_dec j i) as [->|Hne]; [exact H0|].
  apply (IH _ Hrest). lia.
Qed.

(** X14: what a successful [fs_unlink] changes.  In the FAT it only frees:
    every entry keeps its value or becomes free.  A directory is removed
    only if none of its 32 slots is in use.  On disk, outside the FAT
    region, only the 32 bytes of the entry's slot in the parent directory
    change, to zero: the clusters of the removed file keep their bytes. *)
Theorem unlink_success_effects (st : fs_state) (path : list Z) (rep : reply) :
  fs_unlink st path = Done rep -> code rep = 0 ->
  exists r,
    find_entry_by_path st path = Done (0, r) /\ found r = true
    /\ (forall e, g_fat_table (after rep) e = g_fat_table st e
                  \/ g_fat_table (after rep) e = FAT_ENTRY_FREE)
    /\ (attributes (entry r) = ATTR_DIRECTORY ->
        forall i, 0 <= i < DIR_ENTRIES_PER_CLUSTER ->
                  partition st (entry_cluster r) (slot_offset i) = 0)
    /\ (forall c, fat_region c = false -> c <> parent_cluster r ->
                  partition (after rep) c = partition st c)
    /\ (fat_region (parent_cluster r) = false ->
        forall off,
          partition (after rep) (parent_cluster r) off
          = if (slot_offset (entry_index r) <=? off)
               && (off <? slot_offset (entry_index r) + DIR_ENTRY_SIZE)
            then 0 else partition st (parent_cluster r) off).
Proof.
  intros Hu Hcode.
  destruct (fs_unlink_done _ _ _ Hu)
    as [[Hc _]|(r & fat1 & Hfind & Hf & Htab & Hdir & Hfree & _ & Hfat & Hpart)];
    [rewrite Hcode in Hc; discriminate|].
  exists r. split; [exact Hfind|]. split; [exact Hf|]. split.
  { intros e. rewrite Hfat. apply (free_cluster_chain_clears _ _ _ Hfree). }
  split.
  { intros Ha i Hi. destruct (Hdir Ha) as [_ Hh].
    apply (has_entry_false_all _ _ _ Hh).
    unfold DIR_ENTRIES_PER_CLUSTER in *. lia. }
  split.
  { intros c Hc Hp. rewrite Hpart, Hc. now apply upd_other. }
  intros Hreg off. rewrite Hpart, Hreg, upd_same.
  unfold poke. rewrite repeat_length.
  change (Z.of_nat (Z.to_nat DIR_ENTRY_SIZE)) with DIR_ENTRY_SIZE.
  destruct ((slot_offset (entry_index r) <=? off)
            && (off <? slot_offset (entry_index r) + DIR_ENTRY_SIZE));
    [|reflexivity].
  apply nth_repeat.
Qed.

Lemma unlink_success_effects_witness :
  exists rep,
    fs_unlink (session_state hello_script) (bytes_of_string "/docs/hello.txt")
    = Done rep
    /\ exists r,
         find_entry_by_path (session_state hello_script)
                            (bytes_of_string "/docs/hello.txt") = Done (0, r)
         /\ found r = true
         /\ (forall e,
               g_fat_table (after rep) e
               = g_fat_table (session_state hello_script) e
               \/ g_fat_table (after rep) e = FAT_ENTRY_FREE)
         /\ (attributes (entry r) = ATTR_DIRECTORY ->
             forall i, 0 <= i < DIR_ENTRIES_PER_CLUSTER ->
                       partition (session_state hello_script) (entry_cluster r)
                                 (slot_offset i) = 0)
         /\ (forall c, fat_region c = false -> c <> parent_cluster r ->
                       partition (after rep) c
                       = partition (session_state hello_script) c)
         /\ (fat_region (parent_cluster r) = false ->
             forall off,
               partition (after rep) (parent_cluster r) off
               = if (slot_offset (entry_index r) <=? off)
                    && (off <? slot_offset (entry_index r) + DIR_ENTRY_SIZE)
                 then 0
                 else partition (session_state hello_script)
                                (parent_cluster r) off).
Proof.
  assert (Hobs : observe code
                   (fs_unlink (session_state hello_script)
                      (bytes_of_string "/docs/hello.txt")) = Done 0)
    by (vm_compute; reflexivity).
  destruct (fs_unlink (session_state hello_script)
              (bytes_of_string "/docs/hello.txt")) as [rep| |] eqn:Hu;
    [|discriminate Hobs|discriminate Hobs].
  exists rep. split; [reflexivity|].
  apply (unlink_success_effects (session_state hello_script)
           (bytes_of_string "/docs/hello.txt")).
  - exact Hu.
  - unfold observe, bind in Hobs. apply Done_inj in Hobs. exact Hobs.
Defined.

Lemma scan_dir_all_none buf token n : forall i,
  (forall j, i <= j < i + Z.of_nat n ->
             buf (slot_offset j) = 0
             \/ strcmp_at buf (slot_offset j) token = Done false) ->
  scan_dir buf token n i = Done None.
Proof.
  induction n as [|n IH]; intros i H; [reflexivity|].
  rewrite scan_dir_S.
  assert (Hrec : scan_dir buf token n (i + 1) = Done None).
  { apply IH. intros j Hj. apply H. lia. }
  destruct (H i ltac:(lia)) as [Hz|Hf].
  - rewrite Hz. cbn [Z.eqb negb]. exact Hrec.
  - destruct (negb (buf (slot_offset i) =? 0)); [|exact Hrec].
    rewrite Hf. cbn [bind]. exact Hrec.
Qed.

(** A lookup in a state that differs on the last directory searched only:
    it fails when the scan of that directory finds nothing. *)
Lemma resolve_loop_after_clear st st' tokens : forall current result r,
  tokens <> [] ->
  resolve_loop st tokens current result = Done (0, r) -> found r = true ->
  NoDup (resolve_trace st tokens current) ->
  (forall c, In c (resolve_trace st tokens current) -> c <> parent_cluster r ->
             partition st' c = partition st c) ->
  scan_dir (partition st' (parent_cluster r)) (last tokens [])
           (Z.to_nat DIR_ENTRIES_PER_CLUSTER) 0 = Done None ->
  exists r', resolve_loop st' tokens current result = Done (0, r')
             /\ found r' = false.
Proof.
  induction tokens as [|token rest IH];
    intros current result r Hne Hres Hf Hnd Hother Hscan'; [congruence|].
  pose proof (resolve_loop_parent_in_trace _ _ _ _ _ Hne Hres Hf) as Hin.
  rewrite resolve_loop_cons in Hres. cbv zeta in Hres.
  rewrite resolve_trace_cons in Hnd, Hother, Hin.
  rewrite resolve_loop_cons. cbv zeta.
  destruct (read_cluster st current) as [buf|] eqn:Hread; [|discriminate].
  apply read_cluster_some in Hread. destruct Hread as [Htab ->].
  unfold read_cluster at 1. rewrite Htab.
  destruct (scan_dir (partition st current) token
              (Z.to_nat DIR_ENTRIES_PER_CLUSTER) 0)
    as [[i|]| |] eqn:Hscan; cbn [bind] in Hres; try discriminate.
  2:{ apply Done_inj in Hres. injection Hres as <-. discriminate. }
  destruct rest as [|t2 rest'].
  - rewrite resolve_loop_nil in Hres. apply Done_inj in Hres.
    injection Hres as <-. cbn [parent_cluster last] in Hscan'.
    rewrite Hscan'. cbn [bind]. eexists. split; reflexivity.
  - apply NoDup_cons_iff in Hnd. destruct Hnd as [Hnotin Hnd].
    assert (Hne' : t2 :: rest' <> []) by discriminate.
    pose proof (resolve_loop_parent_in_trace _ _ _ _ _ Hne' Hres Hf) as Hin'.
    assert (Hcur : current <> parent_cluster r).
    { intros Heq. apply Hnotin. rewrite <- Heq in Hin'. exact Hin'. }
    rewrite (Hother current (or_introl eq_refl) Hcur), Hscan.
    cbn [bind].
    change (last (token :: t2 :: rest') []) with (last (t2 :: rest') []) in Hscan'.
    apply (IH _ _ r Hne' Hres Hf Hnd).
    + intros c Hc Hcp. apply Hother; [now right|exact Hcp].
    + exact Hscan'.
Qed.

(** X15: the unlink / lookup round trip.  Let a path with a last component
    of at most 17 bytes resolve through directory clusters that are
    pairwise distinct and outside the FAT region, and let no slot after the
    one found bear the same name.  After a successful [unlink] the path no
    longer resolves. *)
Theorem unlink_then_lookup (st : fs_state) (path : list Z)
    (r : path_search_result_t) (rep : reply) :
  strtok_all (firstn 511 path) <> [] ->
  (length (last (strtok_all (firstn 511 path)) []) <= 17)%nat ->
  find_entry_by_path st path = Done (0, r) -> found r = true ->
  NoDup (resolve_trace st (strtok_all (firstn 511 path)) ROOT_DIR_CLUSTER) ->
  (forall c, In c (resolve_trace st (strtok_all (firstn 511 path))
                                 ROOT_DIR_CLUSTER) -> fat_region c = false) ->
  (forall j, entry_index r < j < DIR_ENTRIES_PER_CLUSTER ->
     partition st (parent_cluster r) (slot_offset j) = 0
     \/ strcmp_at (partition st (parent_cluster r)) (slot_offset j)
                  (last (strtok_all (firstn 511 path)) []) = Done false) ->
  fs_unlink st path = Done rep -> code rep = 0 ->
  exists r', find_entry_by_path (after rep) path = Done (0, r')
             /\ found r' = false.
Proof.
  intros Hne Hlen Hfind Hf Hnd Hreg Hlater Hu Hcode.
  destruct (fs_unlink_done _ _ _ Hu)
    as [[Hc _]|(r1 & fat1 & Hfind1 & _ & Htab & _ & _ & _ & _ & Hpart)];
    [rewrite Hcode in Hc; discriminate|].
  rewrite Hfind in Hfind1. apply Done_inj in Hfind1. injection Hfind1 as <-.
  destruct (lookup_returns_first_match_core st path r Hne Hfind Hf)
    as (Hidx & Hlow).
  rewrite find_entry_by_path_loop in Hfind |- * by exact Hne.
  set (tokens := strtok_all (firstn 511 path)) in *.
  set (P := parent_cluster r) in *. set (idx := entry_index r) in *.
  pose proof (resolve_loop_parent_in_trace _ _ _ _ _ Hne Hfind Hf) as HPin.
  fold P in HPin.
  assert (HP' : partition (after rep) P
                = poke (partition st P) (slot_offset idx)
                       (repeat 0 (Z.to_nat DIR_ENTRY_SIZE))).
  { rewrite Hpart, (Hreg P HPin). apply upd_same. }
  apply (resolve_loop_after_clear st (after rep) tokens _ _ r Hne Hfind Hf Hnd).
  - intros c Hc Hcp. rewrite Hpart, (Hreg c Hc). now apply upd_other.
  - fold P. rewrite HP'. apply scan_dir_all_none. intros j Hj.
    unfold DIR_ENTRIES_PER_CLUSTER, DIR_ENTRY_SIZE in *.
    change (Z.to_nat 32) with 32%nat in *.
    destruct (Z.eq_dec j idx) as [->|Hji].
    + left. rewrite poke_in by (rewrite repeat_length; lia).
      apply nth_repeat.
    + assert (Hout : forall k, 0 <= k < 18 ->
                ~ (slot_offset idx <= slot_offset j + k
                   < slot_offset idx + Z.of_nat (length (repeat 0 32)))).
      { intros k Hk. rewrite repeat_length.
        unfold slot_offset, DIR_ENTRY_SIZE. lia. }
      assert (Hsame : partition st P (slot_offset j) = 0
                      \/ strcmp_at (partition st P) (slot_offset j)
                                   (last tokens []) = Done false).
      { destruct (Z.lt_ge_cases j idx); [apply Hlow|apply Hlater]; lia. }
      destruct Hsame as [Hz|Hfalse].
      * left. rewrite <- (Z.add_0_r (slot_offset j)).
        rewrite poke_out by (apply Hout; lia). now rewrite Z.add_0_r.
      * right. rewrite <- Hfalse. apply strcmp_at_ext. intros x Hx.
        replace x with (slot_offset j + (x - slot_offset j)) by lia.
        apply poke_out. apply Hout. lia.
Qed.

Lemma unlink_then_lookup_witness :
  exists rep,
    fs_unlink (session_state hello_script) (bytes_of_string "/docs/hello.txt")
    = Done rep
    /\ exists r',
         find_entry_by_path (after rep) (bytes_of_string "/docs/hello.txt")
         = Done (0, r')
         /\ found r' = false.
Proof.
  assert (Hobs : observe code
                   (fs_unlink (session_state hello_script)
                      (bytes_of_string "/docs/hello.txt")) = Done 0)
    by (vm_compute; reflexivity).
  destruct (fs_unlink (session_state hello_script)
              (bytes_of_string "/docs/hello.txt")) as [rep| |] eqn:Hu;
    [|discriminate Hobs|discriminate Hobs].
  exists rep. split; [reflexivity|].
  assert (Htr : resolve_trace (session_state hello_script)
                  (strtok_all (firstn 511 (bytes_of_string "/docs/hello.txt")))
                  ROOT_DIR_CLUSTER = [9; 10]) by (vm_compute; reflexivity).
  apply (unlink_then_lookup (session_state hello_script)
           (bytes_of_string "/docs/hello.txt")
           (mkResult (strncpy17 (bytes_of_string "hello.txt")) true 10 11 0
              (entry_at (partition (session_state hello_script) 10) 0))).
  - vm_compute. discriminate.
  - vm_compute. repeat constructor.
  - vm_compute. reflexivity.
  - reflexivity.
  - rewrite Htr. repeat constructor; cbn; intuition discriminate.
  - intros c Hc. rewrite Htr in Hc. destruct Hc as [<-|[<-|[]]]; reflexivity.
  - intros j Hj. left. cbn [parent_cluster entry_index] in *.
    assert (Hall : forallb
                     (fun k => partition (session_state hello_script) 10
                                 (slot_offset (Z.of_nat k)) =? 0)
                     (seq 1 31) = true) by (vm_compute; reflexivity).
    rewrite forallb_forall in Hall.
    specialize (Hall (Z.to_nat j)).
    rewrite Z2Nat.id in Hall by lia.
    apply Z.eqb_eq. apply Hall.
    apply in_seq. unfold DIR_ENTRIES_PER_CLUSTER in Hj. lia.
  - exact Hu.
  - unfold observe, bind in Hobs. apply Done_inj in Hobs. exact Hobs.
Defined.

(** ** [fs_ls] *)

Lemma cstring_at_spec buf n : forall off s,
  cstring_at buf n off = Done s ->
  (forall k, (k < length s)%nat -> buf (off + Z.of_nat k) = nth k s 0)
  /\ buf (off + Z.of_nat (length s)) = 0
  /\ (length s < n)%nat
  /\ ~ In 0 s.
Proof.
  induction n as [|n IH]; intros off s H; [discriminate|].
  cbn [cstring_at] in H.
  destruct (Z.eqb_spec (buf off) 0) as [Hz|Hnz].
  - apply Done_inj in H. subst s. cbn [length]. rewrite Z.add_0_r.
    split; [intros k Hk; lia|]. split; [exact Hz|]. split; [lia|intros []].
  - destruct (cstring_at buf n (off + 1)) as [s'| |] eqn:Hs;
      cbn [bind] in H; try discriminate.
    apply Done_inj in H. subst s.
    destruct (IH _ _ Hs) as (Hb & Hend & Hlen & Hno).
    cbn [length]. split; [|split; [|split]].
    + intros [|k] Hk; cbn [nth].
      * now rewrite Z.add_0_r.
      * rewrite <- Hb by lia. f_equal. lia.
    + rewrite <- Hend. f_equal. lia.
    + lia.
    + intros [H0|Hin]; [congruence|now apply Hno].
Qed.

Lemma strcmp_at_done buf token : forall off,
  off + Z.of_nat (length token) < CLUSTER_SIZE ->
  exists b, strcmp_at buf off token = Done b.
Proof.
  induction token as [|t token IH]; intros off H; cbn [strcmp_at];
    cbn [length] in H.
  - destruct (Z.ltb_spec off CLUSTER_SIZE); [eauto|lia].
  - destruct (Z.ltb_spec off CLUSTER_SIZE); [|lia].
    destruct (buf off =? t); [|eauto]. apply IH. lia.
Qed.

Lemma ls_rows_in buf n : forall i rows row,
  ls_rows buf n i = Done rows -> In row rows ->
  exists k,
    i <= k < i + Z.of_nat n
    /\ buf (slot_offset k) <> 0
    /\ cstring_at buf (Z.to_nat (CLUSTER_SIZE - slot_offset k)) (slot_offset k)
       = Done (row_name row)
    /\ row_is_dir row = (attributes (entry_at buf k) =? ATTR_DIRECTORY)
    /\ row_size row = size (entry_at buf k).
Proof.
  induction n as [|n IH]; intros i rows row H Hin.
  - apply Done_inj in H. subst rows. destruct Hin.
  - cbn [ls_rows] in H.
    destruct (Z.eqb_spec (buf (slot_offset i)) 0) as [Hz|Hnz]; cbn [negb] in H.
    + destruct (IH _ _ _ H Hin) as (k & Hk & Hrest). exists k.
      split; [lia|exact Hrest].
    + destruct (cstring_at buf (Z.to_nat (CLUSTER_SIZE - slot_offset i))
                  (slot_offset i)) as [nm| |] eqn:Hnm;
        cbn [bind] in H; try discriminate.
      destruct (ls_rows buf n (i + 1)) as [more| |] eqn:Hmore;
        cbn [bind] in H; try discriminate.
      apply Done_inj in H. subst rows. destruct Hin as [<-|Hin].
      * exists i. cbn [row_name row_is_dir row_size].
        split; [lia|]. split; [exact Hnz|]. split; [exact Hnm|].
        split; reflexivity.
      * destruct (IH _ _ _ Hmore Hin) as (k & Hk & Hrest). exists k.
        split; [lia|exact Hrest].
Qed.

(** The scan finds a slot at or before one that matches, when no
    comparison on the way leaves the buffer. *)
Lemma scan_dir_finds buf token i n : forall k,
  k <= i < k + Z.of_nat n ->
  (forall j, k <= j < i -> exists b, strcmp_at buf (slot_offset j) token = Done b) ->
  buf (slot_offset i) <> 0 ->
  strcmp_at buf (slot_offset i) token = Done true ->
  exists j, k <= j <= i /\ scan_dir buf token n k = Done (Some j).
Proof.
  induction n as [|n IH]; intros k Hi Hdone Hocc Heq; [lia|].
  rewrite scan_dir_S.
  destruct (Z.eq_dec k i) as [->|Hne].
  - destruct (Z.eqb_spec (buf (slot_offset i)) 0); [contradiction|].
    cbn [negb]. rewrite Heq. cbn [bind]. exists i. split; [lia|reflexivity].
  - destruct (IH (k + 1)) as (j & Hj & Hs); try assumption; [lia| |].
    { intros j Hj. apply Hdone. lia. }
    destruct (negb (buf (slot_offset k) =? 0)).
    + destruct (Hdone k ltac:(lia)) as [[|] Hb]; rewrite Hb; cbn [bind].
      * exists k. split; [lia|reflexivity].
      * exists j. split; [lia|exact Hs].
    + exists j. split; [lia|exact Hs].
Qed.

(** A lookup of [dir/name] is the scan of the cluster [dir] resolves to. *)
Lemma find_in_directory st dir nm rd :
  find_entry_by_path st dir = Done (0, rd) -> found rd = true ->
  nm <> [] -> ~ In SLASH nm ->
  (length dir + length nm + 1 <= 511)%nat ->
  exists result,
    find_entry_by_path st (dir ++ SLASH :: nm)
    = resolve_loop st [nm] (entry_cluster rd) result.
Proof.
  intros Hfind Hf Hne Hns Hlen.
  assert (Htok : strtok_all (firstn 511 (dir ++ SLASH :: nm))
                 = strtok_all (firstn 511 dir) ++ [nm]).
  { rewrite (@firstn_all2 Z 511 (dir ++ SLASH :: nm))
      by (rewrite length_app; cbn [length]; lia).
    rewrite (@firstn_all2 Z 511 dir) by lia.
    now apply strtok_all_snoc. }
  rewrite find_entry_by_path_loop
    by (rewrite Htok; intros Habs; apply app_eq_nil in Habs;
        destruct Habs; discriminate).
  rewrite Htok.
  unfold find_entry_by_path in Hfind. cbv zeta in Hfind.
  destruct (list_eqb (firstn 511 dir) [SLASH]) eqn:Hroot.
  - apply list_eqb_true in Hroot. rewrite Hroot.
    apply Done_inj in Hfind. injection Hfind as <-.
    cbn [entry_cluster root_result]. eexists. reflexivity.
  - destruct (strtok_all (firstn 511 dir)) as [|t ts] eqn:Htp.
    + apply Done_inj in Hfind. injection Hfind as <-. discriminate.
    + assert (Hne' : t :: ts <> []) by discriminate.
      rewrite (resolve_loop_app st (t :: ts) [nm] ROOT_DIR_CLUSTER
                 initial_result rd Hne' Hfind Hf).
      eexists. reflexivity.
Qed.

(** X16: [ls] and the resolver agree.  Every name printed by the listing
    of a directory, if it holds no slash, resolves when appended to the
    directory's path (the 511-byte copy permitting), to a slot of that
    directory which bears the name. *)
Theorem listed_names_resolve (st : fs_state) (dir : list Z)
    (rows : list ls_row) (row : ls_row) :
  fs_ls st dir = Done (0, Listing rows) -> In row rows ->
  ~ In SLASH (row_name row) ->
  (length dir + length (row_name row) + 1 <= 511)%nat ->
  exists r,
    find_entry_by_path st (dir ++ SLASH :: row_name row) = Done (0, r)
    /\ found r = true
    /\ strcmp_at (partition st (parent_cluster r))
                 (slot_offset (entry_index r)) (row_name row) = Done true.
Proof.
  intros Hls Hin Hns Hlen. unfold fs_ls in Hls.
  destruct (find_entry_by_path st dir) as [[rc rd]| |] eqn:Hfind;
    cbn [bind fst snd] in Hls; try discriminate.
  destruct (Z.eqb_spec rc 0) as [->|Hrc]; cbn [negb orb] in Hls;
    [|apply Done_inj in Hls; discriminate].
  destruct (found rd) eqn:Hf; cbn [negb] in Hls;
    [|apply Done_inj in Hls; discriminate].
  destruct (negb (attributes (entry rd) =? ATTR_DIRECTORY)).
  { destruct (cstring_of (entry_bytes (entry rd))); cbn [bind] in Hls;
      discriminate. }
  destruct (read_cluster st (entry_cluster rd)) as [buf|] eqn:Hread;
    [|apply Done_inj in Hls; discriminate].
  apply read_cluster_some in Hread. destruct Hread as [Htab ->].
  destruct (ls_rows (partition st (entry_cluster rd))
              (Z.to_nat DIR_ENTRIES_PER_CLUSTER) 0) as [rows'| |] eqn:Hrows;
    cbn [bind] in Hls; try discriminate.
  apply Done_inj in Hls. injection Hls as <-.
  set (c := entry_cluster rd) in *. set (nm := row_name row) in *.
  destruct (ls_rows_in _ _ _ _ _ Hrows Hin) as (k & Hk & Hocc & Hnm & _).
  fold nm in Hnm.
  destruct (cstring_at_spec _ _ _ _ Hnm) as (Hbytes & Hend & Hshort & _).
  unfold DIR_ENTRIES_PER_CLUSTER, CLUSTER_SIZE in *.
  assert (Hsk : 0 <= slot_offset k < 1024)
    by (unfold slot_offset, DIR_ENTRY_SIZE; lia).
  assert (Hne : nm <> []).
  { intros Hnil. rewrite Hnil in Hend. cbn [length] in Hend.
    rewrite Z.add_0_r in Hend. contradiction. }
  assert (Hmatch : strcmp_at (partition st c) (slot_offset k) nm = Done true).
  { apply strcmp_at_match; [exact Hbytes|exact Hend|].
    unfold CLUSTER_SIZE. lia. }
  destruct (scan_dir_finds (partition st c) nm k (Z.to_nat 32) 0)
    as (j & Hj & Hscan); try assumption.
  { intros j Hj. apply strcmp_at_done.
    unfold slot_offset, DIR_ENTRY_SIZE, CLUSTER_SIZE in *. lia. }
  destruct (find_in_directory st dir nm rd Hfind Hf Hne Hns Hlen)
    as (result & Hpath).
  rewrite Hpath. fold c. rewrite resolve_single by exact Htab.
  change (Z.to_nat DIR_ENTRIES_PER_CLUSTER) with (Z.to_nat 32).
  rewrite Hscan. cbn [bind].
  eexists. split; [reflexivity|]. cbn [found parent_cluster entry_index].
  split; [reflexivity|].
  now destruct (scan_dir_first _ _ _ _ _ Hscan) as (_ & _ & Heq & _).
Qed.

Lemma listed_names_resolve_witness :
  exists r,
    find_entry_by_path (session_state hello_script)
      (bytes_of_string "/docs" ++ SLASH :: bytes_of_string "hello.txt")
    = Done (0, r)
    /\ found r = true
    /\ strcmp_at (partition (session_state hello_script) (parent_cluster r))
                 (slot_offset (entry_index r)) (bytes_of_string "hello.txt")
       = Done true.
Proof.
  apply (listed_names_resolve (session_state hello_script)
           (bytes_of_string "/docs")
           [mkRow false 0 (bytes_of_string "hello.txt")]
           (mkRow false 0 (bytes_of_string "hello.txt"))).
  - vm_compute. reflexivity.
  - left. reflexivity.
  - cbn. intuition discriminate.
  - cbn. lia.
Defined.

(** ** [fs_read] *)

(** The loop of [fs_read] takes at most one iteration per started cluster
    of [bytes_to_read], whatever the chain: with that many iterations
    allowed it returns, and the bytes emitted are at most [bytes_to_read]
    and the newline. *)
Lemma read_loop_returns fuel : forall st current n,
  n <= CLUSTER_SIZE * Z.of_nat fuel ->
  exists rc out,
    read_loop fuel st current n = Done (rc, out)
    /\ (rc = 0 \/ rc = -1)
    /\ Z.of_nat (length out) <= Z.max n 0 + 1.
Proof.
  unfold CLUSTER_SIZE.
  induction fuel as [|fuel IH]; intros st current n Hn.
  - cbn [read_loop]. destruct (Z.ltb_spec 0 n); [lia|]. cbn [andb].
    exists 0, [10]. split; [reflexivity|]. split; [now left|]. cbn [length]. lia.
  - rewrite read_loop_S.
    destruct (Z.ltb_spec 0 n) as [Hpos|Hle]; cbn [andb].
    2:{ exists 0, [10]. split; [reflexivity|]. split; [now left|].
        cbn [length]. lia. }
    destruct (current <? FAT_ENTRY_EOF).
    2:{ exists 0, [10]. split; [reflexivity|]. split; [now left|].
        cbn [length]. lia. }
    destruct (read_cluster st current) as [buf|].
    2:{ exists (-1), []. split; [reflexivity|]. split; [now right|].
        cbn [length]. lia. }
    unfold CLUSTER_SIZE.
    set (len := if n >? 1024 then 1024 else n).
    assert (Hlen : 0 < len <= 1024 /\ len <= n /\ (len = 1024 \/ len = n)).
    { unfold len. destruct (Z.gtb_spec n 1024); lia. }
    destruct (IH st (g_fat_table st current) (n - len)) as (rc & out & Hr & Hrc & Hout);
      [lia|].
    rewrite Hr. cbn [bind fst snd].
    exists rc, (bytes_at buf 0 (Z.to_nat len) ++ out).
    split; [reflexivity|]. split; [exact Hrc|].
    rewrite length_app. unfold bytes_at. rewrite length_map, length_seq. lia.
Qed.

Lemma read_loop_fuel fuel1 : forall fuel2 st current n,
  n <= CLUSTER_SIZE * Z.of_nat fuel1 -> n <= CLUSTER_SIZE * Z.of_nat fuel2 ->
  read_loop fuel1 st current n = read_loop fuel2 st current n.
Proof.
  unfold CLUSTER_SIZE.
  induction fuel1 as [|fuel1 IH]; intros fuel2 st current n H1 H2.
  - assert (Hn : (0 <? n) = false) by (apply Z.ltb_ge; lia).
    destruct fuel2; cbn [read_loop]; now rewrite Hn.
  - destruct fuel2 as [|fuel2].
    + assert (Hn : (0 <? n) = false) by (apply Z.ltb_ge; lia).
      cbn [read_loop]. now rewrite Hn.
    + rewrite !read_loop_S.
      destruct (Z.ltb_spec 0 n) as [Hpos|Hle]; cbn [andb]; [|reflexivity].
      destruct (current <? FAT_ENTRY_EOF); [|reflexivity].
      destruct (read_cluster st current) as [buf|]; [|reflexivity].
      unfold CLUSTER_SIZE.
      set (len := if n >? 1024 then 1024 else n).
      assert (Hlen : 0 < len <= 1024 /\ len <= n /\ (len = 1024 \/ len = n)).
      { unfold len. destruct (Z.gtb_spec n 1024); lia. }
      rewrite (IH fuel2 st (g_fat_table st current) (n - len)) by lia.
      reflexivity.
Qed.

(** X17: [fs_read] cannot be trapped by the chain it follows.  Once the
    path is resolved the call returns 0 or -1, having emitted no more bytes
    than the size recorded in the entry and the newline, even when the
    chain is cyclic; allowing the loop more iterations than the
    [size / 1024 + 1] it may need changes nothing. *)
Theorem fs_read_returns (st : fs_state) (path : list Z) (rc0 : Z)
    (r : path_search_result_t) :
  find_entry_by_path st path = Done (rc0, r) ->
  (exists rc out,
     fs_read st path = Done (rc, out)
     /\ (rc = 0 \/ rc = -1)
     /\ Z.of_nat (length out) <= Z.max (size (entry r)) 0 + 1)
  /\ forall fuel,
       (read_fuel (size (entry r)) <= fuel)%nat ->
       read_loop fuel st (first_block (entry r)) (size (entry r))
       = read_loop (read_fuel (size (entry r))) st (first_block (entry r))
                   (size (entry r)).
Proof.
  intros Hfind.
  assert (Hfuel : size (entry r)
                  <= CLUSTER_SIZE * Z.of_nat (read_fuel (size (entry r)))).
  { unfold read_fuel, CLUSTER_SIZE.
    destruct (Z.lt_ge_cases (size (entry r)) 0) as [Hneg|Hpos]; [lia|].
    assert (0 <= size (entry r) / 1024) by (apply Z.div_pos; lia).
    rewrite Z2Nat.id by lia. Z.div_mod_to_equations. lia. }
  split.
  - rewrite fs_read_unfold, Hfind. cbn [bind fst snd].
    destruct (negb (rc0 =? 0) || negb (found r)).
    { exists (-1), []. split; [reflexivity|]. split; [now right|].
      cbn [length]. lia. }
    destruct (negb (attributes (entry r) =? ATTR_ARCHIVE)).
    { exists (-1), []. split; [reflexivity|]. split; [now right|].
      cbn [length]. lia. }
    now apply read_loop_returns.
  - intros fuel Hge. apply read_loop_fuel; [|exact Hfuel].
    unfold CLUSTER_SIZE in *. lia.
Qed.

Lemma fs_read_returns_witness :
  (exists rc out,
     fs_read (session_state hello_written_script)
             (bytes_of_string "/docs/hello.txt") = Done (rc, out)
     /\ (rc = 0 \/ rc = -1)
     /\ Z.of_nat (length out)
        <= Z.max (size (entry_at (partition
                                    (session_state hello_written_script) 10) 0))
                 0 + 1)
  /\ forall fuel,
       (read_fuel (size (entry_at (partition
                                     (session_state hello_written_script) 10) 0))
        <= fuel)%nat ->
       read_loop fuel (session_state hello_written_script)
         (first_block (entry_at (partition
                                   (session_state hello_written_script) 10) 0))
         (size (entry_at (partition (session_state hello_written_script) 10) 0))
       = read_loop
           (read_fuel (size (entry_at (partition
                                         (session_state hello_written_script)
                                         10) 0)))
           (session_state hello_written_script)
           (first_block (entry_at (partition
                                     (session_state hello_written_script) 10) 0))
           (size (entry_at (partition (session_state hello_written_script) 10)
                           0)).
Proof.
  apply (fs_read_returns (session_state hello_written_script)
           (bytes_of_string "/docs/hello.txt") 0
           (mkResult (strncpy17 (bytes_of_string "hello.txt")) true 10 11 0
              (entry_at (partition (session_state hello_written_script) 10) 0))).
  vm_compute. reflexivity.
Defined.

(** ** The shell *)

Lemma skip_delims_spec delims s :
  skip_delims delims s = []
  \/ exists c s', skip_delims delims s = c :: s' /\ is_delim delims c = false
                  /\ forall x, In x (c :: s') -> In x s.
Proof.
  induction s as [|c s IH]; [now left|]. cbn [skip_delims].
  destruct (is_delim delims c) eqn:Hc.
  - destruct IH as [H|(c' & s' & H & Hd & Hin)]; [now left|].
    right. exists c', s'. split; [exact H|]. split; [exact Hd|].
    intros x Hx. right. now apply Hin.
  - right. exists c, s. split; [reflexivity|]. split; [exact Hc|]. auto.
Qed.

Lemma token_of_spec delims s :
  (forall x, In x (fst (token_of delims s)) ->
             is_delim delims x = false /\ In x s)
  /\ (forall x, In x (snd (token_of delims s)) -> In x s).
Proof.
  induction s as [|c s [IHt IHr]]; cbn [token_of].
  - split; intros x [].
  - destruct (is_delim delims c) eqn:Hc; cbn [fst snd].
    + split; [intros x []|]. intros x Hx. now right.
    + destruct (token_of delims s) as [t rest]. cbn [fst snd] in *. split.
      * intros x [<-|Hx]; [split; [exact Hc|now left]|].
        destruct (IHt x Hx). split; [assumption|now right].
      * intros x Hx. right. now apply IHr.
Qed.

(** What [strtok] returns: a token that is not empty, holds no delimiter
    and is made of bytes of the string. *)
Lemma strtok_spec delims s t rest :
  strtok delims s = Some (t, rest) ->
  t <> []
  /\ (forall x, In x t -> is_delim delims x = false /\ In x s)
  /\ (forall x, In x rest -> In x s).
Proof.
  unfold strtok. intros H.
  destruct (skip_delims_spec delims s) as [Hnil|(c & s' & Hs & Hc & Hin)].
  - rewrite Hnil in H. discriminate.
  - rewrite Hs in H.
    assert (H' : token_of delims (c :: s') = (t, rest)) by congruence.
    clear H. destruct (token_of_spec delims (c :: s')) as [Ht Hr].
    rewrite H' in Ht, Hr. cbn [fst snd] in Ht, Hr. split; [|split].
    + cbn [token_of] in H'. rewrite Hc in H'.
      destruct (token_of delims s'). injection H' as <- _. discriminate.
    + intros x Hx. destruct (Ht x Hx). split; [assumption|now apply Hin].
    + intros x Hx. apply Hin. now apply Hr.
Qed.

Lemma is_delim_single d x : is_delim [d] x = false -> x <> d.
Proof.
  unfold is_delim. cbn [existsb]. rewrite orb_false_r. now apply Z.eqb_neq.
Qed.

Ltac no_event H := apply Done_inj in H; discriminate H.

Ltac ran_event H :=
  match type of H with
  | bind ?m _ = _ =>
      let r0 := fresh "r0" in
      let Hm := fresh "Hm" in
      destruct m as [r0| |] eqn:Hm; cbn [bind] in H; try discriminate H;
      apply Done_inj in H; injection H as <- <- <-
  end.

Lemma run_loaded_ran st word rest s' c r :
  run_loaded st word rest = Done (s', Ran c r) ->
  exec st c = Done r /\ s' = Opened true (after r)
  /\ match c with
     | Mkdir p | Create p | Unlink p =>
         exists rest', strtok [SPACE] rest = Some (p, rest')
     | Write content p | Append content p =>
         exists rest2 rest3,
           strtok [QUOTE] rest = Some (content, rest2)
           /\ strtok [SPACE] rest2 = Some (p, rest3)
     end.
Proof.
  unfold run_loaded. intros H.
  destruct (list_eqb word (bytes_of_string "ls")).
  { cbv zeta in H.
    match type of H with
    | bind ?m _ = _ => destruct m; cbn [bind] in H; discriminate H
    end. }
  destruct (list_eqb word (bytes_of_string "mkdir")).
  { destruct (strtok [SPACE] rest) as [[a rest']|] eqn:Ht; [|no_event H].
    ran_event H. cbn [exec]. eauto. }
  destruct (list_eqb word (bytes_of_string "create")).
  { destruct (strtok [SPACE] rest) as [[a rest']|] eqn:Ht; [|no_event H].
    ran_event H. cbn [exec]. eauto. }
  destruct (list_eqb word (bytes_of_string "unlink")).
  { destruct (strtok [SPACE] rest) as [[a rest']|] eqn:Ht; [|no_event H].
    ran_event H. cbn [exec]. eauto. }
  destruct (list_eqb word (bytes_of_string "read")).
  { destruct (strtok [SPACE] rest) as [[a rest']|]; [|no_event H].
    match type of H with
    | bind ?m _ = _ => destruct m; cbn [bind] in H; discriminate H
    end. }
  destruct (list_eqb word (bytes_of_string "write")).
  { destruct (strtok [QUOTE] rest) as [[a rest2]|] eqn:Ht; [|no_event H].
    destruct (strtok [SPACE] rest2) as [[p rest3]|] eqn:Hp; [|no_event H].
    ran_event H. cbn [exec]. eauto 6. }
  destruct (list_eqb word (bytes_of_string "append")).
  { destruct (strtok [QUOTE] rest) as [[a rest2]|] eqn:Ht; [|no_event H].
    destruct (strtok [SPACE] rest2) as [[p rest3]|] eqn:Hp; [|no_event H].
    ran_event H. cbn [exec]. eauto 6. }
  no_event H.
Qed.

(** X18: what the shell passes on.  A call of [fs_mkdir], [fs_create],
    [fs_unlink], [fs_write] or [fs_append] is made only once the file
    system is loaded; its path is never empty and holds no space; the
    content of a write or an append is never empty and holds no double
    quote.  So [write "" /f] is a usage error, and the zero-length cases of
    [fs_write] and [fs_append] cannot be reached from the command line. *)
Theorem shell_passes_proper_arguments (s s' : shell_state)
    (cmd_line : list Z) (c : command) (r : reply) :
  shell_step s cmd_line = Done (s', Ran c r) ->
  (exists st, s = Opened true st /\ exec st c = Done r
              /\ s' = Opened true (after r))
  /\ match c with
     | Mkdir p | Create p | Unlink p =>
         p <> [] /\ ~ In SPACE p /\ ~ In NEWLINE p
     | Write content p | Append content p =>
         content <> [] /\ ~ In QUOTE content /\ ~ In NEWLINE content
         /\ p <> [] /\ ~ In SPACE p /\ ~ In NEWLINE p
     end.
Proof.
  unfold shell_step. intros H.
  destruct (negb (existsb (Z.eqb NEWLINE) cmd_line)); [no_event H|].
  cbv zeta in H.
  pose proof (token_of_spec [NEWLINE] cmd_line) as [Hline _].
  set (line := fst (token_of [NEWLINE] cmd_line)) in *.
  assert (Hnl : forall x, In x line -> x <> NEWLINE).
  { intros x Hx. apply is_delim_single. now apply Hline. }
  destruct (strtok [SPACE] line) as [[word rest]|] eqn:Hw; [|no_event H].
  destruct (strtok_spec _ _ _ _ Hw) as (_ & _ & Hrest).
  destruct (list_eqb word (bytes_of_string "exit")); [no_event H|].
  destruct (list_eqb word (bytes_of_string "init")).
  { match type of H with
    | bind ?m _ = _ => destruct m as [r0| |]; cbn [bind] in H; try discriminate H
    end.
    destruct (code r0 =? 0); no_event H. }
  destruct (list_eqb word (bytes_of_string "load")).
  { destruct s; no_event H. }
  destruct s as [fat|[|] st]; [no_event H| |no_event H].
  destruct (run_loaded_ran _ _ _ _ _ _ H) as (Hexec & Hs' & Hargs).
  split; [exists st; auto|].
  assert (Harg : forall delims src t rest',
            strtok delims src = Some (t, rest') ->
            (forall x, In x src -> In x line) ->
            t <> [] /\ (forall d, In d delims -> ~ In d t) /\ ~ In NEWLINE t
            /\ forall x, In x rest' -> In x line).
  { intros delims src t rest' Ht Hsrc.
    destruct (strtok_spec _ _ _ _ Ht) as (Hne & Htok & Hr).
    split; [exact Hne|]. split; [|split].
    - intros d Hd Hin. destruct (Htok d Hin) as [Hnd _].
      unfold is_delim in Hnd.
      assert (Hex : existsb (Z.eqb d) delims = true).
      { apply existsb_exists. exists d. split; [exact Hd|apply Z.eqb_refl]. }
      congruence.
    - intros Hin. destruct (Htok _ Hin) as [_ Hs].
      apply (Hnl NEWLINE); [now apply Hsrc|reflexivity].
    - intros x Hx. apply Hsrc. now apply Hr. }
  destruct c as [p|p|p|content p|content p].
  - destruct Hargs as (rest' & Ht).
    destruct (Harg _ _ _ _ Ht Hrest) as (Hne & Hnd & Hn & _).
    split; [exact Hne|]. split; [apply Hnd; now left|exact Hn].
  - destruct Hargs as (rest' & Ht).
    destruct (Harg _ _ _ _ Ht Hrest) as (Hne & Hnd & Hn & _).
    split; [exact Hne|]. split; [apply Hnd; now left|exact Hn].
  - destruct Hargs as (rest' & Ht).
    destruct (Harg _ _ _ _ Ht Hrest) as (Hne & Hnd & Hn & _).
    split; [exact Hne|]. split; [apply Hnd; now left|exact Hn].
  - destruct Hargs as (rest2 & rest3 & Ht & Hp).
    destruct (Harg _ _ _ _ Ht Hrest) as (Hne & Hnd & Hn & Hr2).
    destruct (Harg _ _ _ _ Hp Hr2) as (Hne' & Hnd' & Hn' & _).
    split; [exact Hne|]. split; [apply Hnd; now left|]. split; [exact Hn|].
    split; [exact Hne'|]. split; [apply Hnd'; now left|exact Hn'].
  - destruct Hargs as (rest2 & rest3 & Ht & Hp).
    destruct (Harg _ _ _ _ Ht Hrest) as (Hne & Hnd & Hn & Hr2).
    destruct (Harg _ _ _ _ Hp Hr2) as (Hne' & Hnd' & Hn' & _).
    split; [exact Hne|]. split; [apply Hnd; now left|]. split; [exact Hn|].
    split; [exact Hne'|]. split; [apply Hnd'; now left|exact Hn'].
Qed.

Lemma token_of_app delims t d r :
  (forall x, In x t -> is_delim delims x = false) ->
  is_delim delims d = true ->
  token_of delims (t ++ d :: r) = (t, r).
Proof.
  intros Ht Hd. induction t as [|c t IH]; cbn [app token_of].
  - now rewrite Hd.
  - rewrite (Ht c (or_introl eq_refl)), IH; [reflexivity|].
    intros x Hx. apply Ht. now right.
Qed.

Lemma token_of_all delims t :
  (forall x, In x t -> is_delim delims x = false) ->
  token_of delims t = (t, []).
Proof.
  intros Ht. induction t as [|c t IH]; cbn [token_of]; [reflexivity|].
  rewrite (Ht c (or_introl eq_refl)), IH; [reflexivity|].
  intros x Hx. apply Ht. now right.
Qed.

Lemma strtok_word delims t d r :
  t <> [] -> (forall x, In x t -> is_delim delims x = false) ->
  is_delim delims d = true ->
  strtok delims (t ++ d :: r) = Some (t, r).
Proof.
  intros Hne Ht Hd. unfold strtok.
  destruct t as [|c t]; [congruence|]. cbn [app skip_delims].
  rewrite (Ht c (or_introl eq_refl)).
  change (c :: t ++ d :: r) with ((c :: t) ++ d :: r).
  now rewrite token_of_app.
Qed.

Lemma strtok_last delims t :
  t <> [] -> (forall x, In x t -> is_delim delims x = false) ->
  strtok delims t = Some (t, []).
Proof.
  intros Hne Ht. unfold strtok.
  destruct t as [|c t]; [congruence|]. cbn [skip_delims].
  rewrite (Ht c (or_introl eq_refl)). now rewrite token_of_all.
Qed.

Lemma strtok_skip delims d s :
  is_delim delims d = true -> strtok delims (d :: s) = strtok delims s.
Proof. intros Hd. unfold strtok. cbn [skip_delims]. now rewrite Hd. Qed.

Lemma not_delim_single d t :
  ~ In d t -> forall x, In x t -> is_delim [d] x = false.
Proof.
  intros Hn x Hx. unfold is_delim. cbn [existsb]. rewrite orb_false_r.
  apply Z.eqb_neq. intros ->. contradiction.
Qed.

(** The line [word "content" path], as the loop body reads it. *)
Lemma shell_line_with_content st word content path :
  ~ In SPACE word -> ~ In NEWLINE word -> word <> [] ->
  list_eqb word (bytes_of_string "exit") = false ->
  list_eqb word (bytes_of_string "init") = false ->
  list_eqb word (bytes_of_string "load") = false ->
  content <> [] -> ~ In QUOTE content -> ~ In NEWLINE content ->
  path <> [] -> ~ In SPACE path -> ~ In NEWLINE path ->
  shell_step (Opened true st)
    (word ++ SPACE :: QUOTE :: content ++ QUOTE :: SPACE :: path ++ [NEWLINE])
  = run_loaded st word (QUOTE :: content ++ QUOTE :: SPACE :: path)
  /\ strtok [QUOTE] (QUOTE :: content ++ QUOTE :: SPACE :: path)
     = Some (content, SPACE :: path)
  /\ strtok [SPACE] (SPACE :: path) = Some (path, []).
Proof.
  intros Hws Hwn Hwne Hexit Hinit Hload Hcne Hcq Hcn Hpne Hps Hpn.
  split; [|split].
  - unfold shell_step.
    assert (Hnl : existsb (Z.eqb NEWLINE)
                    (word ++ SPACE :: QUOTE :: content
                          ++ QUOTE :: SPACE :: path ++ [NEWLINE]) = true).
    { apply existsb_exists. exists NEWLINE. split; [|reflexivity].
      apply in_or_app. right. right. right. apply in_or_app. right.
      right. right. apply in_or_app. right. now left. }
    rewrite Hnl. cbn [negb]. cbv zeta.
    replace (word ++ SPACE :: QUOTE :: content
                  ++ QUOTE :: SPACE :: path ++ [NEWLINE])
      with ((word ++ SPACE :: QUOTE :: content ++ QUOTE :: SPACE :: path)
            ++ NEWLINE :: [])
      by (rewrite <- !app_assoc; cbn [app]; rewrite <- !app_assoc;
          reflexivity).
    rewrite token_of_app; [| |reflexivity].
    + cbn [fst]. rewrite strtok_word;
        [|exact Hwne|now apply not_delim_single|reflexivity].
      now rewrite Hexit, Hinit, Hload.
    + intros x Hx. apply (not_delim_single NEWLINE) with
        (t := word ++ SPACE :: QUOTE :: content ++ QUOTE :: SPACE :: path);
        [|exact Hx].
      intros Hin. apply in_app_or in Hin.
      destruct Hin as [Hin|[Hin|[Hin|Hin]]]; try discriminate Hin;
        [contradiction|].
      apply in_app_or in Hin.
      destruct Hin as [Hin|[Hin|[Hin|Hin]]]; try discriminate Hin;
        contradiction.
  - rewrite strtok_skip by reflexivity.
    apply strtok_word; [exact Hcne|now apply not_delim_single|reflexivity].
  - rewrite strtok_skip by reflexivity.
    apply strtok_last; [exact Hpne|now apply not_delim_single].
Qed.

Lemma shell_write_step st content path :
  content <> [] -> ~ In QUOTE content -> ~ In NEWLINE content ->
  path <> [] -> ~ In SPACE path -> ~ In NEWLINE path ->
  shell_step (Opened true st)
    (bytes_of_string "write" ++ SPACE :: QUOTE :: content
       ++ QUOTE :: SPACE :: path ++ [NEWLINE])
  = (do r <- fs_write st path content;
     Done (Opened true (after r), Ran (Write content path) r)).
Proof.
  intros Hcne Hcq Hcn Hpne Hps Hpn.
  destruct (shell_line_with_content st (bytes_of_string "write") content path)
    as (Hstep & Hc & Hp); try assumption; try reflexivity;
    try (cbn; intuition discriminate); try discriminate.
  rewrite Hstep. unfold run_loaded.
  replace (list_eqb (bytes_of_string "write") (bytes_of_string "ls"))
    with false by (vm_compute; reflexivity).
  replace (list_eqb (bytes_of_string "write") (bytes_of_string "mkdir"))
    with false by (vm_compute; reflexivity).
  replace (list_eqb (bytes_of_string "write") (bytes_of_string "create"))
    with false by (vm_compute; reflexivity).
  replace (list_eqb (bytes_of_string "write") (bytes_of_string "unlink"))
    with false by (vm_compute; reflexivity).
  replace (list_eqb (bytes_of_string "write") (bytes_of_string "read"))
    with false by (vm_compute; reflexivity).
  rewrite list_eqb_refl, Hc, Hp. reflexivity.
Qed.

Lemma shell_append_step st content path :
  content <> [] -> ~ In QUOTE content -> ~ In NEWLINE content ->
  path <> [] -> ~ In SPACE path -> ~ In NEWLINE path ->
  shell_step (Opened true st)
    (bytes_of_string "append" ++ SPACE :: QUOTE :: content
       ++ QUOTE :: SPACE :: path ++ [NEWLINE])
  = (do r <- fs_append st path content;
     Done (Opened true (after r), Ran (Append content path) r)).
Proof.
  intros Hcne Hcq Hcn Hpne Hps Hpn.
  destruct (shell_line_with_content st (bytes_of_string "append") content path)
    as (Hstep & Hc & Hp); try assumption; try reflexivity;
    try (cbn; intuition discriminate); try discriminate.
  rewrite Hstep. unfold run_loaded.
  replace (list_eqb (bytes_of_string "append") (bytes_of_string "ls"))
    with false by (vm_compute; reflexivity).
  replace (list_eqb (bytes_of_string "append") (bytes_of_string "mkdir"))
    with false by (vm_compute; reflexivity).
  replace (list_eqb (bytes_of_string "append") (bytes_of_string "create"))
    with false by (vm_compute; reflexivity).
  replace (list_eqb (bytes_of_string "append") (bytes_of_string "unlink"))
    with false by (vm_compute; reflexivity).
  replace (list_eqb (bytes_of_string "append") (bytes_of_string "read"))
    with false by (vm_compute; reflexivity).
  replace (list_eqb (bytes_of_string "append") (bytes_of_string "write"))
    with false by (vm_compute; reflexivity).
  rewrite list_eqb_refl, Hc, Hp. reflexivity.
Qed.



Lemma shell_passes_proper_arguments_witness :
  exists rep,
    fs_write (session_state hello_script) (bytes_of_string "/docs/hello.txt")
             (bytes_of_string "Hello, world") = Done rep
    /\ (exists st,
          Opened true (session_state hello_script) = Opened true st
          /\ exec st (Write (bytes_of_string "Hello, world")
                            (bytes_of_string "/docs/hello.txt")) = Done rep
          /\ Opened true (after rep) = Opened true (after rep))
    /\ bytes_of_string "Hello, world" <> []
    /\ ~ In QUOTE (bytes_of_string "Hello, world")
    /\ ~ In NEWLINE (bytes_of_string "Hello, world")
    /\ bytes_of_string "/docs/hello.txt" <> []
    /\ ~ In SPACE (bytes_of_string "/docs/hello.txt")
    /\ ~ In NEWLINE (bytes_of_string "/docs/hello.txt").
Proof.
  assert (A1 : bytes_of_string "Hello, world" <> []) by discriminate.
  assert (A2 : ~ In QUOTE (bytes_of_string "Hello, world"))
    by (cbn; intuition discriminate).
  assert (A3 : ~ In NEWLINE (bytes_of_string "Hello, world"))
    by (cbn; intuition discriminate).
  assert (A4 : bytes_of_string "/docs/hello.txt" <> []) by discriminate.
  assert (A5 : ~ In SPACE (bytes_of_string "/docs/hello.txt"))
    by (cbn; intuition discriminate).
  assert (A6 : ~ In NEWLINE (bytes_of_string "/docs/hello.txt"))
    by (cbn; intuition discriminate).
  pose proof (shell_write_step (session_state hello_script)
                (bytes_of_string "Hello, world")
                (bytes_of_string "/docs/hello.txt") A1 A2 A3 A4 A5 A6) as Hstep.
  clear A1 A2 A3 A4 A5 A6.
  assert (Hobs : observe code
                   (fs_write (session_state hello_script)
                      (bytes_of_string "/docs/hello.txt")
                      (bytes_of_string "Hello, world")) = Done 0)
    by (vm_compute; reflexivity).
  destruct (fs_write (session_state hello_script)
              (bytes_of_string "/docs/hello.txt")
              (bytes_of_string "Hello, world")) as [rep| |] eqn:Hw;
    [|discriminate Hobs|discriminate Hobs].
  exists rep. split; [reflexivity|].
  cbn [bind] in Hstep.
  exact (shell_passes_proper_arguments _ _ _ _ _ Hstep).
Defined.

Lemma fs_format_returns_zero st :
  exists rep, fs_format st = Done rep /\ code rep = 0.
Proof.
  unfold fs_format.
  rewrite (write_cluster_in _ BOOT_BLOCK_CLUSTER) by reflexivity.
  cbv zeta. cbn [g_fat_table partition].
  rewrite (write_cluster_in _ FAT_CLUSTER_START) by reflexivity.
  match goal with
  | |- context [persist_fat ?s] =>
      destruct (persist_fat_spec s) as (st3 & Hp & _)
  end.
  rewrite Hp. rewrite (write_cluster_in _ ROOT_DIR_CLUSTER) by reflexivity.
  eexists. split; reflexivity.
Qed.

(** X20: nothing but [init] and [load] acts before a load.  While the
    file system is not loaded every other line leaves the state of the
    shell as it was; [load] fails as long as the partition file is missing
    and otherwise loads the FAT; a successful [init], loaded or not,
    clears the loaded flag, so that a [load] is needed again. *)
Theorem shell_needs_load (s s' : shell_state) (cmd_line : list Z)
    (ev : shell_event) :
  shell_step s cmd_line = Done (s', ev) ->
  (ev = Formatted -> exists st', s' = Opened false st')
  /\ (match s with Opened true _ => False | _ => True end ->
      (ev = Formatted \/ ev = FormatFailed)
      \/ (ev = Loaded
          /\ exists st, s = Opened false st
                        /\ s' = Opened true (after (fs_load_fat st)))
      \/ (s' = s
          /\ (ev = TooLong \/ ev = Blank \/ ev = Exit \/ ev = NotLoaded
              \/ (ev = LoadFailed /\ exists fat, s = NoFile fat)))).
Proof.
  unfold shell_step. intros H.
  destruct (negb (existsb (Z.eqb NEWLINE) cmd_line)).
  { apply Done_inj in H. injection H as <- <-.
    split; [discriminate|]. intros _. right. right.
    split; [reflexivity|]. now left. }
  cbv zeta in H.
  destruct (strtok [SPACE] (fst (token_of [NEWLINE] cmd_line)))
    as [[word rest]|].
  2:{ apply Done_inj in H. injection H as <- <-.
      split; [discriminate|]. intros _. right. right.
      split; [reflexivity|]. right. now left. }
  destruct (list_eqb word (bytes_of_string "exit")).
  { apply Done_inj in H. injection H as <- <-.
    split; [discriminate|]. intros _. right. right.
    split; [reflexivity|]. right. right. now left. }
  destruct (list_eqb word (bytes_of_string "init")).
  { match type of H with
    | bind (fs_format ?a) _ = _ =>
        destruct (fs_format_returns_zero a) as (rep & Hf & Hc)
    end.
    rewrite Hf in H. cbn [bind] in H. rewrite Hc in H. cbn [Z.eqb] in H.
    apply Done_inj in H. injection H as <- <-.
    split; [intros _; eauto|]. intros _. left. now left. }
  destruct (list_eqb word (bytes_of_string "load")).
  { destruct s as [fat|l st]; apply Done_inj in H; injection H as <- <-.
    - split; [discriminate|]. intros _. right. right.
      split; [reflexivity|]. right. right. right. right. eauto.
    - split; [discriminate|]. intros Hl.
      destruct l; [destruct Hl|]. right. left. eauto. }
  destruct s as [fat|[|] st].
  - apply Done_inj in H. injection H as <- <-.
    split; [discriminate|]. intros _. right. right.
    split; [reflexivity|]. right. right. right. now left.
  - split; [|intros []].
    intros ->. unfold run_loaded in H.
    repeat match type of H with
           | (if ?b then _ else _) = _ => destruct b
           | (let _ := _ in _) = _ => cbv zeta in H
           | match ?m with _ => _ end = _ => destruct m
           | bind ?m _ = _ => destruct m; cbn [bind] in H
           | let '(_, _) := ?p in _ => destruct p
           end; discriminate H.
  - apply Done_inj in H. injection H as <- <-.
    split; [discriminate|]. intros _. right. right.
    split; [reflexivity|]. right. right. right. now left.
Qed.

Lemma shell_needs_load_witness :
  (NotLoaded = Formatted -> exists st', NoFile format_fat = Opened false st')
  /\ (True ->
      (NotLoaded = Formatted \/ NotLoaded = FormatFailed)
      \/ (NotLoaded = Loaded
          /\ exists st, NoFile format_fat = Opened false st
                        /\ NoFile format_fat
                           = Opened true (after (fs_load_fat st)))
      \/ (NoFile format_fat = NoFile format_fat
          /\ (NotLoaded = TooLong \/ NotLoaded = Blank \/ NotLoaded = Exit
              \/ NotLoaded = NotLoaded
              \/ (NotLoaded = LoadFailed
                  /\ exists fat, NoFile format_fat = NoFile fat)))).
Proof.
  apply (shell_needs_load (NoFile format_fat) (NoFile format_fat)
           (bytes_of_string "mkdir /docs" ++ [NEWLINE]) NotLoaded).
  vm_compute. reflexivity.
Defined.

(** ** The resolver on a regular file *)

Lemma bytes_at_S buf off n :
  bytes_at buf off (S n) = buf off :: bytes_at buf (off + 1) n.
Proof.
  unfold bytes_at. cbn [seq map]. rewrite Z.add_0_r. f_equal.
  rewrite <- seq_shift, map_map. apply map_ext. intros k. f_equal. lia.
Qed.

(** [strcmp] against the bytes of the buffer: the comparison succeeds when
    the bytes at [off] are those of [token] followed by a zero byte ... *)
Lemma strcmp_at_same buf token : forall off,
  off + Z.of_nat (length token) < CLUSTER_SIZE ->
  bytes_at buf off (S (length token)) = token ++ [0] ->
  strcmp_at buf off token = Done true.
Proof.
  induction token as [|t token IH]; intros off Hoff Hb.
  - cbn [length] in *. rewrite bytes_at_S in Hb. injection Hb as Hb.
    cbn [strcmp_at]. replace (off <? CLUSTER_SIZE) with true
      by (symmetry; apply Z.ltb_lt; lia).
    rewrite Hb. reflexivity.
  - rewrite bytes_at_S in Hb. cbn [app length] in Hb. injection Hb as Hh Ht.
    cbn [strcmp_at]. cbn [length] in Hoff.
    replace (off <? CLUSTER_SIZE) with true by (symmetry; apply Z.ltb_lt; lia).
    rewrite Hh, Z.eqb_refl. apply IH; [lia|exact Ht].
Qed.

(** ... and fails when they are not. *)
Lemma strcmp_at_other buf token : forall off,
  off + Z.of_nat (length token) < CLUSTER_SIZE ->
  bytes_at buf off (S (length token)) <> token ++ [0] ->
  strcmp_at buf off token = Done false.
Proof.
  induction token as [|t token IH]; intros off Hoff Hb.
  - cbn [length] in *. rewrite bytes_at_S in Hb. cbn [strcmp_at].
    replace (off <? CLUSTER_SIZE) with true by (symmetry; apply Z.ltb_lt; lia).
    destruct (buf off =? 0) eqn:E; [|reflexivity].
    apply Z.eqb_eq in E. rewrite E in Hb. now elim Hb.
  - rewrite bytes_at_S in Hb. cbn [app length] in Hb.
    cbn [strcmp_at]. cbn [length] in Hoff.
    replace (off <? CLUSTER_SIZE) with true by (symmetry; apply Z.ltb_lt; lia).
    destruct (buf off =? t) eqn:E; [|reflexivity].
    apply Z.eqb_eq in E. apply IH; [lia|].
    intros Ht. apply Hb. now rewrite E, Ht.
Qed.

Lemma strtok_all_app_slash a b :
  strtok_all (a ++ SLASH :: b) = strtok_all a ++ strtok_all b.
Proof. unfold strtok_all. now rewrite split_on_app, filter_app. Qed.

(** The components of [file/next] followed by nothing or by a slash and
    more. *)
Lemma strtok_all_through file_path next more :
  next <> [] -> ~ In SLASH next -> hd SLASH more = SLASH ->
  strtok_all (file_path ++ SLASH :: next ++ more)
  = strtok_all file_path ++ next :: strtok_all more.
Proof.
  intros Hne Hns Hmore. rewrite strtok_all_app_slash. f_equal.
  destruct more as [|m more'].
  - rewrite app_nil_r. unfold strtok_all at 1.
    rewrite split_on_no_sep by assumption. cbn [filter strtok_all split_on].
    destruct next; [now elim Hne|reflexivity].
  - cbn [hd] in Hmore. subst m. rewrite strtok_all_app_slash.
    unfold strtok_all at 1. rewrite split_on_no_sep by assumption.
    cbn [filter]. destruct next; [now elim Hne|]. cbn [is_nil negb app].
    reflexivity.
Qed.

(** C9: the resolver does not check that an intermediate component is a
    directory.  Let the 511-byte copy of the path be [file/next] followed by
    nothing or by a slash and more, where [file] resolves to an entry whose
    attribute is regular-file.  Then the resolver reads the first cluster of
    the file and takes its bytes for 32 directory slots: the first slot in
    use whose bytes are those of [next] and a zero byte is taken as the
    entry of [next], and the walk goes on from the first block decoded from
    it; if no slot is such the result is plain not-found with return 0.
    The only failure is the read of a first cluster beyond the table; no
    not-a-directory result exists. *)
Theorem resolver_descends_into_regular_file (st : fs_state)
    (path file_path next more : list Z) (rf : path_search_result_t) :
  firstn 511 path = file_path ++ SLASH :: next ++ more ->
  next <> [] -> ~ In SLASH next -> hd SLASH more = SLASH ->
  find_entry_by_path st file_path = Done (0, rf) -> found rf = true ->
  attributes (entry rf) = ATTR_ARCHIVE ->
  let c := first_block (entry rf) in
  let data := partition st c in
  let miss := mkResult (strncpy17 next) false (parent_cluster rf)
                       (entry_cluster rf) (entry_index rf) (entry rf) in
  (in_table c = false -> find_entry_by_path st path = Done (-1, miss))
  /\ (in_table c = true ->
      (forall j,
         0 <= j < DIR_ENTRIES_PER_CLUSTER ->
         slot_offset j + Z.of_nat (length next) < CLUSTER_SIZE ->
         data (slot_offset j) <> 0 ->
         bytes_at data (slot_offset j) (S (length next)) = next ++ [0] ->
         (forall i, 0 <= i < j ->
            data (slot_offset i) = 0
            \/ bytes_at data (slot_offset i) (S (length next)) <> next ++ [0]) ->
         find_entry_by_path st path
         = resolve_loop st (strtok_all more) (first_block (entry_at data j))
             (mkResult (strncpy17 next) false c
                       (first_block (entry_at data j)) j (entry_at data j)))
      /\ ((length next <= 31)%nat ->
          (forall i, 0 <= i < DIR_ENTRIES_PER_CLUSTER ->
             data (slot_offset i) = 0
             \/ bytes_at data (slot_offset i) (S (length next)) <> next ++ [0]) ->
          find_entry_by_path st path = Done (0, miss))).
Proof.
  intros Hcopy Hne Hns Hmore Hfind Hf Hattr c data miss.
  assert (Hfp : firstn 511 file_path = file_path).
  { apply firstn_all2.
    assert (H : (length (firstn 511 path) <= 511)%nat)
      by (rewrite length_firstn; lia).
    rewrite Hcopy, length_app in H. lia. }
  destruct (find_regular_file st file_path rf Hfind Hf Hattr) as [Hpre Hloop].
  rewrite Hfp in Hpre, Hloop.
  destruct (resolve_loop_first_match st _ _ _ rf Hpre Hloop Hf)
    as (_ & _ & Hec & _).
  assert (Htok : strtok_all (firstn 511 path)
                 = strtok_all file_path ++ next :: strtok_all more)
    by (rewrite Hcopy; now apply strtok_all_through).
  rewrite find_entry_by_path_loop
    by (rewrite Htok; intros E; apply app_eq_nil in E; destruct E;
        discriminate).
  rewrite Htok.
  rewrite (resolve_loop_app st _ (next :: strtok_all more) ROOT_DIR_CLUSTER
             initial_result rf Hpre Hloop Hf).
  rewrite resolve_loop_cons. cbv zeta.
  cbn [name found parent_cluster entry_cluster entry_index entry initial_result].
  subst miss. rewrite Hec. fold c. unfold read_cluster.
  split; intros Hin; rewrite Hin; [reflexivity|]. fold data.
  assert (Hoffs : forall i j, 0 <= i <= j ->
                    slot_offset j + Z.of_nat (length next) < CLUSTER_SIZE ->
                    slot_offset i + Z.of_nat (length next) < CLUSTER_SIZE).
  { intros i j Hi. unfold slot_offset, DIR_ENTRY_SIZE. lia. }
  split.
  - intros j Hj Hoff Huse Hname Hskip.
    rewrite (scan_dir_reaches data next j (Z.to_nat DIR_ENTRIES_PER_CLUSTER) 0).
    + reflexivity.
    + lia.
    + unfold DIR_ENTRIES_PER_CLUSTER in *. lia.
    + intros i Hi. destruct (Hskip i Hi) as [H0|Hd]; [now left|right].
      apply strcmp_at_other; [|exact Hd]. apply (Hoffs i j); [lia|exact Hoff].
    + exact Huse.
    + now apply strcmp_at_same.
  - intros Hlen Hall.
    rewrite (scan_dir_all_none data next (Z.to_nat DIR_ENTRIES_PER_CLUSTER) 0).
    + reflexivity.
    + intros i Hi.
      assert (Hi' : 0 <= i < DIR_ENTRIES_PER_CLUSTER)
        by (unfold DIR_ENTRIES_PER_CLUSTER in *; lia).
      destruct (Hall i Hi') as [H0|Hd]; [now left|right].
      apply strcmp_at_other; [|exact Hd].
      unfold slot_offset, DIR_ENTRY_SIZE, CLUSTER_SIZE,
        DIR_ENTRIES_PER_CLUSTER in *. lia.
Qed.

(** After [mkdir /docs], [create /docs/f] and a write to [/docs/f] of 32
    bytes [z] followed by [abc], the path [/docs/f] is a regular file whose
    first cluster is 11, and [/docs/f/abc] is found: slot 0 of cluster 11 is
    in use under another name, slot 1 holds [abc] and a zero byte, and the
    entry returned is that slot decoded, of first block 0 and size 0. *)
Lemma resolver_descends_into_regular_file_witness :
  find_entry_by_path (session_state file_as_directory_script)
    (bytes_of_string "/docs/f")
  = Done (0, mkResult (strncpy17 (bytes_of_string "f")) true 10 11 0
               (mkEntry (strncpy17 (bytes_of_string "f")) ATTR_ARCHIVE
                        (repeat 0 7) 11 35))
  /\ find_entry_by_path (session_state file_as_directory_script)
       (bytes_of_string "/docs/f/abc")
     = Done (0, mkResult (strncpy17 (bytes_of_string "abc")) true 11 0 1
                  (mkEntry (strncpy17 (bytes_of_string "abc")) 0 (repeat 0 7)
                           0 0)).
Proof.
  assert (Hcopy : firstn 511 (bytes_of_string "/docs/f/abc")
                  = bytes_of_string "/docs/f"
                    ++ SLASH :: bytes_of_string "abc" ++ []) by reflexivity.
  assert (Hne : bytes_of_string "abc" <> []) by discriminate.
  assert (Hns : ~ In SLASH (bytes_of_string "abc"))
    by (cbn; intuition discriminate).
  assert (Hj : 0 <= 1 < DIR_ENTRIES_PER_CLUSTER)
    by (unfold DIR_ENTRIES_PER_CLUSTER; lia).
  assert (Hoff : slot_offset 1 + Z.of_nat (length (bytes_of_string "abc"))
                 < CLUSTER_SIZE) by (vm_compute; reflexivity).
  assert (Huse : partition (session_state file_as_directory_script) 11
                   (slot_offset 1) <> 0) by (vm_compute; discriminate).
  assert (Hname : bytes_at (partition (session_state file_as_directory_script) 11)
                    (slot_offset 1) (S (length (bytes_of_string "abc")))
                  = bytes_of_string "abc" ++ [0]) by (vm_compute; reflexivity).
  assert (Hskip : forall i, 0 <= i < 1 ->
            partition (session_state file_as_directory_script) 11
              (slot_offset i) = 0
            \/ bytes_at (partition (session_state file_as_directory_script) 11)
                 (slot_offset i) (S (length (bytes_of_string "abc")))
               <> bytes_of_string "abc" ++ [0]).
  { intros i Hi. assert (i = 0) by lia. subst i. right.
    vm_compute. discriminate. }
  assert (Hfind : find_entry_by_path (session_state file_as_directory_script)
                    (bytes_of_string "/docs/f")
                  = Done (0, mkResult (strncpy17 (bytes_of_string "f")) true
                               10 11 0
                               (mkEntry (strncpy17 (bytes_of_string "f"))
                                        ATTR_ARCHIVE (repeat 0 7) 11 35)))
    by (vm_compute; reflexivity).
  split; [exact Hfind|].
  pose proof (resolver_descends_into_regular_file
                (session_state file_as_directory_script)
                (bytes_of_string "/docs/f/abc") (bytes_of_string "/docs/f")
                (bytes_of_string "abc") [] _
                Hcopy Hne Hns eq_refl Hfind eq_refl eq_refl) as H.
  cbv zeta in H. destruct H as [_ H]. destruct (H eq_refl) as [Hm _].
  rewrite (Hm 1 Hj Hoff Huse Hname Hskip). reflexivity.
Defined.
